(** * add-status: the status composer and the batch controller

    A shallow embedding of [src/jira.ts] (field lookup and its cache, issue
    search, field read and write, [buildNewStatus]) and of [src/index.ts]
    (the dry-run and interactive loops and the [handleUpdate] command),
    with the properties of the specification proved about it. *)

From Stdlib Require Import ZArith NArith Lia Ascii String Decimal.
From stdpp Require Import base option list gmap.

Local Open Scope N_scope.

(** ** JavaScript strings

    A JavaScript string is a sequence of UTF-16 code units. *)

Abbreviation jsstring := (list N).

(** A literal of the source, written in ASCII. *)
Fixpoint str (s : string) : jsstring :=
  match s with
  | EmptyString => []
  | String c s' => N_of_ascii c :: str s'
  end.

Arguments str : simpl never.

(** The line feed of a ["\n"] escape, and the double quote. *)
Definition LF : jsstring := [10].
Definition DQ : jsstring := [34].

(** [ToBoolean] of a string: the empty string is the only falsy one. *)
Definition truthy (s : jsstring) : bool :=
  match s with
  | [] => false
  | _ :: _ => true
  end.

(** The code units [String.prototype.trim] strips: ECMAScript's WhiteSpace
    and LineTerminator productions, all of them in the basic plane. *)
Definition isWhiteSpace (c : N) : bool :=
  (c =? 9) || (c =? 10) || (c =? 11) || (c =? 12) || (c =? 13) || (c =? 32)
  || (c =? 160) || (c =? 5760)
  || ((8192 <=? c) && (c <=? 8202))
  || (c =? 8232) || (c =? 8233) || (c =? 8239) || (c =? 8287)
  || (c =? 12288) || (c =? 65279).

Fixpoint trimStart (s : jsstring) : jsstring :=
  match s with
  | [] => []
  | c :: s' => if isWhiteSpace c then trimStart s' else s
  end.

Definition trimEnd (s : jsstring) : jsstring := rev (trimStart (rev s)).

Definition trim (s : jsstring) : jsstring := trimEnd (trimStart s).

(** [s.split(sep)] for a separator of one code unit: never empty. *)
Fixpoint split (sep : N) (s : jsstring) : list jsstring :=
  match s with
  | [] => [[]]
  | c :: s' =>
      if c =? sep then [] :: split sep s'
      else match split sep s' with
           | [] => [[c]]
           | piece :: pieces => (c :: piece) :: pieces
           end
  end.

(** Decimal digits of a number, as [String(n)] and template literals
    print a non-negative integer. *)
Fixpoint digits (u : Decimal.uint) : jsstring :=
  match u with
  | Nil => []
  | D0 u => 48 :: digits u
  | D1 u => 49 :: digits u
  | D2 u => 50 :: digits u
  | D3 u => 51 :: digits u
  | D4 u => 52 :: digits u
  | D5 u => 53 :: digits u
  | D6 u => 54 :: digits u
  | D7 u => 55 :: digits u
  | D8 u => 56 :: digits u
  | D9 u => 57 :: digits u
  end.

Definition decimal (n : N) : jsstring := digits (N.to_uint n).

(** [s.padStart(len, "0")]. *)
Definition padStart0 (len : nat) (s : jsstring) : jsstring :=
  replicate (len - length s) 48 ++ s.

(** ** The clock

    [new Date()] read in UTC, the fields [toISOString] prints. *)

Record Date := mkDate {
  year : Z;
  month : N;      (* 1..12 *)
  day : N;        (* 1..31 *)
  hours : N;
  minutes : N;
  seconds : N;
  milliseconds : N
}.

(** The year of [Date.prototype.toISOString]: four digits from 0 to 9999,
    a sign and six digits outside. *)
Definition isoYear (y : Z) : jsstring :=
  if ((0 <=? y) && (y <=? 9999))%Z then padStart0 4 (decimal (Z.to_N y))
  else (if (y <? 0)%Z then str "-" else str "+")
       ++ padStart0 6 (decimal (Z.abs_N y)).

Definition toISOString (d : Date) : jsstring :=
  isoYear (year d) ++ str "-" ++ padStart0 2 (decimal (month d))
  ++ str "-" ++ padStart0 2 (decimal (day d))
  ++ str "T" ++ padStart0 2 (decimal (hours d))
  ++ str ":" ++ padStart0 2 (decimal (minutes d))
  ++ str ":" ++ padStart0 2 (decimal (seconds d))
  ++ str "." ++ padStart0 3 (decimal (milliseconds d)) ++ str "Z".

(** ** The status composer ([buildNewStatus], jira.ts) *)

Definition buildNewStatus (now : Date) (statusUpdate : jsstring)
    (currentStatus : option jsstring) (addDatePrefix : bool) : jsstring :=
  let newLine :=
    if addDatePrefix then
      let today := hd [] (split 84 (toISOString now)) in
      today ++ str ": " ++ statusUpdate
    else statusUpdate in
  match currentStatus with
  | Some current =>
      if truthy current && truthy (trim current)
      then newLine ++ LF ++ current
      else newLine
  | None => newLine
  end.

(** ** Data model ([src/types.ts]) *)

(** A JSON value as far as the code looks at it: [typeof v === 'string']
    or not. *)
Inductive JsValue :=
| VString (s : jsstring)
| VOther.

Record JiraField := mkField {
  id : jsstring;
  name : jsstring;
  custom : bool
}.

(** [fields] has [summary], [status] and an index signature; [others]
    holds the keys beside the first two. *)
Record JiraIssue := mkIssue {
  key : jsstring;
  summary : jsstring;
  statusName : jsstring;
  others : gmap jsstring JsValue
}.

Record JiraSearchResponse := mkSearch {
  issues : list JiraIssue;
  total : N;
  maxResults : N;
  startAt : N
}.

Record UpdateOptions := mkOptions {
  jql : jsstring;
  dryRun : bool;
  datePrefix : bool
}.

(** [issue.fields[fieldId]]: [undefined] is [None]; a key inherited from
    [Object.prototype] is a function, not a string, like [VOther]. *)
Definition fieldsGet (issue : JiraIssue) (fieldId : jsstring) : option JsValue :=
  if decide (fieldId = str "summary") then Some (VString (summary issue))
  else if decide (fieldId = str "status") then Some VOther
  else others issue !! fieldId.

(** ** The outside world

    What the process calls and what answers it. *)

(** The three requests [jiraFetch] is called with. *)
Inductive Request :=
| GET_field
    (* GET /field *)
| GET_search (encodedJql fields : jsstring) (maxResults : N)
    (* GET /search?jql=${encodedJql}&fields=${fields}&maxResults=100 *)
| PUT_issue (issueKey fieldId newStatus : jsstring).
    (* PUT /issue/${issueKey}  { fields: { [fieldId]: newStatus } } *)

(** A value thrown or a promise rejected. *)
Inductive Thrown :=
| ErrorObj (message : jsstring)   (* [error instanceof Error] *)
| NonError.

(** How an awaited promise settles. *)
Inductive Settled (A : Type) :=
| Fulfilled (a : A)
| Rejected (e : Thrown).
Arguments Fulfilled {A} a.
Arguments Rejected {A} e.

(** How a computation ends: a value, an exception, [process.exit], or
    never: it awaits a promise that does not settle, and nothing after
    the [await] runs. *)
Inductive Outcome (A : Type) :=
| Ok (a : A)
| Throw (e : Thrown)
| Exit (code : Z)
| Pending.
Arguments Ok {A} a.
Arguments Throw {A} e.
Arguments Exit {A} code.
Arguments Pending {A}.

(** The body [response.json()] parses to; the casts of the source trust
    its shape. *)
Inductive Payload :=
| PFields (fs : list JiraField)
| PSearch (r : JiraSearchResponse)
| PNone.

Record HttpResponse := mkResponse {
  ok : bool;
  status : N;
  text : jsstring;
  json : Settled Payload
}.

(** The environment answers the n-th call of each kind. *)
Record Env := mkEnv {
  accessToken : nat -> option jsstring;
    (* stdout of [cloudflared access token], [None] when it fails *)
  remote : nat -> Request -> Settled HttpResponse;
    (* [fetch]: a response, or a rejection *)
  stdin : nat -> option jsstring;
    (* the line the operator types at the n-th question, [None] when the
       input ends before a line comes *)
  clock : nat -> Date
    (* the n-th [new Date()] *)
}.

(** What can be observed of a run, in order: the lines of the console and
    of the spinner (the colours of chalk left out), the question put to
    the operator, the command run for the token, the request sent, and a
    mark at each call of a function of the repository or of the display. *)
Inductive Event :=
| ConsoleLog (line : jsstring)
| ConsoleError (line : jsstring)
| SpinnerStart (line : jsstring)
| SpinnerSucceed (line : jsstring)
| SpinnerFail (line : jsstring)
| Question (query : jsstring)
| ExecToken
| Fetch (token : jsstring) (req : Request)
| CallSearchIssues (jql : jsstring)
| CallGetCurrentStatus (issueKey : jsstring)
| CallDisplayTicketUpdate (issueKey : jsstring)
| CallUpdateCurrentStatus (issueKey newStatus : jsstring).

(** The state of the process: the module variable [currentStatusFieldId],
    how many times each answer of the environment was consumed, and the
    events so far. *)
Record World := mkWorld {
  currentStatusFieldId : option jsstring;
  tokenCalls : nat;
  fetchCalls : nat;
  questions : nat;
  dates : nat;
  trace : list Event
}.

Definition initialWorld : World := mkWorld None 0 0 0 0 [].

(** ** The monad of the process *)

Definition M (A : Type) : Type := World -> Outcome A * World.

Definition ret {A} (a : A) : M A := fun w => (Ok a, w).

Definition bind {A B} (m : M A) (f : A -> M B) : M B :=
  fun w =>
    match m w with
    | (Ok a, w') => f a w'
    | (Throw e, w') => (Throw e, w')
    | (Exit c, w') => (Exit c, w')
    | (Pending, w') => (Pending, w')
    end.

Definition throw {A} (e : Thrown) : M A := fun w => (Throw e, w).

(** [process.exit(code)]: nothing after it runs, no [catch] sees it. *)
Definition exit {A} (code : Z) : M A := fun w => (Exit code, w).

(** [try { m } catch (error) { handler error }]. *)
Definition tryCatch {A} (m : M A) (handler : Thrown -> M A) : M A :=
  fun w =>
    match m w with
    | (Throw e, w') => handler e w'
    | r => r
    end.

Notation "'let*' x := m 'in' k" := (bind m (fun x => k))
  (at level 10, x name, m at level 100, k at level 200).
Notation "m ;; k" := (bind m (fun _ => k))
  (at level 100, k at level 200, right associativity).

(** The world after more events, after one more question, after one more
    reading of the clock. *)
Definition logged (evs : list Event) (w : World) : World :=
  mkWorld (currentStatusFieldId w) (tokenCalls w) (fetchCalls w)
    (questions w) (dates w) (trace w ++ evs).

Definition asked (question : jsstring) (w : World) : World :=
  mkWorld (currentStatusFieldId w) (tokenCalls w) (fetchCalls w)
    (S (questions w)) (dates w) (trace w ++ [Question question]).

Definition dated (w : World) : World :=
  mkWorld (currentStatusFieldId w) (tokenCalls w) (fetchCalls w)
    (questions w) (S (dates w)) (trace w).

Definition emit (e : Event) : M unit := fun w => (Ok tt, logged [e] w).

Definition getCache : M (option jsstring) :=
  fun w => (Ok (currentStatusFieldId w), w).

Definition setCache (v : jsstring) : M unit :=
  fun w => (Ok tt, mkWorld (Some v) (tokenCalls w) (fetchCalls w)
                     (questions w) (dates w) (trace w)).

(** [for (const x of xs) body], the loop variables threaded as [s]. *)
Fixpoint forOf {A S} (body : A -> S -> M S) (xs : list A) (s : S) : M S :=
  match xs with
  | [] => ret s
  | x :: xs' => let* s' := body x s in forOf body xs' s'
  end.

(** [error instanceof Error ? error.message : fallback]. *)
Definition messageOr (fallback : jsstring) (error : Thrown) : jsstring :=
  match error with
  | ErrorObj message => message
  | NonError => fallback
  end.

Definition settle {A} (r : Settled A) : M A :=
  match r with
  | Fulfilled a => ret a
  | Rejected e => throw e
  end.

Definition log (line : jsstring) : M unit := emit (ConsoleLog line).

(** The loop variables of [processTicketsInteractive]. *)
Record LoopState := mkLoop {
  applyAll : bool;
  skipAll : bool;
  updatedCount : nat;
  skippedCount : nat
}.

Section Program.

(** The environment of the run, and two built-ins taken as they are:
    [String.prototype.toLowerCase] and [encodeURIComponent] (total here:
    the query comes from the command line and holds no lone surrogate). *)
Variable env : Env.
Variable toLowerCase : jsstring -> jsstring.
Variable encodeURIComponent : jsstring -> jsstring.

(** *** auth.ts *)

Definition getToken : M jsstring :=
  fun w =>
    let w' := mkWorld (currentStatusFieldId w) (S (tokenCalls w))
                (fetchCalls w) (questions w) (dates w)
                (trace w ++ [ExecToken]) in
    match accessToken env (tokenCalls w) with
    | Some result => (Ok (trim result), w')
    | None =>
        (Throw (ErrorObj (str "Failed to get access token. Please run "
                          ++ DQ ++ str "add-status auth" ++ DQ
                          ++ str " to authenticate first.")), w')
    end.

Definition isAuthenticated : M bool :=
  tryCatch (getToken ;; ret true) (fun _ => ret false).

(** *** jira.ts *)

(** [await fetch(url, options)]. *)
Definition fetch (token : jsstring) (req : Request) : M HttpResponse :=
  fun w =>
    settle (remote env (fetchCalls w) req)
      (mkWorld (currentStatusFieldId w) (tokenCalls w) (S (fetchCalls w))
         (questions w) (dates w) (trace w ++ [Fetch token req])).

Definition jiraFetch (req : Request) : M Payload :=
  let* token := getToken in
  let* response := fetch token req in
  if negb (ok response) then
    let errorText := text response in
    throw (ErrorObj (str "Jira API error (" ++ decimal (status response)
                     ++ str "): " ++ errorText))
  else settle (json response).

(** The casts [jiraFetch<JiraField[]>] and [jiraFetch<JiraSearchResponse>]:
    a body of another shape makes the first use of it throw a TypeError. *)
Definition asFields (p : Payload) : M (list JiraField) :=
  match p with
  | PFields fs => ret fs
  | _ => throw (ErrorObj (str "fields.find is not a function"))
  end.

Definition asSearch (p : Payload) : M JiraSearchResponse :=
  match p with
  | PSearch r => ret r
  | _ => throw (ErrorObj (str "Cannot read properties of undefined"))
  end.

(** Lines 44 to 58 of [getCurrentStatusFieldId]: the remote lookup. *)
Definition lookupCurrentStatusField : M jsstring :=
  let* payload := jiraFetch GET_field in
  let* fields := asFields payload in
  match List.find (fun field =>
                bool_decide (name field = str "Current Status") && custom field)
              fields with
  | None =>
      throw (ErrorObj (str "Could not find " ++ DQ ++ str "Current Status"
                       ++ DQ ++ str " custom field. "
                       ++ str "Make sure this field exists in your Jira project."))
  | Some currentStatusField =>
      setCache (id currentStatusField) ;;
      ret (id currentStatusField)
  end.

Definition getCurrentStatusFieldId : M jsstring :=
  let* cached := getCache in
  match cached with
  | Some fieldId =>
      if truthy fieldId then ret fieldId else lookupCurrentStatusField
  | None => lookupCurrentStatusField
  end.

Definition searchIssues (jql : jsstring) : M (list JiraIssue) :=
  emit (CallSearchIssues jql) ;;
  let* fieldId := getCurrentStatusFieldId in
  let encodedJql := encodeURIComponent jql in
  let fields := str "summary,status," ++ fieldId in
  let* payload := jiraFetch (GET_search encodedJql fields 100) in
  let* response := asSearch payload in
  ret (issues response).

Definition getCurrentStatus (issue : JiraIssue) : M (option jsstring) :=
  emit (CallGetCurrentStatus (key issue)) ;;
  let* fieldId := getCurrentStatusFieldId in
  match fieldsGet issue fieldId with
  | Some (VString value) => ret (Some value)
  | _ => ret None
  end.

Definition updateCurrentStatus (issueKey newStatus : jsstring) : M unit :=
  emit (CallUpdateCurrentStatus issueKey newStatus) ;;
  let* fieldId := getCurrentStatusFieldId in
  jiraFetch (PUT_issue issueKey fieldId newStatus) ;;
  ret tt.

(** A call of [buildNewStatus] in the process: [new Date()] is evaluated
    under [addDatePrefix] only. *)
Definition callBuildNewStatus (statusUpdate : jsstring)
    (currentStatus : option jsstring) (addDatePrefix : bool) : M jsstring :=
  fun w =>
    (Ok (buildNewStatus (clock env (dates w)) statusUpdate currentStatus
           addDatePrefix),
     if addDatePrefix then dated w else w).

(** *** index.ts *)

(** [rl.question] writes the question and calls back with the line read;
    the promise is resolved in that callback only, so it stays pending
    when the input ends first. *)
Definition prompt (question : jsstring) : M jsstring :=
  fun w =>
    match stdin env (questions w) with
    | Some answer => (Ok (trim (toLowerCase answer)), asked question w)
    | None => (Pending, asked question w)
    end.

(** ['─'.repeat(60)]. *)
Definition rule : jsstring := replicate 60 9472.

Definition displayTicketUpdate (issue : JiraIssue)
    (currentStatus : option jsstring) (newStatus : jsstring) : M unit :=
  emit (CallDisplayTicketUpdate (key issue)) ;;
  log (LF ++ rule) ;;
  log (key issue ++ str " - " ++ summary issue) ;;
  log (str "Status: " ++ statusName issue) ;;
  log [] ;;
  log (str "Current Status Field:") ;;
  match currentStatus with
  | Some current =>
      if truthy current then log current else log (str "(empty)")
  | None => log (str "(empty)")
  end ;;
  log [] ;;
  log (str "Proposed New Value:") ;;
  log newStatus.

(** The block the source writes three times (lines 88-97, 109-118,
    124-133): the spinner, the update in a [try], the count. *)
Definition updateWithSpinner (issue : JiraIssue) (newStatus : jsstring)
    (st : LoopState) : M LoopState :=
  emit (SpinnerStart (str "Updating " ++ key issue ++ str "...")) ;;
  tryCatch
    (updateCurrentStatus (key issue) newStatus ;;
     emit (SpinnerSucceed (str "Updated " ++ key issue)) ;;
     ret (mkLoop (applyAll st) (skipAll st) (S (updatedCount st))
            (skippedCount st)))
    (fun error =>
       emit (SpinnerFail (str "Failed to update " ++ key issue ++ str ": "
                          ++ messageOr (str "Unknown error") error)) ;;
       ret st).

Definition said (answer : jsstring) (literal : string) : bool :=
  bool_decide (answer = str literal).

(** The body of the loop of [processTicketsInteractive]. *)
Definition interactiveBody (statusUpdate : jsstring) (addDatePrefix : bool)
    (issue : JiraIssue) (st : LoopState) : M LoopState :=
  if skipAll st then
    ret (mkLoop (applyAll st) (skipAll st) (updatedCount st)
           (S (skippedCount st)))
  else
    let* currentStatus := getCurrentStatus issue in
    let* newStatus := callBuildNewStatus statusUpdate currentStatus addDatePrefix in
    displayTicketUpdate issue currentStatus newStatus ;;
    if applyAll st then updateWithSpinner issue newStatus st
    else
      log [] ;;
      let* answer := prompt (str "Apply this update? [y/n/a(all)/s(skip all)]: ") in
      if said answer "y" || said answer "yes" then
        updateWithSpinner issue newStatus st
      else if said answer "a" || said answer "all" then
        updateWithSpinner issue newStatus
          (mkLoop true (skipAll st) (updatedCount st) (skippedCount st))
      else if said answer "s" || said answer "skip" || said answer "skip all" then
        log (str "Skipping remaining tickets...") ;;
        ret (mkLoop (applyAll st) true (updatedCount st) (S (skippedCount st)))
      else
        log (str "Skipped " ++ key issue) ;;
        ret (mkLoop (applyAll st) (skipAll st) (updatedCount st)
               (S (skippedCount st))).

Definition processTicketsInteractive (issues : list JiraIssue)
    (statusUpdate : jsstring) (addDatePrefix : bool) : M unit :=
  let* st := forOf (interactiveBody statusUpdate addDatePrefix) issues
               (mkLoop false false 0 0) in
  log (LF ++ rule) ;;
  log (str "Summary:") ;;
  log (str "  Updated: " ++ decimal (N.of_nat (updatedCount st))) ;;
  log (str "  Skipped: " ++ decimal (N.of_nat (skippedCount st))).

Definition dryRunBody (statusUpdate : jsstring) (addDatePrefix : bool)
    (issue : JiraIssue) (_ : unit) : M unit :=
  let* currentStatus := getCurrentStatus issue in
  let* newStatus := callBuildNewStatus statusUpdate currentStatus addDatePrefix in
  displayTicketUpdate issue currentStatus newStatus.

Definition processTicketsDryRun (issues : list JiraIssue)
    (statusUpdate : jsstring) (addDatePrefix : bool) : M unit :=
  log (LF ++ str "[DRY RUN] No changes will be made." ++ LF) ;;
  forOf (dryRunBody statusUpdate addDatePrefix) issues tt ;;
  log (LF ++ rule) ;;
  log (str "[DRY RUN] Would update " ++ decimal (N.of_nat (length issues))
       ++ str " ticket(s)").

Definition handleUpdate (statusUpdate : jsstring) (options : UpdateOptions)
    : M unit :=
  let* authenticated := isAuthenticated in
  (if negb authenticated then
     log (str "Not authenticated. Please run " ++ DQ ++ str "add-status auth"
          ++ DQ ++ str " first.") ;;
     exit 1
   else ret tt) ;;
  emit (SpinnerStart (str "Searching for tickets...")) ;;
  tryCatch
    (let* issues := searchIssues (jql options) in
     emit (SpinnerSucceed (str "Found " ++ decimal (N.of_nat (length issues))
                           ++ str " ticket(s)")) ;;
     if Nat.eqb (length issues) 0 then
       log (str "No tickets found matching the query.") ;;
       log (str "JQL: " ++ jql options)
     else
       log (str "JQL: " ++ jql options) ;;
       if dryRun options then
         processTicketsDryRun issues statusUpdate (datePrefix options)
       else
         processTicketsInteractive issues statusUpdate (datePrefix options))
    (fun error =>
       emit (SpinnerFail (str "Failed to search for tickets")) ;;
       emit (ConsoleError (messageOr (str "Unknown error") error)) ;;
       exit 1).

(** The exit status of the process that runs [m] as its command: 0 when
    the action returns, the code given to [process.exit], 1 on a rejection
    nobody handles, and 0 again when the action is left pending and
    nothing remains to be done. *)
Definition exitStatus {A} (r : Outcome A) : Z :=
  match r with
  | Ok _ => 0
  | Throw _ => 1
  | Exit code => code
  | Pending => 0
  end.

End Program.

(** ** The words of the specification *)

(** Today as YYYY-MM-DD. *)
Definition ymd (now : Date) : jsstring :=
  padStart0 4 (decimal (Z.to_N (year now))) ++ str "-"
  ++ padStart0 2 (decimal (month now)) ++ str "-"
  ++ padStart0 2 (decimal (day now)).

Definition hasNonWhiteSpace (s : jsstring) : bool :=
  existsb (fun c => negb (isWhiteSpace c)) s.

(** The composer as section 4.1 words it, [today] given. *)
Definition compose (today updateText : jsstring)
    (currentValue : option jsstring) (addDatePrefix : bool) : jsstring :=
  let firstLine :=
    if addDatePrefix then today ++ str ": " ++ updateText else updateText in
  match currentValue with
  | Some c => if hasNonWhiteSpace c then firstLine ++ LF ++ c else firstLine
  | None => firstLine
  end.

Definition isDigit (c : N) : Prop := 48 <= c <= 57.

(** The lookups of the field identifier sent to the server. *)
Definition fieldLookups (e : Event) : nat :=
  match e with
  | Fetch _ GET_field => 1
  | _ => 0
  end.

(** ** Sample runs

    A lower-casing of the ASCII letters, a ticket, and a server that lists
    one "Current Status" field under [fieldId], answers a search with the
    first [limit] of [found] when [up], and accepts the writes when
    [accept]; the operator types [answers] in turn, and the input ends. *)
Definition asciiLowerCase (s : jsstring) : jsstring :=
  map (fun c => if (65 <=? c) && (c <=? 90) then c + 32 else c) s.

Definition sampleFieldId : jsstring := str "customfield_10042".

Definition ticket (k : string) (current : string) : JiraIssue :=
  mkIssue (str k) (str "Ship it") (str "In Progress")
    {[ sampleFieldId := VString (str current) ]}.

Definition sampleDate : Date := mkDate 2026 1 27 10 30 0 0.

Definition sampleEnv (fieldId : jsstring) (up accept : bool)
    (found : list JiraIssue) (answers : list string) : Env :=
  mkEnv
    (fun _ => Some (str "token"))
    (fun _ req =>
       match req with
       | GET_field =>
           Fulfilled (mkResponse true 200 []
                        (Fulfilled (PFields [mkField fieldId
                                               (str "Current Status") true])))
       | GET_search _ _ limit =>
           if up then
             Fulfilled (mkResponse true 200 []
                          (Fulfilled (PSearch
                             (mkSearch (take (N.to_nat limit) found)
                                (N.of_nat (length found)) limit 0))))
           else
             Fulfilled (mkResponse false 503 (str "unavailable")
                          (Fulfilled PNone))
       | PUT_issue _ _ _ =>
           if accept then
             Fulfilled (mkResponse true 200 [] (Fulfilled PNone))
           else
             Fulfilled (mkResponse false 500 (str "boom") (Fulfilled PNone))
       end)
    (fun n => str <$> answers !! n)
    (fun _ => sampleDate).

(** The process once [sampleFieldId] is cached. *)
Definition readyWorld : World := mkWorld (Some sampleFieldId) 0 0 0 0 [].

Definition sampleOptions (dry : bool) : UpdateOptions :=
  mkOptions (str "project = RM") dry true.

(** The outcome is a value or an exception: the process was not ended
    and nothing is left pending. *)
Definition settles {A} (r : Outcome A) : Prop :=
  match r with
  | Ok _ | Throw _ => True
  | Exit _ | Pending => False
  end.

(** The field identifier is resolved and cached, and is not the empty
    string. *)
Definition resolved (fieldId : jsstring) (w : World) : Prop :=
  currentStatusFieldId w = Some fieldId /\ truthy fieldId = true.

(** ReadField of section 6: the tracked field of the snapshot, null when it
    is absent or not a string. *)
Definition readField (issue : JiraIssue) (fieldId : jsstring)
    : option jsstring :=
  match fieldsGet issue fieldId with
  | Some (VString value) => Some value
  | _ => None
  end.

(** What one display of a ticket prints. *)
Definition displayLines (issue : JiraIssue) (currentStatus : option jsstring)
    (newStatus : jsstring) : list Event :=
  [ CallDisplayTicketUpdate (key issue);
    ConsoleLog (LF ++ rule);
    ConsoleLog (key issue ++ str " - " ++ summary issue);
    ConsoleLog (str "Status: " ++ statusName issue);
    ConsoleLog [];
    ConsoleLog (str "Current Status Field:");
    ConsoleLog (match currentStatus with
                | Some current =>
                    if truthy current then current else str "(empty)"
                | None => str "(empty)"
                end);
    ConsoleLog [];
    ConsoleLog (str "Proposed New Value:");
    ConsoleLog newStatus ].

(** The summary of the interactive mode, the two counts printed. *)
Definition summaryLines (updated skipped : string) : list Event :=
  [ ConsoleLog (LF ++ rule);
    ConsoleLog (str "Summary:");
    ConsoleLog (str "  Updated: " ++ str updated);
    ConsoleLog (str "  Skipped: " ++ str skipped) ].

(** The question of the interactive mode. *)
Definition applyQuestion : jsstring :=
  str "Apply this update? [y/n/a(all)/s(skip all)]: ".

(** What a dry run over [issues] prints between its banner and its count,
    the clock read [n] times before. *)
Fixpoint dryRunLines (env : Env) (fieldId statusUpdate : jsstring)
    (addDatePrefix : bool) (issues : list JiraIssue) (n : nat) : list Event :=
  match issues with
  | [] => []
  | issue :: rest =>
      let currentStatus := readField issue fieldId in
      CallGetCurrentStatus (key issue)
      :: displayLines issue currentStatus
           (buildNewStatus (clock env n) statusUpdate currentStatus
              addDatePrefix)
      ++ dryRunLines env fieldId statusUpdate addDatePrefix rest
           (if addDatePrefix then S n else n)
  end.

(** The world once a ticket is shown: the field read in [w1], the clock
    read under the date prefix, the display printed. *)
Definition shownWorld (env : Env) (statusUpdate : jsstring)
    (addDatePrefix : bool) (issue : JiraIssue)
    (currentStatus : option jsstring) (w1 : World) : World :=
  logged (displayLines issue currentStatus
            (buildNewStatus (clock env (dates w1)) statusUpdate currentStatus
               addDatePrefix))
    (if addDatePrefix then dated w1 else w1).

(** The world once the operator has answered the question about it. *)
Definition answeredWorld (env : Env) (statusUpdate : jsstring)
    (addDatePrefix : bool) (issue : JiraIssue)
    (currentStatus : option jsstring) (w1 : World) : World :=
  asked applyQuestion
    (logged [ConsoleLog []]
       (shownWorld env statusUpdate addDatePrefix issue currentStatus w1)).

(** What [prompt] returns at the n-th question, when a line comes. *)
Definition answerAt (env : Env) (toLowerCase : jsstring -> jsstring)
    (n : nat) : option jsstring :=
  match stdin env n with
  | Some line => Some (trim (toLowerCase line))
  | None => None
  end.

(** The spinner lines of an attempt. *)
Definition updatingLine (issue : JiraIssue) : Event :=
  SpinnerStart (str "Updating " ++ key issue ++ str "...").

Definition failedLine (issue : JiraIssue) (error : Thrown) : Event :=
  SpinnerFail (str "Failed to update " ++ key issue ++ str ": "
               ++ messageOr (str "Unknown error") error).

(** The token is there whenever it is asked for, and every write is
    answered with a success and a body that parses. *)
Definition tokenAvailable (env : Env) : Prop :=
  forall n, exists token, accessToken env n = Some token.

Definition writesSucceed (env : Env) : Prop :=
  forall n issueKey fieldId v, exists response payload,
    remote env n (PUT_issue issueKey fieldId v) = Fulfilled response
    /\ ok response = true /\ json response = Fulfilled payload.

(** Events counted with a weight. *)
Definition weight (mu : Event -> nat) (evs : list Event) : nat :=
  sum_list_with mu evs.

(** [m] appends to the trace events of total weight at most [k], and
    returns only values that satisfy [Q]. *)
Definition Emits {A} (mu : Event -> nat) (k : nat) (Q : A -> Prop) (m : M A)
    : Prop :=
  forall w, exists evs,
    trace (m w).2 = trace w ++ evs /\ (weight mu evs <= k)%nat
    /\ forall a, (m w).1 = Ok a -> Q a.

(** No condition on the value returned. *)
Abbreviation any := (fun _ => True).

(** The four things done for one issue. *)
Inductive PerIssue := Fetched | Displayed | Prompted | Mutated.

Definition perIssue (kind : PerIssue) (e : Event) : nat :=
  match kind, e with
  | Fetched, CallGetCurrentStatus _ => 1
  | Displayed, CallDisplayTicketUpdate _ => 1
  | Prompted, Question _ => 1
  | Mutated, CallUpdateCurrentStatus _ _ => 1
  | _, _ => 0
  end.

(** WriteField: the call of [updateCurrentStatus] and the request it
    sends. *)
Definition writes (e : Event) : nat :=
  match e with
  | CallUpdateCurrentStatus _ _ => 1
  | Fetch _ (PUT_issue _ _ _) => 1
  | _ => 0
  end.

(** A search that asks for another number of results than 100. *)
Definition searchNot100 (e : Event) : nat :=
  match e with
  | Fetch _ (GET_search _ _ limit) => if limit =? 100 then 0 else 1
  | _ => 0
  end.

Definition searches (e : Event) : nat :=
  match e with
  | Fetch _ (GET_search _ _ _) => 1
  | _ => 0
  end.

(** The heading of the summary of the interactive mode. *)
Definition summaryHeading (e : Event) : nat :=
  match e with
  | ConsoleLog line => if bool_decide (line = str "Summary:") then 1 else 0
  | _ => 0
  end.

(** The server returns no more issues than the search asks for. *)
Definition honoursMaxResults (env : Env) : Prop :=
  forall n encodedJql fields limit response r,
    remote env n (GET_search encodedJql fields limit) = Fulfilled response ->
    json response = Fulfilled (PSearch r) ->
    (length (issues r) <= N.to_nat limit)%nat.

(** An event that is no lookup of the field identifier and no request
    under another identifier than [fieldId]. *)
Definition usesField (fieldId : jsstring) (e : Event) : Prop :=
  match e with
  | Fetch _ GET_field => False
  | Fetch _ (GET_search _ fields _) => fields = str "summary,status," ++ fieldId
  | Fetch _ (PUT_issue _ f _) => f = fieldId
  | _ => True
  end.

(** From a process where [fieldId] is resolved, [m] sends no lookup, works
    under [fieldId] only, leaves [fieldId] resolved, and returns only
    values that satisfy [Q]. *)
Definition Reuses {A} (fieldId : jsstring) (Q : A -> Prop) (m : M A) : Prop :=
  forall w, resolved fieldId w ->
    exists evs,
      trace (m w).2 = trace w ++ evs
      /\ Forall (usesField fieldId) evs
      /\ resolved fieldId (m w).2
      /\ forall a, (m w).1 = Ok a -> Q a.

(** The server lists the field under an identifier that is not the empty
    string (those of Jira read customfield_ and a number). *)
Definition identifiersNotEmpty (env : Env) : Prop :=
  forall n response fs field,
    remote env n GET_field = Fulfilled response ->
    json response = Fulfilled (PFields fs) ->
    In field fs ->
    name field = str "Current Status" -> custom field = true ->
    id field <> [].

(** ** The login ([login], auth.ts, and [handleAuth], index.ts) *)

(** What the two commands of [login] answer: [execSync('which
    cloudflared')] throws when the program is not found; [spawnSync] of
    the login gives the exit status, null when a signal ended it. *)
Record LoginEnv := mkLoginEnv {
  whichCloudflared : Settled unit;
  accessLogin : Settled (option Z)
}.

Definition notInstalled : jsstring :=
  str "cloudflared is not installed. Please install it first:" ++ LF
  ++ str "  brew install cloudflared" ++ LF
  ++ str "or visit: https://developers.cloudflare.com/cloudflare-one/connections/connect-apps/install-and-setup/installation/".

Definition login (lenv : LoginEnv) : M unit :=
  tryCatch
    (tryCatch (settle (whichCloudflared lenv))
       (fun _ => throw (ErrorObj notInstalled)) ;;
     let* status := settle (accessLogin lenv) in
     if negb (bool_decide (status = Some 0%Z)) then
       throw (ErrorObj (str "Authentication failed"))
     else ret tt)
    (fun error =>
       match error with
       | ErrorObj _ => throw error
       | NonError => throw (ErrorObj (str "Authentication failed"))
       end).

Definition handleAuth (lenv : LoginEnv) : M unit :=
  log (str "Authenticating with Jira via Cloudflare Access..." ++ LF) ;;
  tryCatch
    (login lenv ;;
     log (LF ++ str "Authentication successful! Token valid for 24 hours."))
    (fun error =>
       emit (ConsoleError (messageOr (str "Authentication failed") error)) ;;
       exit 1).

(** ** More words for the properties of the code *)

(** The message of [getToken] when the token cannot be read. *)
Definition noTokenMessage : jsstring :=
  str "Failed to get access token. Please run " ++ DQ ++ str "add-status auth"
  ++ DQ ++ str " to authenticate first.".

(** The message of the lookup when no field fits. *)
Definition noFieldMessage : jsstring :=
  str "Could not find " ++ DQ ++ str "Current Status" ++ DQ
  ++ str " custom field. "
  ++ str "Make sure this field exists in your Jira project.".

(** The field the lookup is after. *)
Definition isCurrentStatusField (field : JiraField) : bool :=
  bool_decide (name field = str "Current Status") && custom field.

(** The world after the token was read, and after a request went out
    under it. *)
Definition tokenRead (w : World) : World :=
  mkWorld (currentStatusFieldId w) (S (tokenCalls w)) (fetchCalls w)
    (questions w) (dates w) (trace w ++ [ExecToken]).

Definition requested (token : jsstring) (req : Request) (w : World) : World :=
  mkWorld (currentStatusFieldId w) (S (tokenCalls w)) (S (fetchCalls w))
    (questions w) (dates w) (trace w ++ [ExecToken; Fetch token req]).

(** The world with [fieldId] in the cache. *)
Definition cached (fieldId : jsstring) (w : World) : World :=
  mkWorld (Some fieldId) (tokenCalls w) (fetchCalls w) (questions w)
    (dates w) (trace w).

(** The request of the search for [q] under [fieldId]. *)
Definition searchRequest (encodeURIComponent : jsstring -> jsstring)
    (q fieldId : jsstring) : Request :=
  GET_search (encodeURIComponent q) (str "summary,status," ++ fieldId) 100.

(** The message of a request answered with a status that is not ok. *)
Definition apiError (response : HttpResponse) : jsstring :=
  str "Jira API error (" ++ decimal (status response) ++ str "): "
  ++ text response.

(** The spinner lines that end an attempt. *)
Definition succeeds (e : Event) : nat :=
  match e with
  | SpinnerSucceed _ => 1
  | _ => 0
  end.

Definition fails (e : Event) : nat :=
  match e with
  | SpinnerFail _ => 1
  | _ => 0
  end.

(** The writes sent to the server. *)
Definition puts (e : Event) : nat :=
  match e with
  | Fetch _ (PUT_issue _ _ _) => 1
  | _ => 0
  end.

(** The requests sent, of any kind. *)
Definition requests (e : Event) : nat :=
  match e with
  | Fetch _ _ => 1
  | _ => 0
  end.

(** An event that is no request and no update, or is the update of
    [issueKey] to [v] under [fieldId]. *)
Definition writesOnly (issueKey fieldId v : jsstring) (e : Event) : Prop :=
  match e with
  | CallUpdateCurrentStatus k v' => k = issueKey /\ v' = v
  | Fetch _ (PUT_issue k f v') => k = issueKey /\ f = fieldId /\ v' = v
  | Fetch _ _ => False
  | _ => True
  end.

(** The two latches are not both set. *)
Definition exclusive (st : LoopState) : Prop :=
  applyAll st && skipAll st = false.

(** What one step, or several, may do to the loop variables: the latches
    stay once set and stay exclusive, the counts do not go down, and
    together they grow by at most [n]. *)
Definition advances (n : nat) (st st' : LoopState) : Prop :=
  (applyAll st = true -> applyAll st' = true)
  /\ (skipAll st = true -> skipAll st' = true)
  /\ (exclusive st -> exclusive st')
  /\ (updatedCount st <= updatedCount st')%nat
  /\ (skippedCount st <= skippedCount st')%nat
  /\ (updatedCount st' + skippedCount st'
      <= updatedCount st + skippedCount st + n)%nat.

(** The seven answers the switch knows. *)
Definition recognised (answer : jsstring) : bool :=
  said answer "y" || said answer "yes" || said answer "a" || said answer "all"
  || said answer "s" || said answer "skip" || said answer "skip all".

(** The apply-all latch is set. *)
Abbreviation latched := (fun st' : LoopState => applyAll st' = true).

(** [m] never ends the process, and is left pending only when [P]. *)
Definition Unless {A} (P : Prop) (m : M A) : Prop :=
  forall w,
    match (m w).1 with
    | Ok _ | Throw _ => True
    | Exit _ => False
    | Pending => P
    end.

(** ** More sample runs

    An environment where the token cannot be read; a server whose fields
    are [fs] and which refuses every search and every write; two answers
    of the login. *)
Definition noTokenEnv : Env :=
  mkEnv (fun _ => None)
    (remote (sampleEnv sampleFieldId true true [] []))
    (fun _ => None) (fun _ => sampleDate).

Definition schemaEnv (fs : list JiraField) : Env :=
  mkEnv (fun _ => Some (str " token "))
    (fun n req =>
       match req with
       | GET_field =>
           Fulfilled (mkResponse true 200 [] (Fulfilled (PFields fs)))
       | _ => remote (sampleEnv sampleFieldId false false [] []) n req
       end)
    (fun _ => None) (fun _ => sampleDate).

Definition sampleSchema : list JiraField :=
  [ mkField (str "summary") (str "Summary") false;
    mkField (str "customfield_1") (str "Current Status") false;
    mkField sampleFieldId (str "Current Status") true;
    mkField (str "customfield_2") (str "Current Status") true ].

Definition loginKilled : LoginEnv :=
  mkLoginEnv (Fulfilled tt) (Fulfilled None).

Definition loginDone : LoginEnv :=
  mkLoginEnv (Fulfilled tt) (Fulfilled (Some 0%Z)).

Definition loginMissing : LoginEnv :=
  mkLoginEnv (Rejected NonError) (Fulfilled (Some 0%Z)).

(** ** Strings *)

Lemma truthy_rev (s : jsstring) : truthy (rev s) = truthy s.
Proof.
  destruct s as [|c s]; [reflexivity|]. simpl.
  destruct (rev s ++ [c]) eqn:E; [|reflexivity].
  apply app_eq_nil in E as [_ E]. discriminate.
Qed.

Lemma truthy_trimStart (s : jsstring) :
  truthy (trimStart s) = hasNonWhiteSpace s.
Proof.
  induction s as [|c s IH]; [reflexivity|]. simpl.
  destruct (isWhiteSpace c); simpl; [exact IH | reflexivity].
Qed.

Lemma hasNonWhiteSpace_app (s t : jsstring) :
  hasNonWhiteSpace (s ++ t) = hasNonWhiteSpace s || hasNonWhiteSpace t.
Proof. apply existsb_app. Qed.

Lemma hasNonWhiteSpace_rev (s : jsstring) :
  hasNonWhiteSpace (rev s) = hasNonWhiteSpace s.
Proof.
  induction s as [|c s IH]; [reflexivity|].
  simpl rev. rewrite hasNonWhiteSpace_app, IH. simpl.
  rewrite orb_false_r. apply orb_comm.
Qed.

Lemma hasNonWhiteSpace_trimStart (s : jsstring) :
  hasNonWhiteSpace (trimStart s) = hasNonWhiteSpace s.
Proof.
  induction s as [|c s IH]; [reflexivity|]. simpl.
  destruct (isWhiteSpace c) eqn:E; simpl; [exact IH|].
  rewrite E. reflexivity.
Qed.

(** What [trim] leaves is empty exactly when there was only white space. *)
Lemma truthy_trim (s : jsstring) : truthy (trim s) = hasNonWhiteSpace s.
Proof.
  unfold trim, trimEnd.
  rewrite truthy_rev, truthy_trimStart, hasNonWhiteSpace_rev.
  apply hasNonWhiteSpace_trimStart.
Qed.

Lemma hasNonWhiteSpace_truthy (s : jsstring) :
  truthy s && hasNonWhiteSpace s = hasNonWhiteSpace s.
Proof. destruct s; reflexivity. Qed.

Lemma hasNonWhiteSpace_blank (s : jsstring) :
  forallb isWhiteSpace s = true -> hasNonWhiteSpace s = false.
Proof.
  induction s as [|c s IH]; [reflexivity|]. simpl.
  intros [Hc Hs]%andb_prop. rewrite Hc. simpl. auto.
Qed.

(** The first piece of a split is what precedes the first separator. *)
Lemma split_head (sep : N) (a b : jsstring) :
  Forall (fun c => c <> sep) a ->
  hd [] (split sep (a ++ sep :: b)) = a.
Proof.
  induction 1 as [|c a Hc Ha IH]; simpl.
  - rewrite N.eqb_refl. reflexivity.
  - apply N.eqb_neq in Hc. rewrite Hc.
    destruct (split sep (a ++ sep :: b)); simpl in *; congruence.
Qed.

Lemma digits_isDigit (u : Decimal.uint) : Forall isDigit (digits u).
Proof.
  induction u; simpl; constructor; auto; unfold isDigit; lia.
Qed.

Lemma padStart0_isDigit (len : nat) (s : jsstring) :
  Forall isDigit s -> Forall isDigit (padStart0 len s).
Proof.
  intros H. unfold padStart0. apply Forall_app. split; [|exact H].
  apply Forall_replicate. unfold isDigit. lia.
Qed.

Lemma ymd_no_T (now : Date) : Forall (fun c => c <> 84) (ymd now).
Proof.
  assert (D : forall len n,
             Forall (fun c => c <> 84) (padStart0 len (decimal n))).
  { intros len n. eapply Forall_impl.
    - apply padStart0_isDigit, digits_isDigit.
    - unfold isDigit. simpl. lia. }
  assert (H45 : Forall (fun c => c <> 84) (str "-"))
    by (repeat constructor; discriminate).
  unfold ymd. rewrite !Forall_app. auto 10.
Qed.

(** The date part of the ISO string, for the years of four digits. *)
Lemma today_ymd (now : Date) :
  (0 <= year now <= 9999)%Z ->
  hd [] (split 84 (toISOString now)) = ymd now.
Proof.
  intros Hy. unfold toISOString, isoYear.
  replace ((0 <=? year now) && (year now <=? 9999))%Z with true
    by (symmetry; apply andb_true_intro; split; apply Z.leb_le; lia).
  rewrite <- (split_head 84 (ymd now)
    (padStart0 2 (decimal (hours now)) ++ str ":"
     ++ padStart0 2 (decimal (minutes now)) ++ str ":"
     ++ padStart0 2 (decimal (seconds now)) ++ str "."
     ++ padStart0 3 (decimal (milliseconds now)) ++ str "Z"))
    by apply ymd_no_T.
  unfold ymd. repeat rewrite <- app_assoc. reflexivity.
Qed.

(** ** The status composer *)

(** C1. For every update text, current value and date-prefix flag,
    [buildNewStatus] is the composer of the specification: the first line
    is today as YYYY-MM-DD, a colon, a space and the update text under the
    date prefix, the update text alone without it; a current value that is
    not null and holds a character that is not white space follows it
    after a line feed, exactly as stored; otherwise the first line stands
    alone. The clock is read in UTC, in a year of four digits. *)
Theorem buildNewStatus_compose (now : Date) (u : jsstring)
    (c : option jsstring) (d : bool) :
  (0 <= year now <= 9999)%Z ->
  buildNewStatus now u c d = compose (ymd now) u c d.
Proof.
  intros Hy. unfold buildNewStatus, compose.
  rewrite (today_ymd now Hy).
  destruct c as [current|]; [|reflexivity].
  rewrite truthy_trim, hasNonWhiteSpace_truthy. reflexivity.
Qed.

(** C6. A current value made of white space only is composed as a null
    one: the prior content is dropped. In particular composing "X" over
    three spaces without the date prefix gives "X". *)
Theorem buildNewStatus_blank (now : Date) (u current : jsstring) (d : bool) :
  forallb isWhiteSpace current = true ->
  buildNewStatus now u (Some current) d = buildNewStatus now u None d
  /\ buildNewStatus now (str "X") (Some (str "   ")) false = str "X".
Proof.
  intros Hb. split; [|reflexivity].
  unfold buildNewStatus.
  rewrite truthy_trim, (hasNonWhiteSpace_blank current Hb), andb_false_r.
  reflexivity.
Qed.

(** ** The monad and the trace *)

Lemma bind_Ok {A B} (m : M A) (f : A -> M B) (w w1 : World) (a : A) :
  m w = (Ok a, w1) -> bind m f w = f a w1.
Proof. unfold bind. intros ->. reflexivity. Qed.

Lemma bind_Throw {A B} (m : M A) (f : A -> M B) (w w1 : World) (e : Thrown) :
  m w = (Throw e, w1) -> bind m f w = (Throw e, w1).
Proof. unfold bind. intros ->. reflexivity. Qed.

Lemma logged_logged (a b : list Event) (w : World) :
  logged b (logged a w) = logged (a ++ b) w.
Proof. unfold logged. simpl. rewrite app_assoc. reflexivity. Qed.

Lemma weight_app (mu : Event -> nat) (a b : list Event) :
  weight mu (a ++ b) = (weight mu a + weight mu b)%nat.
Proof. apply sum_list_with_app. Qed.

Section Rules.

Context {A B : Type} (mu : Event -> nat).

Lemma emits_ret (k : nat) (Q : A -> Prop) (a : A) :
  Q a -> Emits mu k Q (ret a).
Proof.
  intros Ha w. exists []. simpl. rewrite app_nil_r.
  repeat split; [lia|]. intros a' [= <-]. exact Ha.
Qed.

Lemma emits_throw (k : nat) (Q : A -> Prop) (e : Thrown) :
  Emits mu k Q (throw e).
Proof.
  intros w. exists []. simpl. rewrite app_nil_r.
  repeat split; [lia | discriminate].
Qed.

Lemma emits_exit (k : nat) (Q : A -> Prop) (code : Z) :
  Emits mu k Q (exit code).
Proof.
  intros w. exists []. simpl. rewrite app_nil_r.
  repeat split; [lia | discriminate].
Qed.

Lemma emits_weaken (j k : nat) (Q Q' : A -> Prop) (m : M A) :
  (j <= k)%nat -> (forall a, Q a -> Q' a) -> Emits mu j Q m -> Emits mu k Q' m.
Proof.
  intros Hjk HQ Hm w. destruct (Hm w) as (evs & Ht & Hw & Hq).
  exists evs. repeat split; [exact Ht | lia | auto].
Qed.

Lemma emits_bind (j k n : nat) (Q1 : A -> Prop) (Q2 : B -> Prop)
    (m : M A) (f : A -> M B) :
  (j + k <= n)%nat ->
  Emits mu j Q1 m ->
  (forall a, Q1 a -> Emits mu k Q2 (f a)) ->
  Emits mu n Q2 (bind m f).
Proof.
  intros Hn Hm Hf w. destruct (Hm w) as (e1 & T1 & W1 & H1).
  unfold bind. destruct (m w) as [[a|e|c|] w1]; simpl in *.
  - destruct (Hf a (H1 a eq_refl) w1) as (e2 & T2 & W2 & H2).
    exists (e1 ++ e2). rewrite T2, T1, app_assoc, weight_app.
    repeat split; [lia | exact H2].
  - exists e1. repeat split; [exact T1 | lia | discriminate].
  - exists e1. repeat split; [exact T1 | lia | discriminate].
  - exists e1. repeat split; [exact T1 | lia | discriminate].
Qed.

Lemma emits_tryCatch (j k n : nat) (Q : A -> Prop) (m : M A)
    (handler : Thrown -> M A) :
  (j + k <= n)%nat ->
  Emits mu j Q m ->
  (forall e, Emits mu k Q (handler e)) ->
  Emits mu n Q (tryCatch m handler).
Proof.
  intros Hn Hm Hh w. destruct (Hm w) as (e1 & T1 & W1 & H1).
  unfold tryCatch. destruct (m w) as [[a|e|c|] w1]; simpl in *.
  - exists e1. repeat split; [exact T1 | lia | exact H1].
  - destruct (Hh e w1) as (e2 & T2 & W2 & H2).
    exists (e1 ++ e2). rewrite T2, T1, app_assoc, weight_app.
    repeat split; [lia | exact H2].
  - exists e1. repeat split; [exact T1 | lia | discriminate].
  - exists e1. repeat split; [exact T1 | lia | discriminate].
Qed.

End Rules.

Lemma emits_forOf {A B} (mu : Event -> nat) (k : nat)
    (body : A -> B -> M B) (xs : list A) (s : B) :
  (forall x s', Emits mu k (fun _ => True) (body x s')) ->
  Emits mu (length xs * k) (fun _ => True) (forOf body xs s).
Proof.
  intros Hbody. revert s.
  induction xs as [|x xs IH]; intros s; simpl.
  - apply emits_ret. exact I.
  - apply (emits_bind mu k (length xs * k) _ (fun _ => True)); [lia | apply Hbody |].
    intros s' _. apply IH.
Qed.

Lemma emits_emit (mu : Event -> nat) (k : nat) (e : Event) :
  (mu e <= k)%nat -> Emits mu k (fun _ => True) (emit e).
Proof.
  intros He w. exists [e]. unfold weight. simpl.
  repeat split. lia.
Qed.

(** A bind whose first part weighs nothing. *)
Lemma emits_bind0 {A B} (mu : Event -> nat) (n : nat) (Q1 : A -> Prop)
    (Q2 : B -> Prop) (m : M A) (f : A -> M B) :
  Emits mu 0 Q1 m ->
  (forall a, Q1 a -> Emits mu n Q2 (f a)) ->
  Emits mu n Q2 (bind m f).
Proof. apply emits_bind. lia. Qed.

(** [m] followed by [k], when the events of [m] weigh nothing. *)
Lemma emits_then {A B} (mu : Event -> nat) (n : nat) (Q : B -> Prop)
    (m : M A) (k : M B) :
  Emits mu 0 (fun _ => True) m -> Emits mu n Q k ->
  Emits mu n Q (bind m (fun _ => k)).
Proof.
  intros Hm Hk. apply (emits_bind mu 0 n n (fun _ => True)); [lia | exact Hm |].
  intros _ _. exact Hk.
Qed.

(** The events a run appended weigh what [Emits] says. *)
Lemma emits_run {A} (mu : Event -> nat) (k : nat) (Q : A -> Prop) (m : M A)
    (w w' : World) (r : Outcome A) (evs : list Event) :
  Emits mu k Q m -> m w = (r, w') -> trace w' = trace w ++ evs ->
  (weight mu evs <= k)%nat.
Proof.
  intros H E T. destruct (H w) as (evs' & T' & W & _).
  rewrite E in T'. simpl in T'. rewrite T in T'.
  apply app_inv_head in T'. subst evs'. exact W.
Qed.

(** ** Counting the events of the program *)

Section Counting.

Variable env : Env.
Variable toLowerCase encodeURIComponent : jsstring -> jsstring.

(** A weight that sees nothing of the console, the spinner, the token
    and the field lookup, and at most the given amounts elsewhere. *)
Variable mu : Event -> nat.
Variables cGet cShow cAsk cUpd cPut cSearch : nat.
Hypothesis mu_log : forall line, mu (ConsoleLog line) = 0%nat.
Hypothesis mu_error : forall line, mu (ConsoleError line) = 0%nat.
Hypothesis mu_start : forall line, mu (SpinnerStart line) = 0%nat.
Hypothesis mu_succeed : forall line, mu (SpinnerSucceed line) = 0%nat.
Hypothesis mu_fail : forall line, mu (SpinnerFail line) = 0%nat.
Hypothesis mu_token : mu ExecToken = 0%nat.
Hypothesis mu_field : forall t, mu (Fetch t GET_field) = 0%nat.
Hypothesis mu_call : forall q, mu (CallSearchIssues q) = 0%nat.
Hypothesis mu_get : forall k, (mu (CallGetCurrentStatus k) <= cGet)%nat.
Hypothesis mu_show : forall k, (mu (CallDisplayTicketUpdate k) <= cShow)%nat.
Hypothesis mu_ask : forall q, (mu (Question q) <= cAsk)%nat.
Hypothesis mu_upd : forall k v, (mu (CallUpdateCurrentStatus k v) <= cUpd)%nat.
Hypothesis mu_put : forall t k f v, (mu (Fetch t (PUT_issue k f v)) <= cPut)%nat.
Hypothesis mu_search :
  forall t q f, (mu (Fetch t (GET_search q f 100)) <= cSearch)%nat.

Lemma log_emits (k : nat) (line : jsstring) : Emits mu k any (log line).
Proof. apply emits_emit. rewrite mu_log. lia. Qed.

Lemma getToken_emits (k : nat) : Emits mu k any (getToken env).
Proof.
  intros w. exists [ExecToken]. unfold getToken, weight.
  destruct (accessToken env (tokenCalls w)); simpl; rewrite mu_token;
    repeat split; lia.
Qed.

Lemma fetch_emits (k : nat) (token : jsstring) (req : Request) :
  (forall t, mu (Fetch t req) <= k)%nat ->
  Emits mu k (fun response => exists n, remote env n req = Fulfilled response)
    (fetch env token req).
Proof.
  intros Hk w. exists [Fetch token req]. unfold fetch, weight.
  specialize (Hk token).
  destruct (remote env (fetchCalls w) req) as [response|e] eqn:E; simpl;
    (repeat split; [lia|]).
  - intros a [= <-]. eauto.
  - discriminate.
Qed.

Lemma settle_emits {A} (k : nat) (r : Settled A) :
  Emits mu k (fun a => r = Fulfilled a) (settle r).
Proof.
  destruct r; simpl; [apply emits_ret; reflexivity | apply emits_throw].
Qed.

Lemma jiraFetch_emits (k : nat) (req : Request) :
  (forall t, mu (Fetch t req) <= k)%nat ->
  Emits mu k
    (fun payload => exists n response,
       remote env n req = Fulfilled response
       /\ json response = Fulfilled payload)
    (jiraFetch env req).
Proof.
  intros Hk. unfold jiraFetch.
  eapply (emits_bind mu 0 k _ any); [lia | apply getToken_emits |].
  intros token _.
  eapply (emits_bind mu k 0); [lia | apply fetch_emits, Hk |].
  intros response [n Hn]. simpl.
  destruct (negb (ok response)); [apply emits_throw|].
  eapply emits_weaken; [reflexivity | | apply settle_emits].
  intros payload Hp. eauto.
Qed.

Lemma getCurrentStatusFieldId_emits (k : nat) :
  Emits mu k any (getCurrentStatusFieldId env).
Proof.
  assert (L : Emits mu k any (lookupCurrentStatusField env)).
  { unfold lookupCurrentStatusField.
    eapply (emits_bind mu 0 k); [lia | |].
    - apply jiraFetch_emits. intros t. rewrite mu_field. lia.
    - intros payload _.
      eapply (emits_bind mu 0 k _ any); [lia | |].
      + destruct payload; simpl; try apply emits_throw.
        apply emits_ret. exact I.
      + intros fields _. destruct (List.find _ fields);
          [|apply emits_throw].
        apply emits_then; [|apply emits_ret; exact I].
        intros w. exists []. simpl. rewrite app_nil_r. repeat split. lia. }
  unfold getCurrentStatusFieldId.
  eapply (emits_bind mu 0 k _ any); [lia | |].
  - intros w. exists []. simpl. rewrite app_nil_r. repeat split. lia.
  - intros [fieldId|] _; [|exact L].
    destruct (truthy fieldId); [apply emits_ret; exact I | exact L].
Qed.

Lemma searchIssues_emits (q : jsstring) :
  Emits mu cSearch
    (fun found => exists n encodedJql fields response r,
       remote env n (GET_search encodedJql fields 100) = Fulfilled response
       /\ json response = Fulfilled (PSearch r) /\ found = issues r)
    (searchIssues env encodeURIComponent q).
Proof.
  unfold searchIssues.
  apply emits_then; [apply emits_emit; rewrite mu_call; lia|].
  eapply (emits_bind mu 0 cSearch _ any);
    [lia | apply getCurrentStatusFieldId_emits |].
  intros fieldId _. cbv zeta.
  eapply (emits_bind mu cSearch 0);
    [lia | apply jiraFetch_emits; intros t; apply mu_search |].
  intros payload (n & response & Hn & Hp).
  destruct payload as [fs|r|]; cbn [asSearch]; try apply emits_throw.
  eapply (emits_bind mu 0 0 _ (fun x => x = r));
    [lia | apply emits_ret; reflexivity |].
  intros ? ->. apply emits_ret. eauto 10.
Qed.

Lemma getCurrentStatus_emits (issue : JiraIssue) :
  Emits mu cGet any (getCurrentStatus env issue).
Proof.
  unfold getCurrentStatus.
  eapply (emits_bind mu cGet 0 _ any); [lia | apply emits_emit, mu_get |].
  intros _ _.
  eapply (emits_bind mu 0 0 _ any);
    [lia | apply getCurrentStatusFieldId_emits |].
  intros fieldId _.
  destruct (fieldsGet issue fieldId) as [[value|]|]; apply emits_ret; exact I.
Qed.

Lemma updateCurrentStatus_emits (issueKey newStatus : jsstring) :
  Emits mu (cUpd + cPut) any (updateCurrentStatus env issueKey newStatus).
Proof.
  unfold updateCurrentStatus.
  eapply (emits_bind mu cUpd cPut _ any); [lia | apply emits_emit, mu_upd |].
  intros _ _.
  eapply (emits_bind mu 0 cPut _ any);
    [lia | apply getCurrentStatusFieldId_emits |].
  intros fieldId _.
  eapply (emits_bind mu cPut 0);
    [lia | apply jiraFetch_emits; intros t; apply mu_put |].
  intros payload _. apply emits_ret. exact I.
Qed.

Lemma callBuildNewStatus_emits (k : nat) (u : jsstring)
    (c : option jsstring) (d : bool) :
  Emits mu k any (callBuildNewStatus env u c d).
Proof.
  intros w. exists []. unfold callBuildNewStatus. simpl.
  rewrite app_nil_r. destruct d; repeat split; lia.
Qed.

Lemma prompt_emits (question : jsstring) :
  Emits mu cAsk any (prompt env toLowerCase question).
Proof.
  intros w. exists [Question question]. unfold prompt, weight.
  specialize (mu_ask question).
  destruct (stdin env (questions w)); simpl; repeat split; lia.
Qed.

Lemma displayTicketUpdate_emits (issue : JiraIssue)
    (c : option jsstring) (v : jsstring) :
  Emits mu cShow any (displayTicketUpdate issue c v).
Proof.
  unfold displayTicketUpdate.
  eapply (emits_bind mu cShow 0 _ any); [lia | apply emits_emit, mu_show |].
  intros _ _.
  repeat (apply emits_then; [apply log_emits|]).
  apply emits_then; [|repeat (apply emits_then; [apply log_emits|]);
                      apply log_emits].
  destruct c as [current|]; [destruct (truthy current)|]; apply log_emits.
Qed.

Lemma updateWithSpinner_emits (issue : JiraIssue) (v : jsstring)
    (st : LoopState) :
  Emits mu (cUpd + cPut) any (updateWithSpinner env issue v st).
Proof.
  unfold updateWithSpinner.
  apply emits_then; [apply emits_emit; rewrite mu_start; lia|].
  apply (emits_tryCatch mu (cUpd + cPut) 0); [lia | |].
  - eapply (emits_bind mu (cUpd + cPut) 0 _ any);
      [lia | apply updateCurrentStatus_emits |].
    intros _ _.
    apply emits_then; [apply emits_emit; rewrite mu_succeed; lia|].
    apply emits_ret. exact I.
  - intros e.
    apply emits_then; [apply emits_emit; rewrite mu_fail; lia|].
    apply emits_ret. exact I.
Qed.

Lemma interactiveBody_emits (u : jsstring) (d : bool) (issue : JiraIssue)
    (st : LoopState) :
  Emits mu (cGet + cShow + cAsk + cUpd + cPut) any
    (interactiveBody env toLowerCase u d issue st).
Proof.
  unfold interactiveBody.
  destruct (skipAll st); [apply emits_ret; exact I|].
  eapply (emits_bind mu cGet (cShow + cAsk + cUpd + cPut) _ any);
    [lia | apply getCurrentStatus_emits |].
  intros c _.
  eapply (emits_bind0 mu _ any); [apply callBuildNewStatus_emits |].
  intros v _.
  eapply (emits_bind mu cShow (cAsk + cUpd + cPut) _ any);
    [lia | apply displayTicketUpdate_emits |].
  intros _ _.
  destruct (applyAll st).
  { eapply emits_weaken; [| |apply updateWithSpinner_emits]; [lia | auto]. }
  apply emits_then; [apply log_emits|].
  eapply (emits_bind mu cAsk (cUpd + cPut) _ any);
    [lia | apply prompt_emits |].
  intros answer _.
  repeat match goal with
         | |- Emits _ _ _ (if ?b then _ else _) => destruct b
         end;
    try apply updateWithSpinner_emits;
    (apply emits_then; [apply log_emits | apply emits_ret; exact I]).
Qed.

Lemma dryRunBody_emits (u : jsstring) (d : bool) (issue : JiraIssue)
    (s : unit) :
  Emits mu (cGet + cShow) any (dryRunBody env u d issue s).
Proof.
  unfold dryRunBody.
  eapply (emits_bind mu cGet cShow _ any);
    [lia | apply getCurrentStatus_emits |].
  intros c _.
  eapply (emits_bind0 mu _ any); [apply callBuildNewStatus_emits |].
  intros v _. apply displayTicketUpdate_emits.
Qed.

Lemma processTicketsInteractive_emits (found : list JiraIssue)
    (u : jsstring) (d : bool) :
  Emits mu (length found * (cGet + cShow + cAsk + cUpd + cPut)) any
    (processTicketsInteractive env toLowerCase found u d).
Proof.
  unfold processTicketsInteractive.
  eapply (emits_bind mu
            (length found * (cGet + cShow + cAsk + cUpd + cPut)) 0 _ any);
    [lia | apply emits_forOf; intros; apply interactiveBody_emits |].
  intros st _.
  repeat (apply emits_then; [apply log_emits|]). apply log_emits.
Qed.

Lemma processTicketsDryRun_emits (found : list JiraIssue)
    (u : jsstring) (d : bool) :
  Emits mu (length found * (cGet + cShow)) any
    (processTicketsDryRun env found u d).
Proof.
  unfold processTicketsDryRun.
  apply emits_then; [apply log_emits|].
  eapply (emits_bind mu (length found * (cGet + cShow)) 0 _ any);
    [lia | apply emits_forOf; intros; apply dryRunBody_emits |].
  intros _ _.
  apply emits_then; apply log_emits.
Qed.

Lemma isAuthenticated_emits (k : nat) : Emits mu k any (isAuthenticated env).
Proof.
  unfold isAuthenticated.
  apply (emits_tryCatch mu k 0); [lia | |].
  - eapply (emits_bind mu k 0 _ any); [lia | apply getToken_emits |].
    intros _ _. apply emits_ret. exact I.
  - intros _. apply emits_ret. exact I.
Qed.

(** A run of the command weighs at most one search and the issues the
    search returns. *)
Lemma handleUpdate_emits (u : jsstring) (options : UpdateOptions)
    (bound : nat) :
  (forall n encodedJql fields response r,
      remote env n (GET_search encodedJql fields 100) = Fulfilled response ->
      json response = Fulfilled (PSearch r) ->
      (length (issues r) * (cGet + cShow + cAsk + cUpd + cPut) <= bound)%nat) ->
  Emits mu (cSearch + bound) any
    (handleUpdate env toLowerCase encodeURIComponent u options).
Proof.
  intros Hlimit. unfold handleUpdate.
  eapply (emits_bind0 mu _ any); [apply isAuthenticated_emits |].
  intros authenticated _.
  apply emits_then.
  { destruct (negb authenticated); [|apply emits_ret; exact I].
    apply emits_then; [apply log_emits | apply emits_exit]. }
  apply emits_then; [apply emits_emit; rewrite mu_start; lia|].
  eapply (emits_tryCatch mu (cSearch + bound) 0); [lia | |].
  - eapply (emits_bind mu cSearch bound); [lia | apply searchIssues_emits |].
    intros found (n & q & f & response & r & Hn & Hp & ->).
    specialize (Hlimit _ _ _ _ _ Hn Hp).
    apply emits_then; [apply emits_emit; rewrite mu_succeed; lia|].
    destruct (Nat.eqb _ 0).
    { apply emits_then; apply log_emits. }
    apply emits_then; [apply log_emits|].
    destruct (dryRun options).
    + eapply emits_weaken; [| |apply processTicketsDryRun_emits]; [nia | auto].
    + eapply emits_weaken; [| |apply processTicketsInteractive_emits];
        [nia | auto].
  - intros e.
    apply emits_then; [apply emits_emit; rewrite mu_fail; lia|].
    apply emits_then; [apply emits_emit; rewrite mu_error; lia|].
    apply emits_exit.
Qed.

End Counting.

(** ** What the functions do *)

Section Behaviour.

Variable env : Env.
Variable toLowerCase encodeURIComponent : jsstring -> jsstring.

Lemma resolved_logged (fieldId : jsstring) (evs : list Event) (w : World) :
  resolved fieldId w -> resolved fieldId (logged evs w).
Proof. exact (fun H => H). Qed.

Lemma resolved_asked (fieldId question : jsstring) (w : World) :
  resolved fieldId w -> resolved fieldId (asked question w).
Proof. exact (fun H => H). Qed.

Lemma resolved_dated (fieldId : jsstring) (w : World) :
  resolved fieldId w -> resolved fieldId (dated w).
Proof. exact (fun H => H). Qed.

(** Once an identifier that is not empty is cached, it is returned with no
    lookup and no event. *)
Lemma getCurrentStatusFieldId_resolved (fieldId : jsstring) (w : World) :
  resolved fieldId w -> getCurrentStatusFieldId env w = (Ok fieldId, w).
Proof.
  intros [Hc Ht]. unfold getCurrentStatusFieldId, bind, getCache.
  rewrite Hc, Ht. reflexivity.
Qed.

Lemma getCurrentStatus_resolved (fieldId : jsstring) (issue : JiraIssue)
    (w : World) :
  resolved fieldId w ->
  getCurrentStatus env issue w
  = (Ok (readField issue fieldId),
     logged [CallGetCurrentStatus (key issue)] w).
Proof.
  intros H. unfold getCurrentStatus, readField.
  rewrite (bind_Ok _ _ w (logged [CallGetCurrentStatus (key issue)] w) tt)
    by reflexivity.
  rewrite (bind_Ok _ _ _ _ fieldId
             (getCurrentStatusFieldId_resolved fieldId _
                (resolved_logged _ _ _ H))).
  destruct (fieldsGet issue fieldId) as [[value|]|]; reflexivity.
Qed.

Lemma displayTicketUpdate_eq (issue : JiraIssue) (c : option jsstring)
    (v : jsstring) (w : World) :
  displayTicketUpdate issue c v w = (Ok tt, logged (displayLines issue c v) w).
Proof.
  unfold displayTicketUpdate, displayLines, bind, log, emit.
  destruct c as [current|]; [destruct (truthy current)|];
    rewrite !logged_logged; reflexivity.
Qed.

(** A request changes neither the cache nor the counts of questions and
    clock readings; it returns or throws. *)
Lemma jiraFetch_frame (req : Request) (w : World) :
  exists r w', jiraFetch env req w = (r, w')
    /\ currentStatusFieldId w' = currentStatusFieldId w
    /\ questions w' = questions w /\ dates w' = dates w
    /\ settles r.
Proof.
  unfold jiraFetch, bind, getToken, fetch, settle, throw, ret.
  destruct (accessToken env (tokenCalls w)); cbn;
    [|do 2 eexists; repeat split].
  destruct (remote env (fetchCalls w) req) as [response|e]; cbn;
    [|do 2 eexists; repeat split].
  destruct (ok response); cbn; [|do 2 eexists; repeat split].
  destruct (json response); cbn; do 2 eexists; repeat split.
Qed.

Lemma updateCurrentStatus_frame (fieldId issueKey v : jsstring) (w : World) :
  resolved fieldId w ->
  exists r w', updateCurrentStatus env issueKey v w = (r, w')
    /\ resolved fieldId w'
    /\ questions w' = questions w /\ dates w' = dates w
    /\ settles r.
Proof.
  intros H. unfold updateCurrentStatus.
  rewrite (bind_Ok _ _ w (logged [CallUpdateCurrentStatus issueKey v] w) tt)
    by reflexivity.
  rewrite (bind_Ok _ _ _ _ fieldId
             (getCurrentStatusFieldId_resolved fieldId _
                (resolved_logged _ _ _ H))).
  destruct (jiraFetch_frame (PUT_issue issueKey fieldId v)
              (logged [CallUpdateCurrentStatus issueKey v] w))
    as (r & w' & E & Hc & Hq & Hd & Hx).
  unfold bind. rewrite E.
  assert (R : resolved fieldId w')
    by (destruct H as [H1 H2]; split; [rewrite Hc|]; assumption).
  destruct r as [p|e|code|]; try destruct Hx;
    [exists (Ok tt) | exists (Throw e)];
    exists w'; repeat split; try apply R; assumption.
Qed.

(** The attempt that succeeds, and the one that fails. *)
Lemma updateWithSpinner_success (issue : JiraIssue) (v : jsstring)
    (st : LoopState) (w w1 : World) :
  updateCurrentStatus env (key issue) v
    (logged [SpinnerStart (str "Updating " ++ key issue ++ str "...")] w)
  = (Ok tt, w1) ->
  updateWithSpinner env issue v st w
  = (Ok (mkLoop (applyAll st) (skipAll st) (S (updatedCount st))
           (skippedCount st)),
     logged [SpinnerSucceed (str "Updated " ++ key issue)] w1).
Proof.
  intros E. unfold updateWithSpinner, bind, tryCatch, emit.
  rewrite E. reflexivity.
Qed.

Lemma updateWithSpinner_failure (issue : JiraIssue) (v : jsstring)
    (st : LoopState) (w w1 : World) (e : Thrown) :
  updateCurrentStatus env (key issue) v
    (logged [SpinnerStart (str "Updating " ++ key issue ++ str "...")] w)
  = (Throw e, w1) ->
  updateWithSpinner env issue v st w
  = (Ok st,
     logged [SpinnerFail (str "Failed to update " ++ key issue ++ str ": "
                          ++ messageOr (str "Unknown error") e)] w1).
Proof.
  intros E. unfold updateWithSpinner, bind, tryCatch, emit.
  rewrite E. reflexivity.
Qed.

(** An attempt always returns, whatever the update does. *)
Lemma updateWithSpinner_total (fieldId : jsstring) (issue : JiraIssue)
    (v : jsstring) (st : LoopState) (w : World) :
  resolved fieldId w ->
  exists st' w', updateWithSpinner env issue v st w = (Ok st', w')
    /\ resolved fieldId w'.
Proof.
  intros H.
  destruct (updateCurrentStatus_frame fieldId (key issue) v
              (logged [SpinnerStart (str "Updating " ++ key issue
                                     ++ str "...")] w)
              (resolved_logged _ _ _ H))
    as (r & w1 & E & R & _ & _ & Hx).
  destruct r as [[]|e|code|]; try destruct Hx.
  - rewrite (updateWithSpinner_success _ _ _ _ _ E). eauto.
  - rewrite (updateWithSpinner_failure _ _ _ _ _ _ E). eauto.
Qed.

(** The body of the interactive loop on a ticket whose field was read:
    the attempt under the apply-all latch; otherwise the question, left
    pending when no line comes, and its four answers. *)
Lemma interactiveBody_read (u : jsstring) (d : bool) (issue : JiraIssue)
    (st : LoopState) (w w1 : World) (c : option jsstring) :
  skipAll st = false ->
  getCurrentStatus env issue w = (Ok c, w1) ->
  let v := buildNewStatus (clock env (dates w1)) u c d in
  let w2 := answeredWorld env u d issue c w1 in
  interactiveBody env toLowerCase u d issue st w
  = if applyAll st then
      updateWithSpinner env issue v st (shownWorld env u d issue c w1)
    else
      match answerAt env toLowerCase (questions w1) with
      | None => (Pending, w2)
      | Some answer =>
          if said answer "y" || said answer "yes" then
            updateWithSpinner env issue v st w2
          else if said answer "a" || said answer "all" then
            updateWithSpinner env issue v
              (mkLoop true (skipAll st) (updatedCount st) (skippedCount st)) w2
          else if said answer "s" || said answer "skip"
                  || said answer "skip all"
          then (Ok (mkLoop (applyAll st) true (updatedCount st)
                      (S (skippedCount st))),
                logged [ConsoleLog (str "Skipping remaining tickets...")] w2)
          else (Ok (mkLoop (applyAll st) (skipAll st) (updatedCount st)
                      (S (skippedCount st))),
                logged [ConsoleLog (str "Skipped " ++ key issue)] w2)
      end.
Proof.
  intros Hs Hg v w2. unfold interactiveBody. rewrite Hs.
  rewrite (bind_Ok _ _ _ _ _ Hg).
  unfold bind at 1. unfold callBuildNewStatus at 1.
  unfold bind at 1. rewrite displayTicketUpdate_eq.
  subst v w2.
  unfold answeredWorld, shownWorld, applyQuestion, bind, log, emit, prompt,
    answerAt.
  destruct (applyAll st); [reflexivity|].
  destruct d; cbn [questions logged asked dated];
    (destruct (stdin env (questions w1)); [|reflexivity]);
    repeat match goal with
           | |- (if ?b then _ else _) _ = _ => destruct b
           end; reflexivity.
Qed.

End Behaviour.

(** ** The interactive mode *)

Section Interactive.

Variable env : Env.
Variable toLowerCase : jsstring -> jsstring.
Variables (u : jsstring) (d : bool).

Lemma said_true (answer : jsstring) (literal : string) :
  said answer literal = true -> answer = str literal.
Proof. unfold said. apply bool_decide_eq_true. Qed.

(** Under the skip-all latch the rest of the list is counted and nothing
    else happens. *)
Lemma forOf_skipAll (rest : list JiraIssue) (st : LoopState) (w : World) :
  skipAll st = true ->
  forOf (interactiveBody env toLowerCase u d) rest st w
  = (Ok (mkLoop (applyAll st) true (updatedCount st)
           (skippedCount st + length rest)), w).
Proof.
  revert st. induction rest as [|issue rest IH]; intros st Hs.
  - simpl. unfold ret. rewrite Nat.add_0_r, <- Hs.
    destruct st; reflexivity.
  - simpl. unfold bind. unfold interactiveBody at 1. rewrite Hs. unfold ret.
    rewrite IH by reflexivity. simpl.
    repeat f_equal. lia.
Qed.

(** C2. In the interactive mode, an update reached by the answer y or yes,
    by a or all, or under the apply-all latch, and that fails, is reported
    with the key of its issue; the step leaves the updated and the skipped
    counts as they were, and the loop goes on with the next issue. *)
Theorem failed_update_is_reported_and_uncounted
    (issue : JiraIssue) (rest : list JiraIssue) (st : LoopState)
    (w w1 wf : World) (c : option jsstring) (answer : jsstring)
    (e : Thrown) :
  skipAll st = false ->
  getCurrentStatus env issue w = (Ok c, w1) ->
  let v := buildNewStatus (clock env (dates w1)) u c d in
  let attempt := if applyAll st then shownWorld env u d issue c w1
                 else answeredWorld env u d issue c w1 in
  applyAll st = true
  \/ (answerAt env toLowerCase (questions w1) = Some answer
      /\ said answer "y" || said answer "yes"
         || said answer "a" || said answer "all" = true) ->
  updateCurrentStatus env (key issue) v (logged [updatingLine issue] attempt)
  = (Throw e, wf) ->
  exists st',
    interactiveBody env toLowerCase u d issue st w
    = (Ok st', logged [failedLine issue e] wf)
    /\ updatedCount st' = updatedCount st
    /\ skippedCount st' = skippedCount st
    /\ skipAll st' = false
    /\ forOf (interactiveBody env toLowerCase u d) (issue :: rest) st w
       = forOf (interactiveBody env toLowerCase u d) rest st'
           (logged [failedLine issue e] wf).
Proof.
  intros Hs Hg v attempt Hpath Hfail.
  pose proof (interactiveBody_read env toLowerCase u d issue st w w1 c Hs Hg)
    as Hbody.
  cbv zeta in Hbody. fold v in Hbody.
  assert (R : exists st',
             interactiveBody env toLowerCase u d issue st w
             = (Ok st', logged [failedLine issue e] wf)
             /\ updatedCount st' = updatedCount st
             /\ skippedCount st' = skippedCount st
             /\ skipAll st' = false).
  { subst attempt. destruct (applyAll st) eqn:Ha.
    - exists st. rewrite Hbody.
      rewrite (updateWithSpinner_failure env issue v st _ wf e Hfail). auto.
    - destruct Hpath as [Hpath|[Hline Hpath]]; [discriminate|].
      rewrite Hline in Hbody.
      destruct (said answer "y" || said answer "yes") eqn:Hy.
      + exists st. rewrite Hbody.
        rewrite (updateWithSpinner_failure env issue v st _ wf e Hfail). auto.
      + simpl in Hpath. rewrite Hpath in Hbody.
        exists (mkLoop true (skipAll st) (updatedCount st) (skippedCount st)).
        rewrite Hbody.
        rewrite (updateWithSpinner_failure env issue v _ _ wf e Hfail). auto. }
  destruct R as (st' & Hb & Hu & Hk & Hs').
  exists st'. repeat split; try assumption.
  simpl. unfold bind. rewrite Hb. reflexivity.
Qed.

(** C3. Once the operator answers s, skip or skip all on an issue, that
    issue and every remaining one are counted as skipped, and nothing else
    happens for the remaining ones: no fetch, no display, no question, no
    write. Answering so on the first of three issues gives the summary
    Updated: 0, Skipped: 3. *)
Theorem skip_all_skips_the_rest
    (issue i2 i3 : JiraIssue) (rest : list JiraIssue) (st : LoopState)
    (w w1 : World) (c : option jsstring) (answer : jsstring) :
  skipAll st = false -> applyAll st = false ->
  getCurrentStatus env issue w = (Ok c, w1) ->
  answerAt env toLowerCase (questions w1) = Some answer ->
  said answer "s" || said answer "skip" || said answer "skip all" = true ->
  let w' := logged [ConsoleLog (str "Skipping remaining tickets...")]
              (answeredWorld env u d issue c w1) in
  forOf (interactiveBody env toLowerCase u d) (issue :: rest) st w
  = (Ok (mkLoop false true (updatedCount st)
           (S (skippedCount st) + length rest)), w')
  /\ (st = mkLoop false false 0 0 ->
      processTicketsInteractive env toLowerCase [issue; i2; i3] u d w
      = (Ok tt, logged (summaryLines "0" "3") w')).
Proof.
  intros Hs Ha Hg Hline Hanswer w'.
  pose proof (interactiveBody_read env toLowerCase u d issue st w w1 c Hs Hg)
    as Hbody.
  cbv zeta in Hbody. rewrite Ha, Hline in Hbody.
  assert (Hno : said answer "y" || said answer "yes" = false
                /\ said answer "a" || said answer "all" = false).
  { apply orb_prop in Hanswer as [Hanswer|Hq];
      [apply orb_prop in Hanswer as [Hq|Hq]|];
      apply said_true in Hq; rewrite Hq; split; reflexivity. }
  destruct Hno as [Hy Hall]. rewrite Hy, Hall, Hanswer in Hbody.
  fold w' in Hbody.
  assert (Hloop : forall others,
            forOf (interactiveBody env toLowerCase u d) (issue :: others) st w
            = (Ok (mkLoop false true (updatedCount st)
                     (S (skippedCount st) + length others)), w')).
  { intros others. simpl. unfold bind. rewrite Hbody.
    apply (forOf_skipAll others). reflexivity. }
  split; [apply Hloop|].
  intros ->. unfold processTicketsInteractive, bind.
  rewrite Hloop. unfold log, emit. rewrite !logged_logged. reflexivity.
Qed.

Lemma shownWorld_frame (issue : JiraIssue) (c : option jsstring)
    (w1 : World) :
  currentStatusFieldId (shownWorld env u d issue c w1)
  = currentStatusFieldId w1
  /\ questions (shownWorld env u d issue c w1) = questions w1
  /\ fetchCalls (shownWorld env u d issue c w1) = fetchCalls w1.
Proof. unfold shownWorld. destruct d; repeat split. Qed.

Lemma answeredWorld_frame (issue : JiraIssue) (c : option jsstring)
    (w1 : World) :
  currentStatusFieldId (answeredWorld env u d issue c w1)
  = currentStatusFieldId w1
  /\ questions (answeredWorld env u d issue c w1) = S (questions w1)
  /\ fetchCalls (answeredWorld env u d issue c w1) = fetchCalls w1.
Proof. unfold answeredWorld, shownWorld. destruct d; repeat split. Qed.

(** An attempt where the token is there and the write is accepted. *)
Lemma updateWithSpinner_succeeds (fieldId : jsstring) (issue : JiraIssue)
    (v : jsstring) (st : LoopState) (w : World) :
  tokenAvailable env -> writesSucceed env ->
  currentStatusFieldId w = Some fieldId -> truthy fieldId = true ->
  exists w',
    updateWithSpinner env issue v st w
    = (Ok (mkLoop (applyAll st) (skipAll st) (S (updatedCount st))
             (skippedCount st)), w')
    /\ currentStatusFieldId w' = Some fieldId
    /\ questions w' = questions w
    /\ fetchCalls w' = S (fetchCalls w).
Proof.
  intros Htoken Hwrite Hc Ht.
  destruct (Htoken (tokenCalls w)) as [token Htok].
  destruct (Hwrite (fetchCalls w) (key issue) fieldId v)
    as (response & payload & Hr & Hok & Hj).
  eexists. split.
  - apply updateWithSpinner_success.
    unfold updateCurrentStatus.
    set (w0 := logged [SpinnerStart _] w).
    rewrite (bind_Ok _ _ w0
               (logged [CallUpdateCurrentStatus (key issue) v] w0) tt)
      by reflexivity.
    rewrite (bind_Ok _ _ _ _ fieldId
               (getCurrentStatusFieldId_resolved env fieldId
                  (logged [CallUpdateCurrentStatus (key issue) v] w0)
                  (conj Hc Ht))).
    unfold jiraFetch, bind, getToken, fetch. subst w0.
    cbn [tokenCalls fetchCalls logged]. rewrite Htok.
    cbn [tokenCalls fetchCalls logged]. rewrite Hr.
    cbn [settle ret]. rewrite Hok. cbn [negb]. rewrite Hj.
    reflexivity.
  - repeat split; assumption.
Qed.

(** C5. Three issues, every write accepted, the operator answers n to the
    first and a to the second: the first is skipped, the second is
    updated and sets the apply-all latch, the third is updated with no
    question asked, and the summary reads Updated: 2, Skipped: 1. *)
Theorem no_then_all_updates_two_skips_one
    (i1 i2 i3 : JiraIssue) (fieldId : jsstring) (w : World) :
  resolved fieldId w ->
  tokenAvailable env -> writesSucceed env ->
  answerAt env toLowerCase (questions w) = Some (str "n") ->
  answerAt env toLowerCase (S (questions w)) = Some (str "a") ->
  exists w1 w2 w3,
    interactiveBody env toLowerCase u d i1 (mkLoop false false 0 0) w
    = (Ok (mkLoop false false 0 1), w1)
    /\ interactiveBody env toLowerCase u d i2 (mkLoop false false 0 1) w1
       = (Ok (mkLoop true false 1 1), w2)
    /\ interactiveBody env toLowerCase u d i3 (mkLoop true false 1 1) w2
       = (Ok (mkLoop true false 2 1), w3)
    /\ (questions w1 = S (questions w)
        /\ questions w2 = S (questions w1)
        /\ questions w3 = questions w2)
    /\ (fetchCalls w1 = fetchCalls w
        /\ fetchCalls w2 = S (fetchCalls w1)
        /\ fetchCalls w3 = S (fetchCalls w2))
    /\ processTicketsInteractive env toLowerCase [i1; i2; i3] u d w
       = (Ok tt, logged (summaryLines "2" "1") w3).
Proof.
  intros [Hc Ht] Htoken Hwrite Hn Ha.
  (* the first issue: n *)
  pose proof (interactiveBody_read env toLowerCase u d i1
                (mkLoop false false 0 0) w _ _ eq_refl
                (getCurrentStatus_resolved env fieldId i1 w (conj Hc Ht)))
    as H1.
  cbv zeta in H1. cbn [applyAll questions logged] in H1.
  rewrite Hn in H1.
  change (said (str "n") "y" || said (str "n") "yes") with false in H1.
  change (said (str "n") "a" || said (str "n") "all") with false in H1.
  change (said (str "n") "s" || said (str "n") "skip"
          || said (str "n") "skip all") with false in H1.
  cbv iota in H1. cbn [applyAll skipAll updatedCount skippedCount] in H1.
  set (c1 := readField i1 fieldId) in *.
  set (r1 := logged [CallGetCurrentStatus (key i1)] w) in *.
  set (w1 := logged [ConsoleLog (str "Skipped " ++ key i1)]
               (answeredWorld env u d i1 c1 r1)) in *.
  destruct (answeredWorld_frame i1 c1 r1) as (Hc1 & Hq1 & Hf1).
  (* the second issue: a *)
  assert (R1 : resolved fieldId w1) by (split; [exact (eq_trans Hc1 Hc) | exact Ht]).
  pose proof (interactiveBody_read env toLowerCase u d i2
                (mkLoop false false 0 1) w1 _ _ eq_refl
                (getCurrentStatus_resolved env fieldId i2 w1 R1))
    as H2.
  cbv zeta in H2. cbn [applyAll] in H2.
  replace (questions (logged [CallGetCurrentStatus (key i2)] w1))
    with (S (questions w)) in H2 by (symmetry; exact Hq1).
  rewrite Ha in H2.
  change (said (str "a") "y" || said (str "a") "yes") with false in H2.
  change (said (str "a") "a" || said (str "a") "all") with true in H2.
  cbv iota in H2. cbn [skipAll updatedCount skippedCount] in H2.
  set (c2 := readField i2 fieldId) in *.
  set (r2 := logged [CallGetCurrentStatus (key i2)] w1) in *.
  destruct (answeredWorld_frame i2 c2 r2) as (Hc2 & Hq2 & Hf2).
  destruct (updateWithSpinner_succeeds fieldId i2
              (buildNewStatus (clock env (dates r2)) u c2 d)
              (mkLoop true false 0 1) (answeredWorld env u d i2 c2 r2)
              Htoken Hwrite (eq_trans Hc2 (eq_trans Hc1 Hc)) Ht)
    as (w2 & E2 & Hcw2 & Hqw2 & Hfw2).
  rewrite E2 in H2. cbn [applyAll skipAll updatedCount skippedCount] in H2.
  (* the third issue: under the latch *)
  pose proof (interactiveBody_read env toLowerCase u d i3
                (mkLoop true false 1 1) w2 _ _ eq_refl
                (getCurrentStatus_resolved env fieldId i3 w2 (conj Hcw2 Ht)))
    as H3.
  cbv zeta in H3. cbn [applyAll] in H3.
  set (c3 := readField i3 fieldId) in *.
  set (r3 := logged [CallGetCurrentStatus (key i3)] w2) in *.
  destruct (shownWorld_frame i3 c3 r3) as (Hc3 & Hq3 & Hf3).
  destruct (updateWithSpinner_succeeds fieldId i3
              (buildNewStatus (clock env (dates r3)) u c3 d)
              (mkLoop true false 1 1) (shownWorld env u d i3 c3 r3)
              Htoken Hwrite (eq_trans Hc3 Hcw2) Ht)
    as (w3 & E3 & Hcw3 & Hqw3 & Hfw3).
  rewrite E3 in H3. cbn [applyAll skipAll updatedCount skippedCount] in H3.
  exists w1, w2, w3.
  split; [exact H1|]. split; [exact H2|]. split; [exact H3|].
  split; [|split].
  - repeat split.
    + exact Hq1.
    + rewrite Hqw2, Hq2. reflexivity.
    + rewrite Hqw3, Hq3. reflexivity.
  - repeat split.
    + exact Hf1.
    + rewrite Hfw2, Hf2. reflexivity.
    + rewrite Hfw3, Hf3. reflexivity.
  - unfold processTicketsInteractive. simpl forOf. unfold bind.
    rewrite H1. cbv beta iota. rewrite H2. cbv beta iota. rewrite H3.
    unfold ret, log, emit.
    rewrite !logged_logged. reflexivity.
Qed.

End Interactive.

(** ** The dry run and the command *)

Section Command.

Variable env : Env.
Variable toLowerCase encodeURIComponent : jsstring -> jsstring.
Variables (u : jsstring) (d : bool).

Lemma dryRunBody_resolved (fieldId : jsstring) (issue : JiraIssue)
    (w : World) :
  resolved fieldId w ->
  dryRunBody env u d issue tt w
  = (Ok tt, shownWorld env u d issue (readField issue fieldId)
              (logged [CallGetCurrentStatus (key issue)] w)).
Proof.
  intros H. unfold dryRunBody.
  rewrite (bind_Ok _ _ _ _ _ (getCurrentStatus_resolved env fieldId issue w H)).
  unfold bind at 1. unfold callBuildNewStatus at 1.
  rewrite displayTicketUpdate_eq. reflexivity.
Qed.

Lemma forOf_dryRun (fieldId : jsstring) (found : list JiraIssue) (w : World) :
  resolved fieldId w ->
  exists w',
    forOf (dryRunBody env u d) found tt w = (Ok tt, w')
    /\ trace w' = trace w ++ dryRunLines env fieldId u d found (dates w)
    /\ resolved fieldId w'
    /\ questions w' = questions w /\ fetchCalls w' = fetchCalls w.
Proof.
  revert w. induction found as [|issue found IH]; intros w H.
  - exists w. simpl. rewrite app_nil_r. auto.
  - simpl forOf.
    rewrite (bind_Ok _ _ _ _ _ (dryRunBody_resolved fieldId issue w H)).
    set (w1 := shownWorld env u d issue (readField issue fieldId)
                 (logged [CallGetCurrentStatus (key issue)] w)).
    assert (H1 : resolved fieldId w1 /\ questions w1 = questions w
                 /\ fetchCalls w1 = fetchCalls w
                 /\ dates w1 = (if d then S (dates w) else dates w)
                 /\ trace w1 = trace w ++ CallGetCurrentStatus (key issue)
                      :: displayLines issue (readField issue fieldId)
                           (buildNewStatus (clock env (dates w)) u
                              (readField issue fieldId) d)).
    { subst w1. unfold shownWorld. destruct d; cbn;
        rewrite <- app_assoc; repeat split; apply H. }
    destruct H1 as (R1 & Q1 & F1 & D1 & T1).
    destruct (IH w1 R1) as (w' & E & T & R & Q & F).
    exists w'. split; [exact E|].
    split; [|repeat split; try apply R; congruence].
    rewrite T, T1, D1. simpl dryRunLines.
    rewrite <- !app_assoc. reflexivity.
Qed.

Lemma processTicketsDryRun_resolved (fieldId : jsstring)
    (found : list JiraIssue) (w : World) :
  resolved fieldId w ->
  exists w',
    processTicketsDryRun env found u d w = (Ok tt, w')
    /\ trace w'
       = trace w
         ++ [ConsoleLog (LF ++ str "[DRY RUN] No changes will be made."
                         ++ LF)]
         ++ dryRunLines env fieldId u d found (dates w)
         ++ [ConsoleLog (LF ++ rule);
             ConsoleLog (str "[DRY RUN] Would update "
                         ++ decimal (N.of_nat (length found))
                         ++ str " ticket(s)")]
    /\ questions w' = questions w /\ fetchCalls w' = fetchCalls w.
Proof.
  intros H.
  destruct (forOf_dryRun fieldId found
              (logged [ConsoleLog (LF ++ str "[DRY RUN] No changes will be made."
                                   ++ LF)] w) H)
    as (w1 & E & T & R & Q & F).
  eexists. split.
  - unfold processTicketsDryRun, log.
    unfold bind at 1. unfold emit at 1. cbv beta iota.
    rewrite (bind_Ok _ _ _ _ tt E).
    unfold bind, emit. rewrite logged_logged. reflexivity.
  - cbn [trace questions fetchCalls logged] in *. rewrite T, Q, F.
    rewrite <- !app_assoc. auto.
Qed.

(** C4. A dry run over any list of N issues makes no call of WriteField,
    whatever the issues hold; with the field identifier resolved, it
    fetches the current value of every one of the N issues, computes and
    displays its proposed value, asks nothing, and ends after the last
    one with the count of the issues it would update. *)
Theorem dry_run_previews_all_and_writes_nothing (found : list JiraIssue) :
  (forall w, exists evs,
      trace (processTicketsDryRun env found u d w).2 = trace w ++ evs
      /\ weight writes evs = 0%nat)
  /\ (forall fieldId w, resolved fieldId w ->
      exists w',
        processTicketsDryRun env found u d w = (Ok tt, w')
        /\ trace w'
           = trace w
             ++ [ConsoleLog (LF ++ str "[DRY RUN] No changes will be made."
                             ++ LF)]
             ++ dryRunLines env fieldId u d found (dates w)
             ++ [ConsoleLog (LF ++ rule);
                 ConsoleLog (str "[DRY RUN] Would update "
                             ++ decimal (N.of_nat (length found))
                             ++ str " ticket(s)")]
        /\ questions w' = questions w /\ fetchCalls w' = fetchCalls w).
Proof.
  split.
  - intros w.
    destruct (processTicketsDryRun_emits env writes 0 0
                ltac:(reflexivity) ltac:(reflexivity) ltac:(reflexivity)
                ltac:(intros; simpl; lia) ltac:(intros; simpl; lia)
                found u d w) as (evs & T & W & _).
    exists evs. split; [exact T | lia].
  - intros fieldId w H. apply processTicketsDryRun_resolved, H.
Qed.

(** Once the identifier is resolved, every step of the interactive loop
    returns, whatever the operator answers and the server does, or is
    left pending at a question that no line answers. *)
Lemma interactiveBody_total (fieldId : jsstring) (issue : JiraIssue)
    (st : LoopState) (w : World) :
  resolved fieldId w ->
  (exists st' w', interactiveBody env toLowerCase u d issue st w = (Ok st', w')
     /\ resolved fieldId w')
  \/ (exists w', interactiveBody env toLowerCase u d issue st w = (Pending, w')
      /\ exists n, stdin env n = None).
Proof.
  intros H. destruct (skipAll st) eqn:Hs.
  { unfold interactiveBody. rewrite Hs. unfold ret. eauto. }
  rewrite (interactiveBody_read env toLowerCase u d issue st w _ _ Hs
             (getCurrentStatus_resolved env fieldId issue w H)).
  cbv zeta. unfold answerAt.
  set (c := readField issue fieldId).
  set (r := logged [CallGetCurrentStatus (key issue)] w).
  assert (Rs : resolved fieldId (shownWorld env u d issue c r)).
  { destruct (shownWorld_frame env u d issue c r) as (E & _).
    destruct H as [H1 H2]. split; [rewrite E|]; assumption. }
  assert (Ra : resolved fieldId (answeredWorld env u d issue c r)).
  { destruct (answeredWorld_frame env u d issue c r) as (E & _).
    destruct H as [H1 H2]. split; [rewrite E|]; assumption. }
  destruct (applyAll st).
  { left. apply updateWithSpinner_total. assumption. }
  destruct (stdin env (questions r)) as [line|] eqn:El; [|right; eauto].
  left.
  repeat match goal with
         | |- context [if ?b then _ else _] => destruct b
         end;
    try (apply updateWithSpinner_total; assumption); eauto.
Qed.

Lemma forOf_interactive_total (fieldId : jsstring) (found : list JiraIssue)
    (st : LoopState) (w : World) :
  resolved fieldId w ->
  (exists st' w',
     forOf (interactiveBody env toLowerCase u d) found st w = (Ok st', w'))
  \/ (exists w',
        forOf (interactiveBody env toLowerCase u d) found st w = (Pending, w')
        /\ exists n, stdin env n = None).
Proof.
  revert st w. induction found as [|issue found IH]; intros st w H.
  - simpl. unfold ret. eauto.
  - simpl.
    destruct (interactiveBody_total fieldId issue st w H)
      as [(st1 & w1 & E & R)|(w1 & E & N)].
    + rewrite (bind_Ok _ _ _ _ _ E). apply IH, R.
    + unfold bind. rewrite E. eauto.
Qed.

Lemma processTicketsInteractive_total (fieldId : jsstring)
    (found : list JiraIssue) (w : World) :
  resolved fieldId w ->
  (exists w',
     processTicketsInteractive env toLowerCase found u d w = (Ok tt, w'))
  \/ (exists w',
        processTicketsInteractive env toLowerCase found u d w = (Pending, w')
        /\ exists n, stdin env n = None).
Proof.
  intros H. unfold processTicketsInteractive.
  destruct (forOf_interactive_total fieldId found (mkLoop false false 0 0) w H)
    as [(st & w1 & E)|(w1 & E & N)].
  - left. rewrite (bind_Ok _ _ _ _ _ E). unfold bind, log, emit. eauto.
  - right. unfold bind at 1. rewrite E. eauto.
Qed.

(** A lookup that returns has cached what it returns; a search that
    returns leaves an identifier in the cache. *)
Lemma getCurrentStatusFieldId_caches (fieldId : jsstring) (w w' : World) :
  getCurrentStatusFieldId env w = (Ok fieldId, w') ->
  currentStatusFieldId w' = Some fieldId.
Proof.
  assert (L : lookupCurrentStatusField env w = (Ok fieldId, w') ->
              currentStatusFieldId w' = Some fieldId).
  { unfold lookupCurrentStatusField. unfold bind at 1.
    destruct (jiraFetch env GET_field w) as [[payload|e|code|] w1];
      try discriminate.
    unfold bind at 1.
    destruct payload as [fs| |]; cbn [asFields]; try discriminate.
    unfold ret at 1. destruct (List.find _ fs) as [field|]; [|discriminate].
    unfold bind, setCache, ret. intros [= <- <-]. reflexivity. }
  unfold getCurrentStatusFieldId, bind, getCache.
  destruct (currentStatusFieldId w) as [cached|] eqn:E; [|exact L].
  destruct (truthy cached); [|exact L].
  unfold ret. intros [= <- <-]. exact E.
Qed.

Lemma searchIssues_caches (q : jsstring) (found : list JiraIssue)
    (w w' : World) :
  searchIssues env encodeURIComponent q w = (Ok found, w') ->
  exists fieldId, currentStatusFieldId w' = Some fieldId.
Proof.
  unfold searchIssues. unfold bind at 1. unfold emit at 1.
  unfold bind at 1.
  destruct (getCurrentStatusFieldId env (logged [CallSearchIssues q] w))
    as [[fieldId|e|code|] w1] eqn:E; try discriminate.
  apply getCurrentStatusFieldId_caches in E.
  cbv zeta. unfold bind at 1.
  destruct (jiraFetch_frame env
              (GET_search (encodeURIComponent q)
                 (str "summary,status," ++ fieldId) 100) w1)
    as (r & w2 & E2 & Hc & _).
  rewrite E2. destruct r as [payload|e|code|]; try discriminate.
  destruct payload as [|r|]; cbn [asSearch]; try discriminate.
  unfold bind, ret. intros [= _ <-]. exists fieldId. congruence.
Qed.

(** The command once the token is there: the search, then what its
    outcome decides. *)
Lemma handleUpdate_search_fails (options : UpdateOptions)
    (w wa w1 : World) (e : Thrown) :
  isAuthenticated env w = (Ok true, wa) ->
  searchIssues env encodeURIComponent (jql options)
    (logged [SpinnerStart (str "Searching for tickets...")] wa)
  = (Throw e, w1) ->
  handleUpdate env toLowerCase encodeURIComponent u options w
  = (Exit 1, logged [SpinnerFail (str "Failed to search for tickets");
                     ConsoleError (messageOr (str "Unknown error") e)] w1).
Proof.
  intros Ha Hs. unfold handleUpdate.
  rewrite (bind_Ok _ _ _ _ _ Ha). cbn [negb].
  unfold bind at 1. unfold ret at 1. unfold bind at 1. unfold emit at 1.
  unfold tryCatch. rewrite (bind_Throw _ _ _ _ _ Hs).
  unfold bind, emit, exit. rewrite logged_logged. reflexivity.
Qed.

Lemma handleUpdate_search_returns (options : UpdateOptions)
    (w wa w1 : World) (found : list JiraIssue) :
  isAuthenticated env w = (Ok true, wa) ->
  searchIssues env encodeURIComponent (jql options)
    (logged [SpinnerStart (str "Searching for tickets...")] wa)
  = (Ok found, w1) ->
  let w2 := logged [SpinnerSucceed (str "Found "
                                    ++ decimal (N.of_nat (length found))
                                    ++ str " ticket(s)")] w1 in
  handleUpdate env toLowerCase encodeURIComponent u options w
  = tryCatch
      (if Nat.eqb (length found) 0 then
         log (str "No tickets found matching the query.") ;;
         log (str "JQL: " ++ jql options)
       else
         log (str "JQL: " ++ jql options) ;;
         if dryRun options then
           processTicketsDryRun env found u (datePrefix options)
         else
           processTicketsInteractive env toLowerCase found u
             (datePrefix options))
      (fun error =>
         emit (SpinnerFail (str "Failed to search for tickets")) ;;
         emit (ConsoleError (messageOr (str "Unknown error") error)) ;;
         exit 1)
      w2.
Proof.
  intros Ha Hs w2. unfold handleUpdate.
  rewrite (bind_Ok _ _ _ _ _ Ha). cbn [negb].
  unfold bind at 1. unfold ret at 1. unfold bind at 1. unfold emit at 1.
  unfold tryCatch. rewrite (bind_Ok _ _ _ _ _ Hs).
  unfold bind at 1. unfold emit at 1. reflexivity.
Qed.

End Command.

Section Handle.

Variable env : Env.
Variable toLowerCase encodeURIComponent : jsstring -> jsstring.
Variable u : jsstring.

(** From the start of the command to the end of the search: only the
    token, the spinner, the field lookup and the search itself. *)
Lemma search_phase (q : jsstring) (w wa w1 : World) (b : bool)
    (r : Outcome (list JiraIssue)) :
  isAuthenticated env w = (Ok b, wa) ->
  searchIssues env encodeURIComponent q
    (logged [SpinnerStart (str "Searching for tickets...")] wa) = (r, w1) ->
  exists evs, trace w1 = trace w ++ evs
    /\ forall mu : Event -> nat,
         mu ExecToken = 0%nat ->
         (forall t, mu (Fetch t GET_field) = 0%nat) ->
         (forall q', mu (CallSearchIssues q') = 0%nat) ->
         (forall t q' f, mu (Fetch t (GET_search q' f 100)) = 0%nat) ->
         (forall line, mu (SpinnerStart line) = 0%nat) ->
         weight mu evs = 0%nat.
Proof.
  intros Ha Hs.
  set (zero := fun _ : Event => 0%nat).
  destruct (isAuthenticated_emits env zero eq_refl 0 w) as (ea & Ta & _).
  destruct (searchIssues_emits env encodeURIComponent zero 0 eq_refl
              ltac:(reflexivity) ltac:(reflexivity) ltac:(reflexivity) q
              (logged [SpinnerStart (str "Searching for tickets...")] wa))
    as (es & Ts & _).
  rewrite Ha in Ta. rewrite Hs in Ts. cbn [snd trace logged] in Ta, Ts.
  exists (ea ++ SpinnerStart (str "Searching for tickets...") :: es).
  split.
  { rewrite Ts, Ta, <- !app_assoc. reflexivity. }
  intros mu Mt Mf Mc Ms Mp.
  pose proof (emits_run mu 0 _ _ w wa _ ea
                (isAuthenticated_emits env mu Mt 0) Ha Ta) as Wa.
  assert (Ms' : forall t q' f,
             (mu (Fetch t (GET_search q' f 100)) <= 0)%nat)
    by (intros; rewrite Ms; lia).
  pose proof (emits_run mu 0 _ _ _ w1 _ es
                (searchIssues_emits env encodeURIComponent mu 0 Mt Mf Mc Ms' q)
                Hs Ts) as Ws.
  rewrite weight_app. unfold weight in *. simpl. rewrite Mp. lia.
Qed.

(** C7. A failure of the initial query is fatal: the command ends with
    status 1 straight after the query, with no fetch, display, question or
    write for any issue. When the query succeeds, with an identifier that
    is not empty, the command ends with status 0 whatever updates fail,
    and whether or not every question is answered. *)
Theorem query_failure_is_fatal_update_failures_are_not
    (options : UpdateOptions) (w wa : World) :
  isAuthenticated env w = (Ok true, wa) ->
  let ws := logged [SpinnerStart (str "Searching for tickets...")] wa in
  let run := handleUpdate env toLowerCase encodeURIComponent u options w in
  (forall e w1,
      searchIssues env encodeURIComponent (jql options) ws = (Throw e, w1) ->
      run = (Exit 1,
             logged [SpinnerFail (str "Failed to search for tickets");
                     ConsoleError (messageOr (str "Unknown error") e)] w1)
      /\ exitStatus run.1 = 1%Z
      /\ exists evs, trace run.2 = trace w ++ evs
           /\ forall kind, weight (perIssue kind) evs = 0%nat)
  /\ (forall found w1,
      searchIssues env encodeURIComponent (jql options) ws = (Ok found, w1) ->
      currentStatusFieldId w1 <> Some [] ->
      exitStatus run.1 = 0%Z).
Proof.
  intros Ha ws run. split.
  - intros e w1 Hs.
    assert (E : run = (Exit 1,
                  logged [SpinnerFail (str "Failed to search for tickets");
                          ConsoleError (messageOr (str "Unknown error") e)] w1))
      by (apply handleUpdate_search_fails with (wa := wa); assumption).
    rewrite E. repeat split.
    destruct (search_phase _ _ _ _ _ _ Ha Hs) as (evs & T & Hq).
    exists (evs ++ [SpinnerFail (str "Failed to search for tickets");
                    ConsoleError (messageOr (str "Unknown error") e)]).
    cbn [snd trace logged]. rewrite T, <- app_assoc. split; [reflexivity|].
    intros kind. rewrite weight_app.
    rewrite (Hq (perIssue kind)) by (intros; destruct kind; reflexivity).
    destruct kind; reflexivity.
  - intros found w1 Hs Hne.
    destruct (searchIssues_caches _ _ _ _ _ _ Hs) as [fieldId Hc].
    assert (R : resolved fieldId w1).
    { split; [exact Hc|]. destruct fieldId; [congruence | reflexivity]. }
    subst run.
    rewrite (handleUpdate_search_returns env toLowerCase encodeURIComponent
               u options w wa w1 found Ha Hs).
    cbv zeta. unfold tryCatch.
    destruct (Nat.eqb (length found) 0); [reflexivity|].
    unfold bind at 1. unfold log at 1, emit at 1.
    destruct (dryRun options).
    + match goal with
      | |- context [processTicketsDryRun _ _ _ _ ?w2] =>
          destruct (processTicketsDryRun_resolved env u (datePrefix options)
                      fieldId found w2 R) as (w' & E & _)
      end.
      rewrite E. reflexivity.
    + match goal with
      | |- context [processTicketsInteractive _ _ _ _ _ ?w2] =>
          destruct (processTicketsInteractive_total env toLowerCase u
                      (datePrefix options) fieldId found w2 R)
            as [(w' & E)|(w' & E & _)]
      end; rewrite E; reflexivity.
Qed.

(** C10. When the query succeeds and returns no issue, the command
    prints the notice and the query and ends with status 0; neither run
    mode is entered: no field is fetched, nothing is displayed or asked,
    nothing is written, and no summary is printed. *)
Theorem no_tickets_found_ends_quietly
    (options : UpdateOptions) (w wa w1 : World) :
  isAuthenticated env w = (Ok true, wa) ->
  searchIssues env encodeURIComponent (jql options)
    (logged [SpinnerStart (str "Searching for tickets...")] wa)
  = (Ok [], w1) ->
  let run := handleUpdate env toLowerCase encodeURIComponent u options w in
  let notice :=
    [SpinnerSucceed (str "Found 0 ticket(s)");
     ConsoleLog (str "No tickets found matching the query.");
     ConsoleLog (str "JQL: " ++ jql options)] in
  run = (Ok tt, logged notice w1)
  /\ exitStatus run.1 = 0%Z
  /\ exists evs, trace run.2 = trace w ++ evs
       /\ (forall kind, weight (perIssue kind) evs = 0%nat)
       /\ weight writes evs = 0%nat
       /\ weight summaryHeading evs = 0%nat.
Proof.
  intros Ha Hs run notice.
  assert (E : run = (Ok tt, logged notice w1)).
  { subst run.
    rewrite (handleUpdate_search_returns env toLowerCase encodeURIComponent
               u options w wa w1 [] Ha Hs).
    cbv zeta. unfold tryCatch, bind, log, emit. cbn [length Nat.eqb].
    rewrite !logged_logged. reflexivity. }
  rewrite E. repeat split.
  destruct (search_phase _ _ _ _ _ _ Ha Hs) as (evs & T & Hq).
  exists (evs ++ notice). cbn [snd trace logged]. rewrite T, <- app_assoc.
  split; [reflexivity|].
  assert (J : summaryHeading (ConsoleLog (str "JQL: " ++ jql options)) = 0%nat).
  { unfold summaryHeading. rewrite bool_decide_eq_false_2; [reflexivity|].
    intros H. vm_compute in H. discriminate H. }
  repeat split; [intros kind|..]; rewrite weight_app.
  - rewrite (Hq (perIssue kind)) by (intros; destruct kind; reflexivity).
    destruct kind; reflexivity.
  - rewrite (Hq writes) by reflexivity. reflexivity.
  - rewrite (Hq summaryHeading) by reflexivity.
    unfold notice, weight. cbn [sum_list_with]. rewrite J. reflexivity.
Qed.

(** C9. The search asks for 100 results and is sent at most once; under a
    server that returns no more issues than asked for, a run fetches the
    field of at most 100 issues, displays at most 100, asks at most 100
    questions and makes at most 100 updates, the apply-all latch set or
    not. *)
Theorem run_touches_at_most_100_issues (options : UpdateOptions) (w : World) :
  exists evs,
    trace (handleUpdate env toLowerCase encodeURIComponent u options w).2
    = trace w ++ evs
    /\ weight searchNot100 evs = 0%nat
    /\ (weight searches evs <= 1)%nat
    /\ (honoursMaxResults env ->
        forall kind, (weight (perIssue kind) evs <= 100)%nat).
Proof.
  destruct (handleUpdate env toLowerCase encodeURIComponent u options w)
    as [r w'] eqn:E.
  assert (S1 : Emits searches (1 + 0) (fun _ => True)
                 (handleUpdate env toLowerCase encodeURIComponent u options)).
  { apply (handleUpdate_emits env toLowerCase encodeURIComponent
             searches 0 0 0 0 0 1); try reflexivity; intros; simpl; lia. }
  destruct (S1 w) as (evs & T & W & _). rewrite E in T. simpl in T.
  exists evs. split; [exact T|]. split; [|split].
  - assert (S0 : Emits searchNot100 (0 + 0) (fun _ => True)
                   (handleUpdate env toLowerCase encodeURIComponent u options)).
    { apply (handleUpdate_emits env toLowerCase encodeURIComponent
               searchNot100 0 0 0 0 0 0); try reflexivity;
        intros; simpl; lia. }
    pose proof (emits_run _ _ _ _ _ _ _ _ S0 E T). lia.
  - simpl in W. lia.
  - intros Hlimit kind.
    assert (Hmax : forall n q f response sr,
               remote env n (GET_search q f 100) = Fulfilled response ->
               json response = Fulfilled (PSearch sr) ->
               (length (issues sr) <= 100)%nat).
    { intros n q f response sr H1 H2.
      apply (Hlimit n q f 100 response sr H1 H2). }
    assert (SK : Emits (perIssue kind) (0 + 100) (fun _ => True)
                   (handleUpdate env toLowerCase encodeURIComponent u options)).
    { destruct kind.
      + apply (handleUpdate_emits env toLowerCase encodeURIComponent
                 (perIssue Fetched) 1 0 0 0 0 0); try reflexivity;
          intros; simpl; try lia.
        match goal with
        | H1 : remote _ _ _ = _, H2 : json _ = _ |- _ =>
            pose proof (Hmax _ _ _ _ _ H1 H2)
        end. lia.
      + apply (handleUpdate_emits env toLowerCase encodeURIComponent
                 (perIssue Displayed) 0 1 0 0 0 0); try reflexivity;
          intros; simpl; try lia.
        match goal with
        | H1 : remote _ _ _ = _, H2 : json _ = _ |- _ =>
            pose proof (Hmax _ _ _ _ _ H1 H2)
        end. lia.
      + apply (handleUpdate_emits env toLowerCase encodeURIComponent
                 (perIssue Prompted) 0 0 1 0 0 0); try reflexivity;
          intros; simpl; try lia.
        match goal with
        | H1 : remote _ _ _ = _, H2 : json _ = _ |- _ =>
            pose proof (Hmax _ _ _ _ _ H1 H2)
        end. lia.
      + apply (handleUpdate_emits env toLowerCase encodeURIComponent
                 (perIssue Mutated) 0 0 0 1 0 0); try reflexivity;
          intros; simpl; try lia.
        match goal with
        | H1 : remote _ _ _ = _, H2 : json _ = _ |- _ =>
            pose proof (Hmax _ _ _ _ _ H1 H2)
        end. lia. }
    exact (emits_run _ _ _ _ _ _ _ _ SK E T).
Qed.

End Handle.

(** ** The cache of the field identifier *)

Section Reuse.

Variable env : Env.
Variable toLowerCase encodeURIComponent : jsstring -> jsstring.
Variable fieldId : jsstring.

Lemma reuses_ret {A} (Q : A -> Prop) (a : A) :
  Q a -> Reuses fieldId Q (ret a).
Proof.
  intros Ha w R. exists []. simpl. rewrite app_nil_r.
  split; [reflexivity|]. split; [constructor|]. split; [exact R|].
  intros a' [= <-]. exact Ha.
Qed.

Lemma reuses_throw {A} (Q : A -> Prop) (e : Thrown) :
  Reuses fieldId Q (throw e).
Proof.
  intros w R. exists []. simpl. rewrite app_nil_r.
  split; [reflexivity|]. split; [constructor|]. split; [exact R|].
  discriminate.
Qed.

Lemma reuses_exit {A} (Q : A -> Prop) (code : Z) :
  Reuses fieldId Q (exit code).
Proof.
  intros w R. exists []. simpl. rewrite app_nil_r.
  split; [reflexivity|]. split; [constructor|]. split; [exact R|].
  discriminate.
Qed.

Lemma reuses_emit (e : Event) :
  usesField fieldId e -> Reuses fieldId any (emit e).
Proof.
  intros He w R. exists [e]. simpl.
  split; [reflexivity|]. split; [repeat constructor; exact He|].
  split; [exact R | auto].
Qed.

Lemma reuses_log (line : jsstring) : Reuses fieldId any (log line).
Proof. apply reuses_emit. exact I. Qed.

Lemma reuses_weaken {A} (Q Q' : A -> Prop) (m : M A) :
  (forall a, Q a -> Q' a) -> Reuses fieldId Q m -> Reuses fieldId Q' m.
Proof.
  intros HQ Hm w R. destruct (Hm w R) as (evs & T & F & R' & H).
  exists evs. split; [exact T|]. split; [exact F|]. split; [exact R'|].
  intros a Ha. apply HQ, H, Ha.
Qed.

Lemma reuses_bind {A B} (Q1 : A -> Prop) (Q2 : B -> Prop) (m : M A)
    (f : A -> M B) :
  Reuses fieldId Q1 m ->
  (forall a, Q1 a -> Reuses fieldId Q2 (f a)) ->
  Reuses fieldId Q2 (bind m f).
Proof.
  intros Hm Hf w R. destruct (Hm w R) as (e1 & T1 & F1 & R1 & H1).
  unfold bind. destruct (m w) as [[a|e|c|] w1]; simpl in *.
  - destruct (Hf a (H1 a eq_refl) w1 R1) as (e2 & T2 & F2 & R2 & H2).
    exists (e1 ++ e2). rewrite T2, T1, app_assoc.
    split; [reflexivity|]. split; [apply Forall_app; auto|].
    split; [exact R2 | exact H2].
  - exists e1. split; [exact T1|]. split; [exact F1|].
    split; [exact R1 | discriminate].
  - exists e1. split; [exact T1|]. split; [exact F1|].
    split; [exact R1 | discriminate].
  - exists e1. split; [exact T1|]. split; [exact F1|].
    split; [exact R1 | discriminate].
Qed.

Lemma reuses_then {A B} (Q : B -> Prop) (m : M A) (k : M B) :
  Reuses fieldId any m -> Reuses fieldId Q k ->
  Reuses fieldId Q (bind m (fun _ => k)).
Proof.
  intros Hm Hk. apply (reuses_bind any); [exact Hm | intros _ _; exact Hk].
Qed.

Lemma reuses_tryCatch {A} (Q : A -> Prop) (m : M A)
    (handler : Thrown -> M A) :
  Reuses fieldId Q m ->
  (forall e, Reuses fieldId Q (handler e)) ->
  Reuses fieldId Q (tryCatch m handler).
Proof.
  intros Hm Hh w R. destruct (Hm w R) as (e1 & T1 & F1 & R1 & H1).
  unfold tryCatch. destruct (m w) as [[a|e|c|] w1]; simpl in *.
  - exists e1. split; [exact T1|]. split; [exact F1|].
    split; [exact R1 | exact H1].
  - destruct (Hh e w1 R1) as (e2 & T2 & F2 & R2 & H2).
    exists (e1 ++ e2). rewrite T2, T1, app_assoc.
    split; [reflexivity|]. split; [apply Forall_app; auto|].
    split; [exact R2 | exact H2].
  - exists e1. split; [exact T1|]. split; [exact F1|].
    split; [exact R1 | discriminate].
  - exists e1. split; [exact T1|]. split; [exact F1|].
    split; [exact R1 | discriminate].
Qed.

Lemma reuses_forOf {A S} (body : A -> S -> M S) (xs : list A) (s : S) :
  (forall x s', Reuses fieldId any (body x s')) ->
  Reuses fieldId any (forOf body xs s).
Proof.
  intros Hb. revert s. induction xs as [|x xs IH]; intros s; simpl.
  - apply reuses_ret. exact I.
  - apply (reuses_bind any); [apply Hb | intros s' _; apply IH].
Qed.

(** What weighs nothing as a lookup. *)
Lemma usesField_no_lookup (evs : list Event) :
  Forall (usesField fieldId) evs -> weight fieldLookups evs = 0%nat.
Proof.
  induction 1 as [|e evs He _ IH]; [reflexivity|].
  unfold weight in *. simpl. rewrite IH.
  destruct e as [| | | | | | |t [| |]| | | |]; simpl in *;
    try reflexivity; destruct He.
Qed.

Lemma getToken_reuses : Reuses fieldId any (getToken env).
Proof.
  intros w R. exists [ExecToken]. unfold getToken.
  destruct (accessToken env (tokenCalls w)); simpl;
    (split; [reflexivity|]); (split; [repeat constructor|]);
    (split; [exact R | auto]).
Qed.

(** A request that is no lookup and goes under [fieldId]. *)
Lemma jiraFetch_reuses (req : Request) :
  (forall t, usesField fieldId (Fetch t req)) ->
  Reuses fieldId any (jiraFetch env req).
Proof.
  intros Hreq. unfold jiraFetch.
  apply (reuses_bind any); [apply getToken_reuses|]. intros token _.
  apply (reuses_bind any).
  - intros w R. exists [Fetch token req]. unfold fetch.
    destruct (remote env (fetchCalls w) req); simpl;
      (split; [reflexivity|]);
      (split; [repeat constructor; apply Hreq|]);
      (split; [exact R | auto]).
  - intros response _.
    destruct (negb (ok response)); [apply reuses_throw|].
    destruct (json response); simpl;
      [apply reuses_ret; exact I | apply reuses_throw].
Qed.

(** The identifier, once resolved, is returned from the cache. *)
Lemma getCurrentStatusFieldId_reuses :
  Reuses fieldId (fun cached => cached = fieldId)
    (getCurrentStatusFieldId env).
Proof.
  intros w R. exists [].
  rewrite (getCurrentStatusFieldId_resolved env fieldId w R). simpl.
  rewrite app_nil_r.
  split; [reflexivity|]. split; [constructor|]. split; [exact R|].
  intros a [= <-]. reflexivity.
Qed.

(** [searchIssues] after the identifier is read. *)
Lemma search_request_reuses (q : jsstring) :
  Reuses fieldId any
    (let* payload :=
       jiraFetch env (GET_search (encodeURIComponent q)
                        (str "summary,status," ++ fieldId) 100) in
     let* response := asSearch payload in
     ret (issues response)).
Proof.
  apply (reuses_bind any);
    [apply jiraFetch_reuses; intros t; reflexivity|].
  intros payload _.
  apply (reuses_bind any); [|intros; apply reuses_ret; exact I].
  destruct payload; cbn [asSearch];
    [apply reuses_throw | apply reuses_ret; exact I | apply reuses_throw].
Qed.

Lemma searchIssues_reuses (q : jsstring) :
  Reuses fieldId any (searchIssues env encodeURIComponent q).
Proof.
  unfold searchIssues.
  apply reuses_then; [apply reuses_emit; exact I|].
  apply (reuses_bind (fun cached => cached = fieldId));
    [apply getCurrentStatusFieldId_reuses|].
  intros cached ->. cbv zeta. apply search_request_reuses.
Qed.

Lemma getCurrentStatus_reuses (issue : JiraIssue) :
  Reuses fieldId (fun current => current = readField issue fieldId)
    (getCurrentStatus env issue).
Proof.
  intros w R. exists [CallGetCurrentStatus (key issue)].
  rewrite (getCurrentStatus_resolved env fieldId issue w R). simpl.
  split; [reflexivity|]. split; [repeat constructor|]. split; [exact R|].
  intros a [= <-]. reflexivity.
Qed.

Lemma updateCurrentStatus_reuses (issueKey v : jsstring) :
  Reuses fieldId any (updateCurrentStatus env issueKey v).
Proof.
  unfold updateCurrentStatus.
  apply reuses_then; [apply reuses_emit; exact I|].
  apply (reuses_bind (fun cached => cached = fieldId));
    [apply getCurrentStatusFieldId_reuses|].
  intros cached ->.
  apply (reuses_bind any);
    [apply jiraFetch_reuses; intros t; reflexivity|].
  intros; apply reuses_ret; exact I.
Qed.

Lemma callBuildNewStatus_reuses (u : jsstring) (c : option jsstring)
    (d : bool) :
  Reuses fieldId any (callBuildNewStatus env u c d).
Proof.
  intros w R. exists []. unfold callBuildNewStatus. simpl.
  rewrite app_nil_r. destruct d;
    (split; [reflexivity|]); (split; [constructor|]);
    (split; [exact R | auto]).
Qed.

Lemma prompt_reuses (question : jsstring) :
  Reuses fieldId any (prompt env toLowerCase question).
Proof.
  intros w R. exists [Question question]. unfold prompt.
  destruct (stdin env (questions w)); simpl;
    (split; [reflexivity|]); (split; [repeat constructor|]);
    (split; [exact R | auto]).
Qed.

Lemma displayTicketUpdate_reuses (issue : JiraIssue) (c : option jsstring)
    (v : jsstring) :
  Reuses fieldId any (displayTicketUpdate issue c v).
Proof.
  intros w R. exists (displayLines issue c v).
  rewrite displayTicketUpdate_eq. simpl.
  split; [reflexivity|]. split; [repeat constructor|].
  split; [exact R | auto].
Qed.

Lemma updateWithSpinner_reuses (issue : JiraIssue) (v : jsstring)
    (st : LoopState) :
  Reuses fieldId any (updateWithSpinner env issue v st).
Proof.
  unfold updateWithSpinner.
  apply reuses_then; [apply reuses_emit; exact I|].
  apply reuses_tryCatch.
  - apply reuses_then; [apply updateCurrentStatus_reuses|].
    apply reuses_then; [apply reuses_emit; exact I|].
    apply reuses_ret. exact I.
  - intros e. apply reuses_then; [apply reuses_emit; exact I|].
    apply reuses_ret. exact I.
Qed.

Lemma interactiveBody_reuses (u : jsstring) (d : bool) (issue : JiraIssue)
    (st : LoopState) :
  Reuses fieldId any (interactiveBody env toLowerCase u d issue st).
Proof.
  unfold interactiveBody. destruct (skipAll st); [apply reuses_ret; exact I|].
  eapply reuses_bind; [apply getCurrentStatus_reuses|]. intros c _.
  apply (reuses_bind any); [apply callBuildNewStatus_reuses|]. intros v _.
  apply reuses_then; [apply displayTicketUpdate_reuses|].
  destruct (applyAll st); [apply updateWithSpinner_reuses|].
  apply reuses_then; [apply reuses_log|].
  apply (reuses_bind any); [apply prompt_reuses|]. intros answer _.
  repeat match goal with
         | |- Reuses _ _ (if ?b then _ else _) => destruct b
         end;
    try apply updateWithSpinner_reuses;
    (apply reuses_then; [apply reuses_log | apply reuses_ret; exact I]).
Qed.

Lemma processTicketsInteractive_reuses (found : list JiraIssue)
    (u : jsstring) (d : bool) :
  Reuses fieldId any (processTicketsInteractive env toLowerCase found u d).
Proof.
  unfold processTicketsInteractive.
  apply (reuses_bind any);
    [apply reuses_forOf; intros; apply interactiveBody_reuses|].
  intros st _. repeat (apply reuses_then; [apply reuses_log|]).
  apply reuses_log.
Qed.

Lemma processTicketsDryRun_reuses (found : list JiraIssue)
    (u : jsstring) (d : bool) :
  Reuses fieldId any (processTicketsDryRun env found u d).
Proof.
  unfold processTicketsDryRun.
  apply reuses_then; [apply reuses_log|].
  apply reuses_then.
  - apply reuses_forOf. intros issue s. unfold dryRunBody.
    eapply reuses_bind; [apply getCurrentStatus_reuses|]. intros c _.
    apply (reuses_bind any); [apply callBuildNewStatus_reuses|].
    intros v _. apply displayTicketUpdate_reuses.
  - apply reuses_then; apply reuses_log.
Qed.

(** The command after the search, and its handler. *)
Lemma after_search_reuses (u : jsstring) (options : UpdateOptions)
    (found : list JiraIssue) :
  Reuses fieldId any
    (tryCatch
       (emit (SpinnerSucceed (str "Found "
                              ++ decimal (N.of_nat (length found))
                              ++ str " ticket(s)")) ;;
        if Nat.eqb (length found) 0 then
          log (str "No tickets found matching the query.") ;;
          log (str "JQL: " ++ jql options)
        else
          log (str "JQL: " ++ jql options) ;;
          if dryRun options then
            processTicketsDryRun env found u (datePrefix options)
          else
            processTicketsInteractive env toLowerCase found u
              (datePrefix options))
       (fun error =>
          emit (SpinnerFail (str "Failed to search for tickets")) ;;
          emit (ConsoleError (messageOr (str "Unknown error") error)) ;;
          exit 1)).
Proof.
  apply reuses_tryCatch.
  - apply reuses_then; [apply reuses_emit; exact I|].
    destruct (Nat.eqb _ 0).
    + apply reuses_then; apply reuses_log.
    + apply reuses_then; [apply reuses_log|].
      destruct (dryRun options);
        [apply processTicketsDryRun_reuses
        | apply processTicketsInteractive_reuses].
  - intros e.
    apply reuses_then; [apply reuses_emit; exact I|].
    apply reuses_then; [apply reuses_emit; exact I|].
    apply reuses_exit.
Qed.

End Reuse.

Section Once.

Variable env : Env.
Variable toLowerCase encodeURIComponent : jsstring -> jsstring.
Hypothesis identifiers : identifiersNotEmpty env.

Lemma truthy_not_empty (s : jsstring) : s <> [] -> truthy s = true.
Proof. destruct s; [congruence | reflexivity]. Qed.

(** The first resolution: at most one lookup, and what it returns is
    resolved. *)
Lemma getCurrentStatusFieldId_once (w : World) :
  currentStatusFieldId w <> Some [] ->
  exists evs,
    trace (getCurrentStatusFieldId env w).2 = trace w ++ evs
    /\ (weight fieldLookups evs <= 1)%nat
    /\ forall fieldId,
         (getCurrentStatusFieldId env w).1 = Ok fieldId ->
         resolved fieldId (getCurrentStatusFieldId env w).2.
Proof.
  intros Hc. unfold getCurrentStatusFieldId, bind, getCache.
  destruct (currentStatusFieldId w) as [cached|] eqn:Ec.
  { rewrite truthy_not_empty by congruence.
    exists []. simpl. rewrite app_nil_r.
    split; [reflexivity|]. split; [unfold weight; simpl; lia|].
    intros fieldId [= <-]. split; [exact Ec|].
    apply truthy_not_empty. congruence. }
  unfold lookupCurrentStatusField, jiraFetch, bind, getToken, fetch.
  destruct (accessToken env (tokenCalls w)) as [token|].
  2:{ exists [ExecToken]. simpl.
      split; [reflexivity|]. split; [unfold weight; simpl; lia|].
      discriminate. }
  cbn [fetchCalls].
  destruct (remote env (fetchCalls w) GET_field) as [response|e] eqn:Er;
    cbn [settle ret throw].
  2:{ exists [ExecToken; Fetch (trim token) GET_field]. simpl.
      rewrite <- app_assoc.
      split; [reflexivity|]. split; [unfold weight; simpl; lia|].
      discriminate. }
  destruct (ok response); cbn [negb].
  2:{ exists [ExecToken; Fetch (trim token) GET_field]. simpl.
      rewrite <- app_assoc.
      split; [reflexivity|]. split; [unfold weight; simpl; lia|].
      discriminate. }
  destruct (json response) as [payload|e] eqn:Ej; cbn [settle ret throw].
  2:{ exists [ExecToken; Fetch (trim token) GET_field]. simpl.
      rewrite <- app_assoc.
      split; [reflexivity|]. split; [unfold weight; simpl; lia|].
      discriminate. }
  destruct payload as [fs| |]; cbn [asFields ret throw].
  2,3: exists [ExecToken; Fetch (trim token) GET_field]; simpl;
       rewrite <- app_assoc;
       (split; [reflexivity|]); (split; [unfold weight; simpl; lia|]);
       discriminate.
  destruct (List.find _ fs) as [field|] eqn:Ef.
  2:{ exists [ExecToken; Fetch (trim token) GET_field]. simpl.
      rewrite <- app_assoc.
      split; [reflexivity|]. split; [unfold weight; simpl; lia|].
      discriminate. }
  apply List.find_some in Ef as [Hin Hfield].
  apply andb_prop in Hfield as [Hname Hcustom].
  apply bool_decide_eq_true in Hname.
  exists [ExecToken; Fetch (trim token) GET_field]. simpl.
  rewrite <- app_assoc.
  split; [reflexivity|]. split; [unfold weight; simpl; lia|].
  intros fieldId [= <-]. split; [reflexivity|].
  apply truthy_not_empty.
  exact (identifiers _ _ _ _ Er Ej Hin Hname Hcustom).
Qed.

(** The search the command starts with: at most one lookup, and an
    identifier resolved when it returns. *)
Lemma searchIssues_once (q : jsstring) (w : World) :
  currentStatusFieldId w <> Some [] ->
  exists evs,
    trace (searchIssues env encodeURIComponent q w).2 = trace w ++ evs
    /\ (weight fieldLookups evs <= 1)%nat
    /\ forall found,
         (searchIssues env encodeURIComponent q w).1 = Ok found ->
         exists fieldId,
           resolved fieldId (searchIssues env encodeURIComponent q w).2.
Proof.
  intros Hc.
  assert (E : searchIssues env encodeURIComponent q w
              = match getCurrentStatusFieldId env
                        (logged [CallSearchIssues q] w) with
                | (Ok fieldId, w1) =>
                    (let* payload :=
                       jiraFetch env
                         (GET_search (encodeURIComponent q)
                            (str "summary,status," ++ fieldId) 100) in
                     let* response := asSearch payload in
                     ret (issues response)) w1
                | (Throw e, w1) => (Throw e, w1)
                | (Exit c, w1) => (Exit c, w1)
                | (Pending, w1) => (Pending, w1)
                end) by reflexivity.
  rewrite E. clear E.
  destruct (getCurrentStatusFieldId_once (logged [CallSearchIssues q] w) Hc)
    as (e1 & T1 & W1 & R1).
  destruct (getCurrentStatusFieldId env (logged [CallSearchIssues q] w))
    as [[fieldId|e|c|] w1]; cbn [fst snd trace logged] in *.
  - destruct (search_request_reuses env encodeURIComponent fieldId q w1
                (R1 fieldId eq_refl)) as (e2 & T2 & F2 & R2 & _).
    cbv zeta. exists (CallSearchIssues q :: e1 ++ e2).
    rewrite T2, T1, <- !app_assoc.
    split; [reflexivity|].
    split; [|intros; exists fieldId; exact R2].
    change (CallSearchIssues q :: e1 ++ e2)
      with ([CallSearchIssues q] ++ e1 ++ e2).
    rewrite !weight_app, (usesField_no_lookup fieldId e2 F2).
    unfold weight at 1. simpl. lia.
  - exists (CallSearchIssues q :: e1). rewrite T1, <- app_assoc.
    split; [reflexivity|]. split; [|discriminate].
    change (CallSearchIssues q :: e1) with ([CallSearchIssues q] ++ e1).
    rewrite weight_app. unfold weight at 1. simpl. lia.
  - exists (CallSearchIssues q :: e1). rewrite T1, <- app_assoc.
    split; [reflexivity|]. split; [|discriminate].
    change (CallSearchIssues q :: e1) with ([CallSearchIssues q] ++ e1).
    rewrite weight_app. unfold weight at 1. simpl. lia.
  - exists (CallSearchIssues q :: e1). rewrite T1, <- app_assoc.
    split; [reflexivity|]. split; [|discriminate].
    change (CallSearchIssues q :: e1) with ([CallSearchIssues q] ++ e1).
    rewrite weight_app. unfold weight at 1. simpl. lia.
Qed.

(** A whole run of the command sends at most one lookup. *)
Lemma handleUpdate_once (u : jsstring) (options : UpdateOptions)
    (w : World) :
  currentStatusFieldId w <> Some [] ->
  exists evs,
    trace (handleUpdate env toLowerCase encodeURIComponent u options w).2
    = trace w ++ evs
    /\ (weight fieldLookups evs <= 1)%nat.
Proof.
  intros Hc. unfold handleUpdate.
  set (wa := mkWorld (currentStatusFieldId w) (S (tokenCalls w))
               (fetchCalls w) (questions w) (dates w)
               (trace w ++ [ExecToken])).
  assert (Ha : exists b, isAuthenticated env w = (Ok b, wa)).
  { unfold isAuthenticated, tryCatch, bind, getToken.
    destruct (accessToken env (tokenCalls w)); eexists; reflexivity. }
  destruct Ha as [b Ha]. rewrite (bind_Ok _ _ _ _ _ Ha).
  destruct b; cbn [negb].
  2:{ unfold bind, log, emit, exit. cbn [fst snd trace logged wa].
      eexists. rewrite <- app_assoc. split; [reflexivity|].
      unfold weight. simpl. lia. }
  unfold bind at 1. unfold ret at 1. unfold bind at 1. unfold emit at 1.
  set (ws := logged [SpinnerStart (str "Searching for tickets...")] wa).
  destruct (searchIssues_once (jql options) ws Hc) as (e1 & T1 & W1 & R1).
  unfold tryCatch at 1. unfold bind at 1.
  destruct (searchIssues env encodeURIComponent (jql options) ws)
    as [[found|e|c|] w1] eqn:Es; cbn [fst snd] in *.
  - destruct (R1 found eq_refl) as [fieldId R].
    destruct (after_search_reuses env toLowerCase fieldId u options found
                w1 R) as (e2 & T2 & F2 & _).
    unfold tryCatch in T2. rewrite T2, T1.
    exists ([ExecToken; SpinnerStart (str "Searching for tickets...")]
            ++ e1 ++ e2).
    cbn [trace logged ws wa]. rewrite <- !app_assoc.
    split; [reflexivity|].
    rewrite !weight_app, (usesField_no_lookup fieldId e2 F2).
    unfold weight at 1. simpl. lia.
  - unfold bind, emit, exit. cbn [fst snd trace logged]. rewrite T1.
    exists ([ExecToken; SpinnerStart (str "Searching for tickets...")]
            ++ e1
            ++ [SpinnerFail (str "Failed to search for tickets");
                ConsoleError (messageOr (str "Unknown error") e)]).
    cbn [trace logged ws wa]. rewrite <- !app_assoc.
    split; [reflexivity|].
    rewrite !weight_app. unfold weight at 1 3. simpl. lia.
  - rewrite T1.
    exists ([ExecToken; SpinnerStart (str "Searching for tickets...")]
            ++ e1).
    cbn [trace logged ws wa]. rewrite <- !app_assoc.
    split; [reflexivity|].
    rewrite !weight_app. unfold weight at 1. simpl. lia.
  - rewrite T1.
    exists ([ExecToken; SpinnerStart (str "Searching for tickets...")]
            ++ e1).
    cbn [trace logged ws wa]. rewrite <- !app_assoc.
    split; [reflexivity|].
    rewrite !weight_app. unfold weight at 1. simpl. lia.
Qed.

End Once.

(** C8. The identifier is resolved at most once per process: a run of the
    command, started with the cache as the process starts it, sends at
    most one lookup of the field; and after a resolution that returned,
    every search, every read of the current value and every update, and
    with them the two modes, send no lookup, go under the identifier
    that was returned, and leave it in the cache. The identifier of the
    server is taken not to be the empty string. *)
Theorem identifier_is_resolved_once_and_reused (env : Env)
    (toLowerCase encodeURIComponent : jsstring -> jsstring) :
  (identifiersNotEmpty env ->
   forall u options w,
     currentStatusFieldId w = None ->
     exists evs,
       trace (handleUpdate env toLowerCase encodeURIComponent u options w).2
       = trace w ++ evs
       /\ (weight fieldLookups evs <= 1)%nat)
  /\ (forall w w1 fieldId,
        getCurrentStatusFieldId env w = (Ok fieldId, w1) ->
        fieldId <> [] ->
        resolved fieldId w1
        /\ (forall w2, resolved fieldId w2 ->
            getCurrentStatusFieldId env w2 = (Ok fieldId, w2))
        /\ (forall q,
            Reuses fieldId any (searchIssues env encodeURIComponent q))
        /\ (forall issue,
            Reuses fieldId (fun current => current = readField issue fieldId)
              (getCurrentStatus env issue))
        /\ (forall issueKey v,
            Reuses fieldId any (updateCurrentStatus env issueKey v))
        /\ (forall found u d,
            Reuses fieldId any (processTicketsDryRun env found u d)
            /\ Reuses fieldId any
                 (processTicketsInteractive env toLowerCase found u d))).
Proof.
  split.
  - intros Hids u options w Hc.
    apply (handleUpdate_once env toLowerCase encodeURIComponent Hids).
    rewrite Hc. discriminate.
  - intros w w1 fieldId E Hne.
    assert (R : resolved fieldId w1).
    { split; [exact (getCurrentStatusFieldId_caches env fieldId w w1 E)|].
      destruct fieldId; [congruence | reflexivity]. }
    split; [exact R|].
    split; [intros w2 R2; apply getCurrentStatusFieldId_resolved, R2|].
    split; [intros q; apply searchIssues_reuses|].
    split; [intros issue; apply getCurrentStatus_reuses|].
    split; [intros issueKey v; apply updateCurrentStatus_reuses|].
    intros found u d. split;
      [apply processTicketsDryRun_reuses
      | apply processTicketsInteractive_reuses].
Qed.

(** The condition on the identifier cannot be dropped: a field listed
    under the empty string is resolved, cached, and looked up again by
    the next call, since the cache is tested for truthiness; a dry run
    over one ticket then sends the lookup twice. *)
Lemma empty_identifier_is_looked_up_again :
  let env := sampleEnv [] true true [ticket "RM-1" "old"] [] in
  let first := getCurrentStatusFieldId env initialWorld in
  let second := getCurrentStatusFieldId env first.2 in
  let run := handleUpdate env asciiLowerCase (fun s => s) (str "On track")
               (sampleOptions true) initialWorld in
  first.1 = Ok []
  /\ currentStatusFieldId first.2 = Some []
  /\ fetchCalls first.2 = 1%nat
  /\ second.1 = Ok []
  /\ fetchCalls second.2 = 2%nat
  /\ weight fieldLookups (trace run.2) = 2%nat.
Proof. vm_compute. repeat split. Qed.

(** ** Sample runs of the theorems *)

Lemma buildNewStatus_compose_witness :
  buildNewStatus sampleDate (str "On track") (Some (str "old")) true
  = str "2026-01-27: On track" ++ LF ++ str "old".
Proof.
  rewrite (buildNewStatus_compose sampleDate (str "On track")
             (Some (str "old")) true).
  - reflexivity.
  - simpl. lia.
Defined.

Lemma buildNewStatus_blank_witness :
  buildNewStatus sampleDate (str "On track") (Some [32; 9; 160]) true
  = buildNewStatus sampleDate (str "On track") None true.
Proof.
  apply (buildNewStatus_blank sampleDate (str "On track") [32; 9; 160] true).
  reflexivity.
Defined.

(** The server refuses the write of RM-1 after the answer y. *)
Lemma failed_update_witness :
  exists st' w',
    interactiveBody (sampleEnv sampleFieldId true false [] ["y"%string])
      asciiLowerCase (str "On track") true (ticket "RM-1" "old")
      (mkLoop false false 0 0) readyWorld = (Ok st', w')
    /\ updatedCount st' = 0%nat /\ skippedCount st' = 0%nat
    /\ last (trace w')
       = Some (SpinnerFail
                 (str "Failed to update RM-1: Jira API error (500): boom")).
Proof.
  edestruct (failed_update_is_reported_and_uncounted
               (sampleEnv sampleFieldId true false [] ["y"%string])
               asciiLowerCase (str "On track") true (ticket "RM-1" "old") []
               (mkLoop false false 0 0) readyWorld)
    as (st' & Hb & Hu & Hk & _).
  - reflexivity.
  - vm_compute. reflexivity.
  - right. split; vm_compute; reflexivity.
  - vm_compute. reflexivity.
  - exists st'. eexists. split; [exact Hb|].
    split; [exact Hu|]. split; [exact Hk|]. vm_compute. reflexivity.
Defined.

(** The operator types " Skip " at the first of three tickets. *)
Lemma skip_all_witness :
  exists w',
    processTicketsInteractive
      (sampleEnv sampleFieldId true true [] [" Skip "%string]) asciiLowerCase
      [ticket "RM-1" "old"; ticket "RM-2" ""; ticket "RM-3" "  "]
      (str "On track") true readyWorld
    = (Ok tt, logged (summaryLines "0" "3") w')
    /\ fetchCalls w' = 0%nat /\ questions w' = 1%nat.
Proof.
  edestruct (skip_all_skips_the_rest
               (sampleEnv sampleFieldId true true [] [" Skip "%string])
               asciiLowerCase (str "On track") true
               (ticket "RM-1" "old") (ticket "RM-2" "") (ticket "RM-3" "  ")
               [] (mkLoop false false 0 0) readyWorld)
    as [_ Hsummary].
  - reflexivity.
  - reflexivity.
  - vm_compute. reflexivity.
  - vm_compute. reflexivity.
  - vm_compute. reflexivity.
  - eexists. split; [exact (Hsummary eq_refl)|]. split; reflexivity.
Defined.

(** The operator types n, then A; every write is accepted. *)
Lemma no_then_all_witness :
  exists w',
    processTicketsInteractive
      (sampleEnv sampleFieldId true true [] ["n"%string; "A"%string])
      asciiLowerCase
      [ticket "RM-1" "old"; ticket "RM-2" ""; ticket "RM-3" "  "]
      (str "On track") true readyWorld
    = (Ok tt, logged (summaryLines "2" "1") w')
    /\ questions w' = 2%nat /\ fetchCalls w' = 2%nat.
Proof.
  edestruct (no_then_all_updates_two_skips_one
               (sampleEnv sampleFieldId true true [] ["n"%string; "A"%string])
               asciiLowerCase (str "On track") true
               (ticket "RM-1" "old") (ticket "RM-2" "") (ticket "RM-3" "  ")
               sampleFieldId readyWorld)
    as (w1 & w2 & w3 & _ & _ & _ & (Q1 & Q2 & Q3) & (F1 & F2 & F3) & Hp).
  - split; reflexivity.
  - intros n. eexists. reflexivity.
  - intros n k f v. eexists. eexists. repeat split.
  - vm_compute. reflexivity.
  - vm_compute. reflexivity.
  - exists w3. split; [exact Hp|].
    rewrite Q3, Q2, Q1, F3, F2, F1. split; reflexivity.
Defined.

(** A dry run over two tickets. *)
Lemma dry_run_witness :
  exists w',
    processTicketsDryRun (sampleEnv sampleFieldId true true [] [])
      [ticket "RM-1" "old"; ticket "RM-2" ""] (str "On track") true
      readyWorld = (Ok tt, w')
    /\ questions w' = 0%nat /\ fetchCalls w' = 0%nat.
Proof.
  edestruct (proj2 (dry_run_previews_all_and_writes_nothing
                      (sampleEnv sampleFieldId true true [] [])
                      (str "On track") true
                      [ticket "RM-1" "old"; ticket "RM-2" ""])
               sampleFieldId readyWorld)
    as (w' & E & _ & Q & F).
  - split; reflexivity.
  - exists w'. split; [exact E|]. split; assumption.
Defined.

(** The search answered with a 503, and the search answered with two
    tickets whose writes are refused under the answer a. *)
Lemma query_failure_witness :
  exitStatus
    (handleUpdate (sampleEnv sampleFieldId false true [] []) asciiLowerCase
       (fun s => s) (str "On track") (sampleOptions false) initialWorld).1
  = 1%Z
  /\ exitStatus
       (handleUpdate
          (sampleEnv sampleFieldId true false
             [ticket "RM-1" "old"; ticket "RM-2" ""] ["a"%string])
          asciiLowerCase (fun s => s) (str "On track") (sampleOptions false)
          initialWorld).1
     = 0%Z.
Proof.
  split.
  - edestruct (proj1 (query_failure_is_fatal_update_failures_are_not
                        (sampleEnv sampleFieldId false true [] [])
                        asciiLowerCase (fun s => s) (str "On track")
                        (sampleOptions false) initialWorld
                        (mkWorld None 1 0 0 0 [ExecToken]) eq_refl))
      as (_ & Hx & _).
    + vm_compute. reflexivity.
    + exact Hx.
  - eapply (proj2 (query_failure_is_fatal_update_failures_are_not
                     (sampleEnv sampleFieldId true false
                        [ticket "RM-1" "old"; ticket "RM-2" ""] ["a"%string])
                     asciiLowerCase (fun s => s) (str "On track")
                     (sampleOptions false) initialWorld
                     (mkWorld None 1 0 0 0 [ExecToken]) eq_refl)).
    + vm_compute. reflexivity.
    + vm_compute. discriminate.
Defined.

(** The search answered with no ticket. *)
Lemma no_tickets_witness :
  exitStatus
    (handleUpdate (sampleEnv sampleFieldId true true [] []) asciiLowerCase
       (fun s => s) (str "On track") (sampleOptions false) initialWorld).1
  = 0%Z.
Proof.
  edestruct (no_tickets_found_ends_quietly
               (sampleEnv sampleFieldId true true [] []) asciiLowerCase
               (fun s => s) (str "On track") (sampleOptions false)
               initialWorld (mkWorld None 1 0 0 0 [ExecToken]))
    as (_ & Hx & _).
  - reflexivity.
  - vm_compute. reflexivity.
  - exact Hx.
Defined.

(** A server with three tickets, all of them under the limit. *)
Lemma at_most_100_witness :
  exists evs,
    trace (handleUpdate
             (sampleEnv sampleFieldId true true
                [ticket "RM-1" "old"; ticket "RM-2" ""; ticket "RM-3" "  "]
                ["a"%string])
             asciiLowerCase (fun s => s) (str "On track")
             (sampleOptions false) initialWorld).2
    = trace initialWorld ++ evs
    /\ weight searchNot100 evs = 0%nat
    /\ (weight searches evs <= 1)%nat
    /\ forall kind, (weight (perIssue kind) evs <= 100)%nat.
Proof.
  destruct (run_touches_at_most_100_issues
              (sampleEnv sampleFieldId true true
                 [ticket "RM-1" "old"; ticket "RM-2" ""; ticket "RM-3" "  "]
                 ["a"%string])
              asciiLowerCase (fun s => s) (str "On track")
              (sampleOptions false) initialWorld)
    as (evs & T & W0 & W1 & Hk).
  exists evs. repeat split; try assumption.
  apply Hk.
  intros n q f limit response r H1 H2. simpl in H1.
  injection H1 as <-. simpl in H2. injection H2 as <-. simpl.
  rewrite length_take. lia.
Defined.

(** A run over two tickets under the answer a, and the second call of the
    resolution. *)
Lemma resolved_once_witness :
  (exists evs,
      trace (handleUpdate
               (sampleEnv sampleFieldId true true
                  [ticket "RM-1" "old"; ticket "RM-2" ""] ["a"%string])
               asciiLowerCase (fun s => s) (str "On track")
               (sampleOptions false) initialWorld).2
      = trace initialWorld ++ evs
      /\ (weight fieldLookups evs <= 1)%nat)
  /\ (let env := sampleEnv sampleFieldId true true [] [] in
      let first := getCurrentStatusFieldId env initialWorld in
      getCurrentStatusFieldId env first.2 = (Ok sampleFieldId, first.2)).
Proof.
  split.
  - apply (proj1 (identifier_is_resolved_once_and_reused
                    (sampleEnv sampleFieldId true true
                       [ticket "RM-1" "old"; ticket "RM-2" ""] ["a"%string])
                    asciiLowerCase (fun s => s))).
    + intros n response fs field Hr Hj Hin _ _.
      injection Hr as <-. injection Hj as <-.
      destruct Hin as [<-|[]]. discriminate.
    + reflexivity.
  - cbv zeta.
    edestruct (proj2 (identifier_is_resolved_once_and_reused
                        (sampleEnv sampleFieldId true true [] [])
                        asciiLowerCase (fun s => s))
                 initialWorld
                 (getCurrentStatusFieldId
                    (sampleEnv sampleFieldId true true [] [])
                    initialWorld).2
                 sampleFieldId) as (R & Hreuse & _).
    + reflexivity.
    + discriminate.
    + apply Hreuse. exact R.
Defined.

(** ** The repository: requests, the lookup, the search *)

Section Repository.

Variable env : Env.
Variable toLowerCase encodeURIComponent : jsstring -> jsstring.

(** X1. When the token cannot be read, [jiraFetch] throws the message of
    [getToken] and sends no request. *)
Theorem jiraFetch_without_token_sends_nothing (req : Request) (w : World) :
  accessToken env (tokenCalls w) = None ->
  exists w',
    jiraFetch env req w = (Throw (ErrorObj noTokenMessage), w')
    /\ fetchCalls w' = fetchCalls w
    /\ trace w' = trace w ++ [ExecToken].
Proof.
  intros H. unfold jiraFetch, bind, getToken. rewrite H.
  eexists. repeat split.
Qed.

(** X2. [jiraFetch] returns a body only when the token was read, the
    request was answered with an ok status and the body parsed; it has
    then sent exactly that one request, under the trimmed token. *)
Theorem jiraFetch_returns_only_ok_bodies (req : Request) (w w' : World)
    (payload : Payload) :
  jiraFetch env req w = (Ok payload, w') ->
  exists token response,
    accessToken env (tokenCalls w) = Some token
    /\ remote env (fetchCalls w) req = Fulfilled response
    /\ ok response = true
    /\ json response = Fulfilled payload
    /\ fetchCalls w' = S (fetchCalls w)
    /\ trace w' = trace w ++ [ExecToken; Fetch (trim token) req].
Proof.
  unfold jiraFetch, bind, getToken, fetch, settle, throw, ret.
  destruct (accessToken env (tokenCalls w)) as [token|]; [|discriminate].
  cbn [fetchCalls].
  destruct (remote env (fetchCalls w) req) as [response|e]; [|discriminate].
  destruct (ok response) eqn:Hok; cbn [negb]; [|discriminate].
  destruct (json response) as [p|e] eqn:Hj; [|discriminate].
  intros [= <- <-]. exists token, response. cbn.
  rewrite <- app_assoc. repeat split; assumption.
Qed.

(** X3. A resolution of the field identifier that throws leaves the cache
    as it was, so that the next call looks the field up again. *)
Theorem failed_resolution_keeps_the_cache (w w' : World) (e : Thrown) :
  getCurrentStatusFieldId env w = (Throw e, w') ->
  currentStatusFieldId w' = currentStatusFieldId w.
Proof.
  assert (L : lookupCurrentStatusField env w = (Throw e, w') ->
              currentStatusFieldId w' = currentStatusFieldId w).
  { unfold lookupCurrentStatusField. unfold bind at 1.
    destruct (jiraFetch_frame env GET_field w)
      as (r & w1 & E & Hc & _).
    rewrite E. destruct r as [payload|e1|code|].
    - unfold bind at 1.
      destruct payload as [fs| |]; cbn [asFields].
      + unfold ret at 1. destruct (List.find _ fs) as [field|].
        * unfold bind, setCache, ret. discriminate.
        * unfold throw. intros [= _ <-]. exact Hc.
      + unfold throw. intros [= _ <-]. exact Hc.
      + unfold throw. intros [= _ <-]. exact Hc.
    - intros [= _ <-]. exact Hc.
    - discriminate.
    - discriminate. }
  unfold getCurrentStatusFieldId, bind, getCache.
  destruct (currentStatusFieldId w) as [cached|]; [|exact L].
  destruct (truthy cached); [discriminate | exact L].
Qed.

Lemma jiraFetch_ok (req : Request) (w : World) (token : jsstring)
    (response : HttpResponse) (payload : Payload) :
  accessToken env (tokenCalls w) = Some token ->
  remote env (fetchCalls w) req = Fulfilled response ->
  ok response = true -> json response = Fulfilled payload ->
  jiraFetch env req w = (Ok payload, requested (trim token) req w).
Proof.
  intros Ht Hr Hok Hj. unfold jiraFetch, bind, getToken, fetch. rewrite Ht.
  cbn [fetchCalls]. rewrite Hr. cbn [settle ret]. rewrite Hok. cbn [negb].
  rewrite Hj. unfold requested. cbn. rewrite <- app_assoc. reflexivity.
Qed.

Lemma jiraFetch_refused (req : Request) (w : World) (token : jsstring)
    (response : HttpResponse) :
  accessToken env (tokenCalls w) = Some token ->
  remote env (fetchCalls w) req = Fulfilled response ->
  ok response = false ->
  jiraFetch env req w
  = (Throw (ErrorObj (apiError response)), requested (trim token) req w).
Proof.
  intros Ht Hr Hok. unfold jiraFetch, bind, getToken, fetch. rewrite Ht.
  cbn [fetchCalls]. rewrite Hr. cbn [settle ret]. rewrite Hok. cbn [negb].
  unfold requested, throw. cbn. rewrite <- app_assoc. reflexivity.
Qed.

Lemma isAuthenticated_token (w : World) :
  isAuthenticated env w
  = (Ok (bool_decide (accessToken env (tokenCalls w) <> None)), tokenRead w).
Proof.
  unfold isAuthenticated, tryCatch, bind, getToken.
  destruct (accessToken env (tokenCalls w)); reflexivity.
Qed.

(** X4. With the identifier resolved, the token read and the search
    answered ok, [searchIssues] sends one request, for the fields summary,
    status and the identifier with maxResults=100, and returns the issues
    of the answer as they are: in the order of the server, none dropped,
    however many there are. *)
Theorem searchIssues_returns_the_answer (fieldId q token : jsstring)
    (w : World) (response : HttpResponse) (r : JiraSearchResponse) :
  resolved fieldId w ->
  accessToken env (tokenCalls w) = Some token ->
  remote env (fetchCalls w) (searchRequest encodeURIComponent q fieldId)
  = Fulfilled response ->
  ok response = true ->
  json response = Fulfilled (PSearch r) ->
  searchIssues env encodeURIComponent q w
  = (Ok (issues r),
     requested (trim token) (searchRequest encodeURIComponent q fieldId)
       (logged [CallSearchIssues q] w)).
Proof.
  intros H Ht Hr Hok Hj. unfold searchIssues.
  rewrite (bind_Ok _ _ w (logged [CallSearchIssues q] w) tt) by reflexivity.
  rewrite (bind_Ok _ _ _ _ fieldId
             (getCurrentStatusFieldId_resolved env fieldId _
                (resolved_logged _ _ _ H))).
  cbv zeta. fold (searchRequest encodeURIComponent q fieldId).
  rewrite (bind_Ok _ _ _ _ _
             (jiraFetch_ok (searchRequest encodeURIComponent q fieldId)
                (logged [CallSearchIssues q] w) token response (PSearch r)
                Ht Hr Hok Hj)).
  reflexivity.
Qed.

(** X5. A write the server refuses is reported to the operator with the
    key of the issue, the status and the body of the answer; the counts
    stay as they were. *)
Theorem refused_write_is_reported_with_status (fieldId token v : jsstring)
    (issue : JiraIssue) (st : LoopState) (w : World)
    (response : HttpResponse) :
  resolved fieldId w ->
  accessToken env (tokenCalls w) = Some token ->
  remote env (fetchCalls w) (PUT_issue (key issue) fieldId v)
  = Fulfilled response ->
  ok response = false ->
  updateWithSpinner env issue v st w
  = (Ok st,
     logged [SpinnerFail (str "Failed to update " ++ key issue ++ str ": "
                          ++ apiError response)]
       (requested (trim token) (PUT_issue (key issue) fieldId v)
          (logged [updatingLine issue; CallUpdateCurrentStatus (key issue) v]
             w))).
Proof.
  intros H Ht Hr Hok.
  rewrite (updateWithSpinner_failure env issue v st w
             (requested (trim token) (PUT_issue (key issue) fieldId v)
                (logged [updatingLine issue;
                         CallUpdateCurrentStatus (key issue) v] w))
             (ErrorObj (apiError response))); [reflexivity|].
  unfold updateCurrentStatus.
  set (w0 := logged [SpinnerStart _] w).
  rewrite (bind_Ok _ _ w0
             (logged [CallUpdateCurrentStatus (key issue) v] w0) tt)
    by reflexivity.
  rewrite (bind_Ok _ _ _ _ fieldId
             (getCurrentStatusFieldId_resolved env fieldId
                (logged [CallUpdateCurrentStatus (key issue) v] w0) H)).
  rewrite (bind_Throw _ _ _ _ _
             (jiraFetch_refused (PUT_issue (key issue) fieldId v)
                (logged [CallUpdateCurrentStatus (key issue) v] w0)
                token response Ht Hr Hok)).
  subst w0. unfold updatingLine. rewrite logged_logged. reflexivity.
Qed.

End Repository.

(** ** The command at its edges *)

Section Edges.

Variable env : Env.
Variable toLowerCase encodeURIComponent : jsstring -> jsstring.
Variable u : jsstring.

Lemma find_none (fs : list JiraField) :
  Forall (fun field => isCurrentStatusField field = false) fs ->
  List.find (fun field =>
               bool_decide (name field = str "Current Status") && custom field)
    fs = None.
Proof.
  induction 1 as [|field fs Hf _ IH]; [reflexivity|].
  simpl. unfold isCurrentStatusField in Hf. rewrite Hf. exact IH.
Qed.

(** X6. Without a token the command prints the hint, ends with status 1,
    and has sent no request and started no search. *)
Theorem unauthenticated_run_sends_nothing (options : UpdateOptions)
    (w : World) :
  accessToken env (tokenCalls w) = None ->
  handleUpdate env toLowerCase encodeURIComponent u options w
  = (Exit 1,
     logged [ConsoleLog (str "Not authenticated. Please run " ++ DQ
                         ++ str "add-status auth" ++ DQ ++ str " first.")]
       (tokenRead w)).
Proof.
  intros H. unfold handleUpdate.
  rewrite (bind_Ok _ _ _ _ _ (isAuthenticated_token env w)).
  rewrite H. reflexivity.
Qed.

(** X7. When the fields of the server hold no custom field named
    "Current Status" (a field of that name that is not custom does not
    count), the command reports the failure with the guidance of the
    lookup, ends with status 1, has sent the lookup only, never the
    search, and leaves the cache empty. *)
Theorem missing_field_is_fatal_before_the_search (options : UpdateOptions)
    (w : World) (token0 token1 : jsstring) (response : HttpResponse)
    (fs : list JiraField) :
  currentStatusFieldId w = None ->
  accessToken env (tokenCalls w) = Some token0 ->
  accessToken env (S (tokenCalls w)) = Some token1 ->
  remote env (fetchCalls w) GET_field = Fulfilled response ->
  ok response = true ->
  json response = Fulfilled (PFields fs) ->
  Forall (fun field => isCurrentStatusField field = false) fs ->
  let w' :=
    logged [SpinnerFail (str "Failed to search for tickets");
            ConsoleError noFieldMessage]
      (requested (trim token1) GET_field
         (logged [SpinnerStart (str "Searching for tickets...");
                  CallSearchIssues (jql options)] (tokenRead w))) in
  handleUpdate env toLowerCase encodeURIComponent u options w = (Exit 1, w')
  /\ currentStatusFieldId w' = None
  /\ weight searches (trace w') = weight searches (trace w).
Proof.
  intros Hc Ht0 Ht1 Hr Hok Hj Hfs w'.
  assert (Ha : isAuthenticated env w = (Ok true, tokenRead w)).
  { rewrite isAuthenticated_token, Ht0. reflexivity. }
  split; [|split].
  - rewrite (handleUpdate_search_fails env toLowerCase encodeURIComponent u
               options w (tokenRead w)
               (requested (trim token1) GET_field
                  (logged [SpinnerStart (str "Searching for tickets...");
                           CallSearchIssues (jql options)] (tokenRead w)))
               (ErrorObj noFieldMessage) Ha); [reflexivity|].
    unfold searchIssues.
    set (ws := logged [SpinnerStart _] (tokenRead w)).
    rewrite (bind_Ok _ _ ws (logged [CallSearchIssues (jql options)] ws) tt)
      by reflexivity.
    unfold bind at 1. unfold getCurrentStatusFieldId at 1.
    unfold bind at 1. unfold getCache at 1.
    cbn [currentStatusFieldId logged tokenRead ws]. rewrite Hc.
    unfold lookupCurrentStatusField.
    rewrite (bind_Ok _ _ _ _ _
               (jiraFetch_ok env GET_field
                  (logged [CallSearchIssues (jql options)] ws)
                  token1 response (PFields fs) Ht1 Hr Hok Hj)).
    unfold bind at 1. cbn [asFields]. unfold ret at 1.
    rewrite (find_none fs Hfs). unfold throw. subst ws.
    rewrite logged_logged. reflexivity.
  - exact Hc.
  - subst w'. unfold weight. cbn [trace logged requested tokenRead].
    rewrite !sum_list_with_app. simpl. lia.
Qed.

End Edges.

(** ** The steps of the interactive loop *)

Section Steps.

Variable env : Env.
Variable toLowerCase : jsstring -> jsstring.
Variables (u : jsstring) (d : bool).

(** An update, once the identifier is resolved: the mark of the call, the
    token, and at most one request, the write asked for. *)
Lemma updateCurrentStatus_sends_one (fieldId issueKey v : jsstring)
    (w : World) :
  resolved fieldId w ->
  exists r w' tail,
    updateCurrentStatus env issueKey v w = (r, w')
    /\ trace w' = trace w ++ CallUpdateCurrentStatus issueKey v
                    :: ExecToken :: tail
    /\ (tail = [] \/ exists t, tail = [Fetch t (PUT_issue issueKey fieldId v)])
    /\ resolved fieldId w'
    /\ settles r.
Proof.
  intros H. unfold updateCurrentStatus.
  rewrite (bind_Ok _ _ w (logged [CallUpdateCurrentStatus issueKey v] w) tt)
    by reflexivity.
  rewrite (bind_Ok _ _ _ _ fieldId
             (getCurrentStatusFieldId_resolved env fieldId _
                (resolved_logged _ _ _ H))).
  unfold jiraFetch, bind, getToken, fetch, settle, throw, ret.
  cbn [tokenCalls fetchCalls logged].
  destruct (accessToken env (tokenCalls w)) as [token|].
  2:{ eexists _, _, []. cbn. rewrite <- app_assoc.
      repeat split; try apply H; auto. }
  cbn [fetchCalls].
  destruct (remote env (fetchCalls w) (PUT_issue issueKey fieldId v))
    as [response|e];
    [destruct (ok response); cbn [negb];
     [destruct (json response)|]|];
    (eexists _, _, [Fetch (trim token) (PUT_issue issueKey fieldId v)]; cbn;
     rewrite <- !app_assoc;
     repeat split; try apply H; eauto).
Qed.

Lemma updateWithSpinner_writes_only (fieldId : jsstring) (issue : JiraIssue)
    (v : jsstring) (st : LoopState) (w : World) :
  resolved fieldId w ->
  exists st' w' evs,
    updateWithSpinner env issue v st w = (Ok st', w')
    /\ trace w' = trace w ++ evs
    /\ Forall (writesOnly (key issue) fieldId v) evs
    /\ resolved fieldId w'.
Proof.
  intros H.
  destruct (updateCurrentStatus_sends_one fieldId (key issue) v
              (logged [SpinnerStart (str "Updating " ++ key issue
                                     ++ str "...")] w) H)
    as (r & w1 & tail & E & T & Htail & R & Hx).
  assert (F : Forall (writesOnly (key issue) fieldId v)
                (CallUpdateCurrentStatus (key issue) v :: ExecToken :: tail)).
  { repeat constructor.
    destruct Htail as [->|[t ->]]; repeat constructor. }
  cbn [trace logged] in T.
  destruct r as [[]|e|code|]; try destruct Hx.
  - rewrite (updateWithSpinner_success env issue v st w w1 E).
    eexists _, _, _. split; [reflexivity|]. cbn [trace logged].
    rewrite T, <- !app_assoc. split; [reflexivity|]. split; [|exact R].
    apply Forall_app. split; [repeat constructor|].
    apply Forall_app. split; [exact F | repeat constructor].
  - rewrite (updateWithSpinner_failure env issue v st w w1 e E).
    eexists _, _, _. split; [reflexivity|]. cbn [trace logged].
    rewrite T, <- !app_assoc. split; [reflexivity|]. split; [|exact R].
    apply Forall_app. split; [repeat constructor|].
    apply Forall_app. split; [exact F | repeat constructor].
Qed.

(** X8. In a step of the interactive loop, what is written is what was
    shown: after the fetch and the display of the proposed value, the only
    request the step may send is the write of that very value to that
    very issue, under the resolved identifier. The step returns, unless
    the latch is not set and no line answers its question. *)
Theorem what_is_written_is_what_was_shown (fieldId : jsstring)
    (issue : JiraIssue) (st : LoopState) (w : World) :
  resolved fieldId w -> skipAll st = false ->
  let c := readField issue fieldId in
  let v := buildNewStatus (clock env (dates w)) u c d in
  exists r w' evs,
    interactiveBody env toLowerCase u d issue st w = (r, w')
    /\ ((exists st', r = Ok st')
        \/ (r = Pending /\ applyAll st = false
            /\ stdin env (questions w) = None))
    /\ trace w' = trace w ++ CallGetCurrentStatus (key issue)
                    :: displayLines issue c v ++ evs
    /\ Forall (writesOnly (key issue) fieldId v) evs.
Proof.
  intros H Hs c v.
  rewrite (interactiveBody_read env toLowerCase u d issue st w _ _ Hs
             (getCurrentStatus_resolved env fieldId issue w H)).
  cbv zeta. fold c. cbn [dates logged]. fold v.
  set (r := logged [CallGetCurrentStatus (key issue)] w).
  assert (Ts : trace (shownWorld env u d issue c r)
               = trace w ++ CallGetCurrentStatus (key issue)
                   :: displayLines issue c v).
  { unfold shownWorld. destruct d; cbn; rewrite <- app_assoc; reflexivity. }
  assert (Ta : trace (answeredWorld env u d issue c r)
               = trace w ++ CallGetCurrentStatus (key issue)
                   :: displayLines issue c v
                   ++ [ConsoleLog []; Question applyQuestion]).
  { unfold answeredWorld. cbn [trace asked logged]. rewrite Ts.
    rewrite <- !app_assoc. reflexivity. }
  assert (Rs : resolved fieldId (shownWorld env u d issue c r)).
  { destruct (shownWorld_frame env u d issue c r) as (E & _).
    destruct H as [H1 H2]. split; [rewrite E|]; assumption. }
  assert (Ra : resolved fieldId (answeredWorld env u d issue c r)).
  { destruct (answeredWorld_frame env u d issue c r) as (E & _).
    destruct H as [H1 H2]. split; [rewrite E|]; assumption. }
  assert (Us : forall st0,
             exists st' w' evs,
               updateWithSpinner env issue v st0
                 (shownWorld env u d issue c r) = (Ok st', w')
               /\ trace w' = trace w ++ CallGetCurrentStatus (key issue)
                               :: displayLines issue c v ++ evs
               /\ Forall (writesOnly (key issue) fieldId v) evs).
  { intros st0.
    destruct (updateWithSpinner_writes_only fieldId issue v st0 _ Rs)
      as (st' & w' & evs & E & T & F & _).
    exists st', w', evs. rewrite T, Ts, <- app_assoc. auto. }
  assert (Ua : forall st0,
             exists st' w' evs,
               updateWithSpinner env issue v st0
                 (answeredWorld env u d issue c r) = (Ok st', w')
               /\ trace w' = trace w ++ CallGetCurrentStatus (key issue)
                               :: displayLines issue c v ++ evs
               /\ Forall (writesOnly (key issue) fieldId v) evs).
  { intros st0.
    destruct (updateWithSpinner_writes_only fieldId issue v st0 _ Ra)
      as (st' & w' & evs & E & T & F & _).
    exists st', w', ([ConsoleLog []; Question applyQuestion] ++ evs).
    rewrite T, Ta. split; [exact E|]. split.
    - rewrite <- !app_assoc. reflexivity.
    - apply Forall_app. split; [repeat constructor | exact F]. }
  assert (Ret : forall (r0 : Outcome LoopState) (w0 : World),
             (exists st' w' evs,
                r0 = Ok st' /\ w0 = w'
                /\ trace w' = trace w ++ CallGetCurrentStatus (key issue)
                                :: displayLines issue c v ++ evs
                /\ Forall (writesOnly (key issue) fieldId v) evs) ->
             exists r w' evs,
               (r0, w0) = (r, w')
               /\ ((exists st', r = Ok st')
                   \/ (r = Pending /\ false = false
                       /\ stdin env (questions w) = None))
               /\ trace w' = trace w ++ CallGetCurrentStatus (key issue)
                               :: displayLines issue c v ++ evs
               /\ Forall (writesOnly (key issue) fieldId v) evs).
  { intros r0 w0 (st' & w' & evs & -> & -> & T & F).
    exists (Ok st'), w', evs. eauto 10. }
  destruct (applyAll st).
  { destruct (Us st) as (st' & w' & evs & E & T & F).
    exists (Ok st'), w', evs. eauto 10. }
  unfold answerAt. cbn [questions logged r].
  destruct (stdin env (questions w)) as [line|] eqn:El.
  2:{ eexists Pending, _, [ConsoleLog []; Question applyQuestion].
      split; [reflexivity|]. split; [right; auto|].
      split; [exact Ta | repeat constructor]. }
  repeat match goal with
         | |- context [if ?b then _ else _] => destruct b
         end;
    try (match goal with
         | |- context [updateWithSpinner _ _ _ ?st0 _] =>
             destruct (Ua st0) as (st' & w' & evs & E & T & F)
         end; rewrite E; apply Ret; eauto 10);
    apply Ret; eexists _, _, _; (split; [reflexivity|]);
    (split; [reflexivity|]); cbn [trace logged];
    rewrite Ta, <- !app_assoc; (split; [reflexivity|]);
    repeat constructor.
Qed.

End Steps.

(** ** The loop variables *)

Section Loop.

Variable env : Env.
Variable toLowerCase : jsstring -> jsstring.
Variables (u : jsstring) (d : bool).

Lemma advances_refl (st : LoopState) : advances 0 st st.
Proof. unfold advances. repeat split; auto; lia. Qed.

Lemma advances_trans (n m : nat) (a b c : LoopState) :
  advances n a b -> advances m b c -> advances (n + m) a c.
Proof.
  unfold advances.
  intros (A1 & A2 & A3 & A4 & A5 & A6) (B1 & B2 & B3 & B4 & B5 & B6).
  repeat split; auto; lia.
Qed.

(** An attempt returns the loop variables as they were, or with one more
    update. *)
Lemma updateWithSpinner_counts (issue : JiraIssue) (v : jsstring)
    (st st' : LoopState) (w w' : World) :
  updateWithSpinner env issue v st w = (Ok st', w') ->
  st' = st
  \/ st' = mkLoop (applyAll st) (skipAll st) (S (updatedCount st))
             (skippedCount st).
Proof.
  unfold updateWithSpinner, bind, tryCatch, emit, ret.
  destruct (updateCurrentStatus env (key issue) v _) as [[[]|e|code|] w1].
  - intros [= <- _]. right. reflexivity.
  - intros [= <- _]. left. reflexivity.
  - discriminate.
  - discriminate.
Qed.

Lemma interactiveBody_advances (issue : JiraIssue) (st st' : LoopState)
    (w w' : World) :
  interactiveBody env toLowerCase u d issue st w = (Ok st', w') ->
  advances 1 st st'.
Proof.
  destruct (skipAll st) eqn:Hs.
  { unfold interactiveBody. rewrite Hs. unfold ret. intros [= <- _].
    unfold advances, exclusive. cbn. rewrite Hs.
    repeat split; auto; lia. }
  destruct (getCurrentStatus env issue w) as [[c|e|code|] w1] eqn:Hg.
  2,3,4: unfold interactiveBody; rewrite Hs; unfold bind at 1; rewrite Hg;
         discriminate.
  rewrite (interactiveBody_read env toLowerCase u d issue st w w1 c Hs Hg).
  cbv zeta.
  assert (U : forall w0 st1,
             updateWithSpinner env issue
               (buildNewStatus (clock env (dates w1)) u c d) st w0
             = (Ok st1, w') -> advances 1 st st1).
  { intros w0 st1 E.
    destruct (updateWithSpinner_counts _ _ _ _ _ _ E) as [->| ->];
      unfold advances, exclusive; cbn; repeat split; auto; lia. }
  destruct (applyAll st) eqn:Ha; [apply U|].
  destruct (answerAt env toLowerCase (questions w1)) as [answer|];
    [|discriminate].
  repeat match goal with
         | |- context [if ?b then _ else _] => destruct b
         end.
  - apply U.
  - intros E.
    destruct (updateWithSpinner_counts _ _ _ _ _ _ E) as [->| ->];
      unfold advances, exclusive; cbn; rewrite ?Hs, ?Ha;
      repeat split; auto; try lia; discriminate.
  - intros [= <- _]. unfold advances, exclusive. cbn. rewrite ?Hs, ?Ha.
    repeat split; auto; try lia; discriminate.
  - intros [= <- _]. unfold advances, exclusive. cbn. rewrite ?Hs, ?Ha.
    repeat split; auto; try lia; discriminate.
Qed.

(** X9. Whatever the server and the operator do, a loop over n issues
    that returns has kept each latch once set, has never set both, has
    lowered neither count, and has counted at most n issues as updated or
    skipped. *)
Theorem loop_variables_advance (found : list JiraIssue) (st st' : LoopState)
    (w w' : World) :
  forOf (interactiveBody env toLowerCase u d) found st w = (Ok st', w') ->
  advances (length found) st st'.
Proof.
  revert st w. induction found as [|issue found IH]; intros st w.
  - simpl. unfold ret. intros [= <- _]. apply advances_refl.
  - simpl forOf. unfold bind.
    destruct (interactiveBody env toLowerCase u d issue st w)
      as [[st1|e|code|] w1] eqn:E; try discriminate.
    intros Hrest.
    apply (advances_trans 1 (length found) st st1 st').
    + exact (interactiveBody_advances issue st st1 w w1 E).
    + exact (IH st1 w1 Hrest).
Qed.

(** An attempt with the identifier resolved ends with one spinner line,
    a success that counts or a failure that does not, and asks nothing. *)
Lemma updateWithSpinner_accounts (fieldId : jsstring) (issue : JiraIssue)
    (v : jsstring) (st : LoopState) (w : World) :
  resolved fieldId w ->
  exists st' w' evs,
    updateWithSpinner env issue v st w = (Ok st', w')
    /\ trace w' = trace w ++ evs
    /\ resolved fieldId w'
    /\ updatedCount st' = (updatedCount st + weight succeeds evs)%nat
    /\ skippedCount st' = skippedCount st
    /\ (weight succeeds evs + weight fails evs = 1)%nat.
Proof.
  intros H.
  destruct (updateCurrentStatus_sends_one env fieldId (key issue) v
              (logged [SpinnerStart (str "Updating " ++ key issue
                                     ++ str "...")] w) H)
    as (r & w1 & tail & E & T & Htail & R & Hx).
  cbn [trace logged] in T.
  assert (Z : weight succeeds tail = 0%nat /\ weight fails tail = 0%nat)
    by (destruct Htail as [->|[t ->]]; split; reflexivity).
  destruct Z as [Z1 Z2].
  destruct r as [[]|e|code|]; try destruct Hx.
  - rewrite (updateWithSpinner_success env issue v st w w1 E).
    eexists _, _, _. split; [reflexivity|]. cbn [trace logged].
    rewrite T, <- !app_assoc. split; [reflexivity|]. split; [exact R|].
    rewrite !weight_app. unfold weight in *. cbn. rewrite Z1, Z2.
    repeat split; lia.
  - rewrite (updateWithSpinner_failure env issue v st w w1 e E).
    eexists _, _, _. split; [reflexivity|]. cbn [trace logged].
    rewrite T, <- !app_assoc. split; [reflexivity|]. split; [exact R|].
    rewrite !weight_app. unfold weight in *. cbn. rewrite Z1, Z2.
    repeat split; lia.
Qed.

Lemma interactiveBody_accounts (fieldId : jsstring) (issue : JiraIssue)
    (st : LoopState) (w : World) :
  resolved fieldId w ->
  (exists st' w' evs,
     interactiveBody env toLowerCase u d issue st w = (Ok st', w')
     /\ trace w' = trace w ++ evs
     /\ resolved fieldId w'
     /\ updatedCount st' = (updatedCount st + weight succeeds evs)%nat
     /\ (skippedCount st' + weight succeeds evs + weight fails evs
         = S (skippedCount st))%nat)
  \/ (exists w',
        interactiveBody env toLowerCase u d issue st w = (Pending, w')
        /\ exists n, stdin env n = None).
Proof.
  intros H. destruct (skipAll st) eqn:Hs.
  { left. unfold interactiveBody. rewrite Hs. unfold ret.
    eexists _, _, []. split; [reflexivity|]. rewrite app_nil_r. cbn.
    repeat split; try apply H; lia. }
  rewrite (interactiveBody_read env toLowerCase u d issue st w _ _ Hs
             (getCurrentStatus_resolved env fieldId issue w H)).
  cbv zeta.
  set (c := readField issue fieldId).
  set (r := logged [CallGetCurrentStatus (key issue)] w).
  set (v := buildNewStatus (clock env (dates r)) u c d).
  assert (Ts : exists pre, trace (shownWorld env u d issue c r)
                            = trace w ++ pre
                 /\ weight succeeds pre = 0%nat /\ weight fails pre = 0%nat).
  { exists (CallGetCurrentStatus (key issue) :: displayLines issue c v).
    unfold shownWorld. fold v.
    destruct d; cbn; rewrite <- app_assoc; repeat split. }
  destruct Ts as (pre & Ts & Ps & Pf).
  assert (Ta : exists pre', trace (answeredWorld env u d issue c r)
                            = trace w ++ pre'
                 /\ weight succeeds pre' = 0%nat
                 /\ weight fails pre' = 0%nat).
  { exists (pre ++ [ConsoleLog []; Question applyQuestion]).
    unfold answeredWorld. cbn [trace asked logged]. rewrite Ts.
    rewrite <- !app_assoc, !weight_app, Ps, Pf. repeat split. }
  destruct Ta as (pre' & Ta & Ps' & Pf').
  assert (Rs : resolved fieldId (shownWorld env u d issue c r)).
  { destruct (shownWorld_frame env u d issue c r) as (E & _).
    destruct H as [H1 H2]. split; [rewrite E|]; assumption. }
  assert (Ra : resolved fieldId (answeredWorld env u d issue c r)).
  { destruct (answeredWorld_frame env u d issue c r) as (E & _).
    destruct H as [H1 H2]. split; [rewrite E|]; assumption. }
  assert (U : forall st0 w0 p,
             resolved fieldId w0 -> trace w0 = trace w ++ p ->
             weight succeeds p = 0%nat -> weight fails p = 0%nat ->
             updatedCount st0 = updatedCount st ->
             skippedCount st0 = skippedCount st ->
             exists st' w' evs,
               updateWithSpinner env issue v st0 w0 = (Ok st', w')
               /\ trace w' = trace w ++ evs
               /\ resolved fieldId w'
               /\ updatedCount st'
                  = (updatedCount st + weight succeeds evs)%nat
               /\ (skippedCount st' + weight succeeds evs + weight fails evs
                   = S (skippedCount st))%nat).
  { intros st0 w0 p R0 T0 P1 P2 Hu Hk.
    destruct (updateWithSpinner_accounts fieldId issue v st0 w0 R0)
      as (st' & w' & evs & E & T & R & Cu & Ck & One).
    exists st', w', (p ++ evs). rewrite T, T0, <- app_assoc, !weight_app.
    repeat split; try apply R; auto; lia. }
  destruct (applyAll st); [left; apply (U st _ pre); auto|].
  unfold answerAt.
  destruct (stdin env (questions r)) as [line|] eqn:El; [left|right; eauto].
  repeat match goal with
         | |- context [if ?b then _ else _] => destruct b
         end.
  - apply (U st _ pre'); auto.
  - apply (U _ _ pre'); auto.
  - eexists _, _, _. split; [reflexivity|]. cbn [trace logged].
    rewrite Ta, <- app_assoc. split; [reflexivity|].
    rewrite !weight_app, Ps', Pf'. cbn. repeat split; try apply Ra; lia.
  - eexists _, _, _. split; [reflexivity|]. cbn [trace logged].
    rewrite Ta, <- app_assoc. split; [reflexivity|].
    rewrite !weight_app, Ps', Pf'. cbn. repeat split; try apply Ra; lia.
Qed.

(** X10. With the identifier resolved, the loop returns, whatever the
    server does, unless a question is left without an answer; and when it
    returns it has accounted for every issue exactly once: the updated
    count has grown by the number of successes the spinner shows, and
    updated, skipped and failed together by the number of issues; the
    issues in neither count are exactly the failed updates. *)
Theorem every_issue_is_updated_skipped_or_failed (fieldId : jsstring)
    (found : list JiraIssue) (st : LoopState) (w : World) :
  resolved fieldId w ->
  (exists st' w' evs,
     forOf (interactiveBody env toLowerCase u d) found st w = (Ok st', w')
     /\ trace w' = trace w ++ evs
     /\ updatedCount st' = (updatedCount st + weight succeeds evs)%nat
     /\ (updatedCount st' + skippedCount st' + weight fails evs
         = updatedCount st + skippedCount st + length found)%nat)
  \/ (exists w',
        forOf (interactiveBody env toLowerCase u d) found st w = (Pending, w')
        /\ exists n, stdin env n = None).
Proof.
  revert st w. induction found as [|issue found IH]; intros st w H.
  - left. exists st, w, []. simpl. rewrite app_nil_r. unfold ret.
    repeat split; lia.
  - simpl forOf.
    destruct (interactiveBody_accounts fieldId issue st w H)
      as [(st1 & w1 & e1 & E1 & T1 & R1 & U1 & K1)|(w1 & E1 & N1)].
    2:{ right. unfold bind. rewrite E1. eauto. }
    rewrite (bind_Ok _ _ _ _ _ E1).
    destruct (IH st1 w1 R1)
      as [(st' & w' & e2 & E2 & T2 & U2 & K2)|(w' & E2 & N2)].
    2:{ right. eauto. }
    left. exists st', w', (e1 ++ e2). split; [exact E2|].
    rewrite T2, T1, <- app_assoc, !weight_app. simpl length.
    repeat split; lia.
Qed.

(** Under the apply-all latch a step asks nothing and keeps the latch. *)
Lemma interactiveBody_latched (issue : JiraIssue) (st : LoopState) :
  applyAll st = true ->
  Emits (perIssue Prompted) 0 latched
    (interactiveBody env toLowerCase u d issue st).
Proof.
  intros Ha. unfold interactiveBody.
  destruct (skipAll st); [apply emits_ret; exact Ha|].
  eapply (emits_bind0 _ _ any);
    [apply (getCurrentStatus_emits env (perIssue Prompted) 0);
     try reflexivity; intros; simpl; lia|].
  intros c _.
  eapply (emits_bind0 _ _ any);
    [apply callBuildNewStatus_emits; try reflexivity; intros; simpl; lia|].
  intros v _.
  eapply (emits_bind0 _ _ any);
    [apply (displayTicketUpdate_emits (perIssue Prompted) 0);
     try reflexivity; intros; simpl; lia|].
  intros _ _. rewrite Ha. unfold updateWithSpinner.
  apply emits_then; [apply emits_emit; simpl; lia|].
  apply (emits_tryCatch _ 0 0); [lia | |].
  - eapply (emits_bind0 _ _ any);
      [apply (updateCurrentStatus_emits env (perIssue Prompted) 0 0);
       try reflexivity; intros; simpl; lia|].
    intros _ _. apply emits_then; [apply emits_emit; simpl; lia|].
    apply emits_ret. exact Ha.
  - intros e. apply emits_then; [apply emits_emit; simpl; lia|].
    apply emits_ret. exact Ha.
Qed.

(** X11. Once the apply-all latch is set, the operator is never asked
    again: the rest of the loop puts no question, whatever the server
    answers and whether the updates succeed or fail. *)
Theorem apply_all_never_asks_again (found : list JiraIssue) (st : LoopState)
    (w : World) :
  applyAll st = true ->
  exists evs,
    trace (forOf (interactiveBody env toLowerCase u d) found st w).2
    = trace w ++ evs
    /\ weight (perIssue Prompted) evs = 0%nat.
Proof.
  intros Ha.
  assert (E : Emits (perIssue Prompted) 0 latched
                (forOf (interactiveBody env toLowerCase u d) found st)).
  { revert st Ha. induction found as [|issue found IH]; intros st Ha.
    - simpl. apply emits_ret. exact Ha.
    - simpl. eapply emits_bind0; [apply interactiveBody_latched, Ha|].
      intros st1 H1. apply IH, H1. }
  destruct (E w) as (evs & T & W & _). exists evs. split; [exact T | lia].
Qed.

(** X12. The interactive mode touches each listed issue at most once: over
    n issues it fetches at most n fields, shows at most n tickets, asks at
    most n questions, calls at most n updates and sends at most n writes,
    and it sends no search. *)
Theorem interactive_mode_touches_each_issue_once (found : list JiraIssue)
    (w : World) :
  exists evs,
    trace (processTicketsInteractive env toLowerCase found u d w).2
    = trace w ++ evs
    /\ (forall kind, (weight (perIssue kind) evs <= length found)%nat)
    /\ (weight puts evs <= length found)%nat
    /\ weight searches evs = 0%nat.
Proof.
  destruct (processTicketsInteractive env toLowerCase found u d w)
    as [r w'] eqn:E.
  assert (P : Emits puts (length found * (0 + 0 + 0 + 0 + 1)) any
                (processTicketsInteractive env toLowerCase found u d)).
  { apply processTicketsInteractive_emits; try reflexivity;
      intros; simpl; lia. }
  destruct (P w) as (evs & T & W & _). rewrite E in T. simpl in T.
  exists evs. split; [exact T|]. split; [|split].
  - intros kind.
    assert (K : Emits (perIssue kind) (length found * 1) any
                  (processTicketsInteractive env toLowerCase found u d)).
    { destruct kind.
      + apply (processTicketsInteractive_emits env toLowerCase
                 (perIssue Fetched) 1 0 0 0 0); try reflexivity;
          intros; simpl; lia.
      + apply (processTicketsInteractive_emits env toLowerCase
                 (perIssue Displayed) 0 1 0 0 0); try reflexivity;
          intros; simpl; lia.
      + apply (processTicketsInteractive_emits env toLowerCase
                 (perIssue Prompted) 0 0 1 0 0); try reflexivity;
          intros; simpl; lia.
      + apply (processTicketsInteractive_emits env toLowerCase
                 (perIssue Mutated) 0 0 0 1 0); try reflexivity;
          intros; simpl; lia. }
    pose proof (emits_run _ _ _ _ _ _ _ _ K E T). lia.
  - lia.
  - assert (S0 : Emits searches (length found * (0 + 0 + 0 + 0 + 0)) any
                   (processTicketsInteractive env toLowerCase found u d)).
    { apply processTicketsInteractive_emits; try reflexivity;
        intros; simpl; lia. }
    pose proof (emits_run _ _ _ _ _ _ _ _ S0 E T). lia.
Qed.

(** X21. A question that no line answers leaves the run pending: the
    ticket was shown and the question put, and then nothing more happens;
    the remaining issues are not touched, nothing is written, no summary
    is printed, and the process ends with status 0. *)
Theorem unanswered_question_leaves_the_run_pending
    (issue : JiraIssue) (rest : list JiraIssue) (st : LoopState)
    (w w1 : World) (c : option jsstring) :
  skipAll st = false -> applyAll st = false ->
  getCurrentStatus env issue w = (Ok c, w1) ->
  stdin env (questions w1) = None ->
  let v := buildNewStatus (clock env (dates w1)) u c d in
  let w' := answeredWorld env u d issue c w1 in
  forOf (interactiveBody env toLowerCase u d) (issue :: rest) st w
  = (Pending, w')
  /\ trace w' = trace w1 ++ displayLines issue c v
                  ++ [ConsoleLog []; Question applyQuestion]
  /\ (st = mkLoop false false 0 0 ->
      processTicketsInteractive env toLowerCase (issue :: rest) u d w
      = (Pending, w')
      /\ exitStatus
           (processTicketsInteractive env toLowerCase (issue :: rest) u d w).1
         = 0%Z).
Proof.
  intros Hs Ha Hg Hline v w'.
  pose proof (interactiveBody_read env toLowerCase u d issue st w w1 c Hs Hg)
    as Hbody.
  cbv zeta in Hbody. unfold answerAt in Hbody.
  rewrite Ha, Hline in Hbody. fold w' in Hbody.
  assert (Hloop : forOf (interactiveBody env toLowerCase u d)
                    (issue :: rest) st w = (Pending, w')).
  { simpl. unfold bind. rewrite Hbody. reflexivity. }
  split; [exact Hloop|]. split.
  - subst w' v. unfold answeredWorld, shownWorld.
    destruct d; cbn [trace asked logged dated]; rewrite <- !app_assoc;
      reflexivity.
  - intros ->.
    assert (E : processTicketsInteractive env toLowerCase (issue :: rest) u d w
                = (Pending, w')).
    { unfold processTicketsInteractive. unfold bind at 1.
      rewrite Hloop. reflexivity. }
    rewrite E. split; reflexivity.
Qed.

End Loop.

(** ** The command in dry-run mode *)

Section DryCommand.

Variable env : Env.
Variable toLowerCase encodeURIComponent : jsstring -> jsstring.
Variable u : jsstring.

(** A weight that sees only what a dry run must not do. *)
Variable mu : Event -> nat.
Hypothesis mu_log : forall line, mu (ConsoleLog line) = 0%nat.
Hypothesis mu_error : forall line, mu (ConsoleError line) = 0%nat.
Hypothesis mu_start : forall line, mu (SpinnerStart line) = 0%nat.
Hypothesis mu_succeed : forall line, mu (SpinnerSucceed line) = 0%nat.
Hypothesis mu_fail : forall line, mu (SpinnerFail line) = 0%nat.
Hypothesis mu_token : mu ExecToken = 0%nat.
Hypothesis mu_field : forall t, mu (Fetch t GET_field) = 0%nat.
Hypothesis mu_call : forall q, mu (CallSearchIssues q) = 0%nat.
Hypothesis mu_get : forall k, mu (CallGetCurrentStatus k) = 0%nat.
Hypothesis mu_show : forall k, mu (CallDisplayTicketUpdate k) = 0%nat.
Hypothesis mu_search : forall t q f, mu (Fetch t (GET_search q f 100)) = 0%nat.

Lemma handleUpdate_dry_emits (options : UpdateOptions) :
  dryRun options = true ->
  Emits mu 0 any (handleUpdate env toLowerCase encodeURIComponent u options).
Proof.
  intros Hdry. unfold handleUpdate. rewrite Hdry.
  assert (L : forall line, Emits mu 0 any (log line))
    by (intros; apply emits_emit; rewrite mu_log; lia).
  eapply (emits_bind0 mu _ any); [apply isAuthenticated_emits, mu_token|].
  intros authenticated _.
  apply emits_then.
  { destruct (negb authenticated); [|apply emits_ret; exact I].
    apply emits_then; [apply L | apply emits_exit]. }
  apply emits_then; [apply emits_emit; rewrite mu_start; lia|].
  apply (emits_tryCatch mu 0 0); [lia | |].
  - eapply (emits_bind0 mu _ any).
    { eapply emits_weaken;
        [reflexivity | |
         apply (searchIssues_emits env encodeURIComponent mu 0 mu_token
                  mu_field mu_call)];
        [auto | intros; rewrite mu_search; lia]. }
    intros found _.
    apply emits_then; [apply emits_emit; rewrite mu_succeed; lia|].
    destruct (Nat.eqb _ 0).
    { apply emits_then; apply L. }
    apply emits_then; [apply L|].
    eapply emits_weaken;
      [| |apply (processTicketsDryRun_emits env mu 0 0 mu_log mu_token
                   mu_field)];
      [lia | auto | intros; rewrite mu_get; lia
       | intros; rewrite mu_show; lia].
  - intros e.
    apply emits_then; [apply emits_emit; rewrite mu_fail; lia|].
    apply emits_then; [apply emits_emit; rewrite mu_error; lia|].
    apply emits_exit.
Qed.

End DryCommand.

(** X13. Under --dry-run the whole command, from the token to the count,
    calls no update, sends no write and asks no question, whatever the
    server answers. *)
Theorem dry_run_command_never_writes_or_asks (env : Env)
    (toLowerCase encodeURIComponent : jsstring -> jsstring) (u : jsstring)
    (options : UpdateOptions) (w : World) :
  dryRun options = true ->
  exists evs,
    trace (handleUpdate env toLowerCase encodeURIComponent u options w).2
    = trace w ++ evs
    /\ weight writes evs = 0%nat
    /\ weight (perIssue Prompted) evs = 0%nat.
Proof.
  intros Hdry.
  destruct (handleUpdate env toLowerCase encodeURIComponent u options w)
    as [r w'] eqn:E.
  assert (W : Emits writes 0 any
                (handleUpdate env toLowerCase encodeURIComponent u options))
    by (apply handleUpdate_dry_emits; try reflexivity; exact Hdry).
  assert (Q : Emits (perIssue Prompted) 0 any
                (handleUpdate env toLowerCase encodeURIComponent u options))
    by (apply handleUpdate_dry_emits; try reflexivity; exact Hdry).
  destruct (W w) as (evs & T & Hw & _). rewrite E in T. simpl in T.
  exists evs. split; [exact T|].
  pose proof (emits_run _ _ _ _ _ _ _ _ Q E T). lia.
Qed.

(** ** How the process ends *)

Section Ends.

Variable env : Env.
Variable toLowerCase encodeURIComponent : jsstring -> jsstring.
Variable P : Prop.

Lemma unless_ret {A} (a : A) : Unless P (ret a).
Proof. intros w. exact I. Qed.

Lemma unless_throw {A} (e : Thrown) : Unless P (@throw A e).
Proof. intros w. exact I. Qed.

Lemma unless_emit (e : Event) : Unless P (emit e).
Proof. intros w. exact I. Qed.

Lemma unless_bind {A B} (m : M A) (f : A -> M B) :
  Unless P m -> (forall a, Unless P (f a)) -> Unless P (bind m f).
Proof.
  intros Hm Hf w. unfold bind.
  specialize (Hm w). destruct (m w) as [[a|e|c|] w1]; simpl in *.
  - apply Hf.
  - exact I.
  - exact Hm.
  - exact Hm.
Qed.

Lemma unless_tryCatch {A} (m : M A) (handler : Thrown -> M A) :
  Unless P m -> (forall e, Unless P (handler e)) ->
  Unless P (tryCatch m handler).
Proof.
  intros Hm Hh w. unfold tryCatch.
  specialize (Hm w). destruct (m w) as [[a|e|c|] w1]; simpl in *.
  - exact I.
  - apply Hh.
  - exact Hm.
  - exact Hm.
Qed.

Lemma unless_settle {A} (r : Settled A) : Unless P (settle r).
Proof. destruct r; [apply unless_ret | apply unless_throw]. Qed.

Lemma unless_forOf {A S} (body : A -> S -> M S) (xs : list A) (s : S) :
  (forall x s', Unless P (body x s')) -> Unless P (forOf body xs s).
Proof.
  intros Hb. revert s. induction xs as [|x xs IH]; intros s; simpl.
  - apply unless_ret.
  - apply unless_bind; [apply Hb | intros; apply IH].
Qed.

(** A protected block whose handler exits with status 1 returns, exits
    with status 1, or is left pending as its body is. *)
Lemma tryCatch_ends (body : M unit) (handler : Thrown -> M unit) :
  Unless P body ->
  (forall e w, (handler e w).1 = Exit 1) ->
  forall w, (tryCatch body handler w).1 = Ok tt
            \/ (tryCatch body handler w).1 = Exit 1
            \/ ((tryCatch body handler w).1 = Pending /\ P).
Proof.
  intros Nb Hh w. unfold tryCatch. specialize (Nb w).
  destruct (body w) as [[[]|e|code|] w1]; simpl in *.
  - left. reflexivity.
  - right. left. apply Hh.
  - destruct Nb.
  - right. right. split; [reflexivity | exact Nb].
Qed.

Lemma unless_jiraFetch (req : Request) : Unless P (jiraFetch env req).
Proof.
  intros w.
  destruct (jiraFetch_frame env req w) as (r & w' & E & _ & _ & _ & Hx).
  rewrite E. destruct r; simpl in *; try exact I; destruct Hx.
Qed.

Lemma unless_getCurrentStatusFieldId :
  Unless P (getCurrentStatusFieldId env).
Proof.
  assert (L : Unless P (lookupCurrentStatusField env)).
  { unfold lookupCurrentStatusField.
    apply unless_bind; [apply unless_jiraFetch|]. intros payload.
    apply unless_bind.
    - destruct payload; [apply unless_ret | apply unless_throw..].
    - intros fs. destruct (List.find _ fs); [|apply unless_throw].
      apply unless_bind; [|intros; apply unless_ret].
      intros w. exact I. }
  unfold getCurrentStatusFieldId. apply unless_bind.
  - intros w. exact I.
  - intros [fieldId|]; [|exact L].
    destruct (truthy fieldId); [apply unless_ret | exact L].
Qed.

Lemma unless_searchIssues (q : jsstring) :
  Unless P (searchIssues env encodeURIComponent q).
Proof.
  unfold searchIssues.
  apply unless_bind; [apply unless_emit|]. intros _.
  apply unless_bind; [apply unless_getCurrentStatusFieldId|]. intros fieldId.
  cbv zeta. apply unless_bind; [apply unless_jiraFetch|]. intros payload.
  apply unless_bind; [|intros; apply unless_ret].
  destruct payload;
    [apply unless_throw | apply unless_ret | apply unless_throw].
Qed.

Lemma unless_getCurrentStatus (issue : JiraIssue) :
  Unless P (getCurrentStatus env issue).
Proof.
  unfold getCurrentStatus.
  apply unless_bind; [apply unless_emit|]. intros _.
  apply unless_bind; [apply unless_getCurrentStatusFieldId|]. intros fieldId.
  destruct (fieldsGet issue fieldId) as [[value|]|]; apply unless_ret.
Qed.

Lemma unless_updateCurrentStatus (issueKey v : jsstring) :
  Unless P (updateCurrentStatus env issueKey v).
Proof.
  unfold updateCurrentStatus.
  apply unless_bind; [apply unless_emit|]. intros _.
  apply unless_bind; [apply unless_getCurrentStatusFieldId|]. intros fieldId.
  apply unless_bind; [apply unless_jiraFetch | intros; apply unless_ret].
Qed.

Lemma unless_displayTicketUpdate (issue : JiraIssue) (c : option jsstring)
    (v : jsstring) :
  Unless P (displayTicketUpdate issue c v).
Proof.
  intros w. rewrite displayTicketUpdate_eq. exact I.
Qed.

Lemma unless_updateWithSpinner (issue : JiraIssue) (v : jsstring)
    (st : LoopState) :
  Unless P (updateWithSpinner env issue v st).
Proof.
  unfold updateWithSpinner.
  apply unless_bind; [apply unless_emit|]. intros _.
  apply unless_tryCatch.
  - apply unless_bind; [apply unless_updateCurrentStatus|]. intros _.
    apply unless_bind; [apply unless_emit | intros; apply unless_ret].
  - intros e.
    apply unless_bind; [apply unless_emit | intros; apply unless_ret].
Qed.

(** The one place where the process can be left pending: a question that
    no line answers. *)
Lemma unless_prompt (question : jsstring) :
  ((exists n, stdin env n = None) -> P) ->
  Unless P (prompt env toLowerCase question).
Proof.
  intros HP w. unfold prompt.
  destruct (stdin env (questions w)) eqn:E; simpl; [exact I|].
  apply HP. eauto.
Qed.

Lemma unless_interactiveBody (u : jsstring) (d : bool) (issue : JiraIssue)
    (st : LoopState) :
  ((exists n, stdin env n = None) -> P) ->
  Unless P (interactiveBody env toLowerCase u d issue st).
Proof.
  intros HP.
  unfold interactiveBody. destruct (skipAll st); [apply unless_ret|].
  apply unless_bind; [apply unless_getCurrentStatus|]. intros c.
  apply unless_bind; [intros w; destruct d; exact I|]. intros v.
  apply unless_bind; [apply unless_displayTicketUpdate|]. intros _.
  destruct (applyAll st); [apply unless_updateWithSpinner|].
  apply unless_bind; [apply unless_emit|]. intros _.
  apply unless_bind; [apply unless_prompt, HP|]. intros answer.
  repeat match goal with
         | |- Unless _ (if ?b then _ else _) => destruct b
         end;
    try apply unless_updateWithSpinner;
    (apply unless_bind; [apply unless_emit | intros; apply unless_ret]).
Qed.

Lemma unless_processTicketsInteractive (found : list JiraIssue)
    (u : jsstring) (d : bool) :
  ((exists n, stdin env n = None) -> P) ->
  Unless P (processTicketsInteractive env toLowerCase found u d).
Proof.
  intros HP. unfold processTicketsInteractive.
  apply unless_bind;
    [apply unless_forOf; intros; apply unless_interactiveBody, HP|].
  intros st. repeat (apply unless_bind; [apply unless_emit | intros _]).
  apply unless_emit.
Qed.

Lemma unless_processTicketsDryRun (found : list JiraIssue)
    (u : jsstring) (d : bool) :
  Unless P (processTicketsDryRun env found u d).
Proof.
  unfold processTicketsDryRun.
  apply unless_bind; [apply unless_emit|]. intros _.
  apply unless_bind.
  - apply unless_forOf. intros issue s. unfold dryRunBody.
    apply unless_bind; [apply unless_getCurrentStatus|]. intros c.
    apply unless_bind; [intros w; destruct d; exact I|]. intros v.
    apply unless_displayTicketUpdate.
  - intros _. apply unless_bind; [apply unless_emit | intros _].
    apply unless_emit.
Qed.

(** What the command runs once the token is there. *)
Lemma unless_search_and_process (u : jsstring) (options : UpdateOptions) :
  (dryRun options = false -> (exists n, stdin env n = None) -> P) ->
  Unless P
    (let* issues := searchIssues env encodeURIComponent (jql options) in
     emit (SpinnerSucceed (str "Found " ++ decimal (N.of_nat (length issues))
                           ++ str " ticket(s)")) ;;
     if Nat.eqb (length issues) 0 then
       log (str "No tickets found matching the query.") ;;
       log (str "JQL: " ++ jql options)
     else
       log (str "JQL: " ++ jql options) ;;
       if dryRun options then
         processTicketsDryRun env issues u (datePrefix options)
       else
         processTicketsInteractive env toLowerCase issues u
           (datePrefix options)).
Proof.
  intros HP.
  apply unless_bind; [apply unless_searchIssues|]. intros found.
  apply unless_bind; [apply unless_emit|]. intros _.
  destruct (Nat.eqb _ 0).
  - apply unless_bind; [apply unless_emit | intros _; apply unless_emit].
  - apply unless_bind; [apply unless_emit|]. intros _.
    destruct (dryRun options);
      [apply unless_processTicketsDryRun
      | apply unless_processTicketsInteractive, HP; reflexivity].
Qed.

End Ends.

(** X14. The command ends in one of three ways, whatever the environment
    does: it returns, and the process ends with status 0; it calls
    process.exit(1); or it is left pending, which happens only in the
    interactive mode at a question that no line answers, and the process
    then ends with status 0. No rejection leaves it unhandled, no other
    status is given, and a dry run is never left pending. *)
Theorem command_returns_exits_1_or_is_left_pending (env : Env)
    (toLowerCase encodeURIComponent : jsstring -> jsstring) (u : jsstring)
    (options : UpdateOptions) (w : World) :
  let run := handleUpdate env toLowerCase encodeURIComponent u options w in
  (run.1 = Ok tt
   \/ run.1 = Exit 1
   \/ (run.1 = Pending
       /\ dryRun options = false /\ exists n, stdin env n = None))
  /\ (exitStatus run.1 = 0%Z \/ exitStatus run.1 = 1%Z).
Proof.
  intros run.
  assert (H : run.1 = Ok tt
              \/ run.1 = Exit 1
              \/ (run.1 = Pending
                  /\ dryRun options = false /\ exists n, stdin env n = None)).
  { subst run. unfold handleUpdate.
    rewrite (bind_Ok _ _ _ _ _ (isAuthenticated_token env w)).
    destruct (bool_decide (accessToken env (tokenCalls w) <> None));
      cbn [negb]; [|right; left; reflexivity].
    match goal with
    | |- context [tryCatch ?body ?handler] =>
        exact (tryCatch_ends
                 (dryRun options = false /\ exists n, stdin env n = None)
                 body handler
                 (unless_search_and_process env toLowerCase
                    encodeURIComponent _ u options (fun a b => conj a b))
                 ltac:(intros; reflexivity)
                 (logged [SpinnerStart (str "Searching for tickets...")]
                    (tokenRead w)))
    end. }
  split; [exact H|].
  destruct H as [-> | [-> | [-> _]]]; simpl; auto.
Qed.


(** ** The composer over its own output, and the display *)

Lemma hasNonWhiteSpace_buildNewStatus (now : Date) (u : jsstring)
    (c : option jsstring) (d : bool) :
  hasNonWhiteSpace u = true \/ d = true ->
  hasNonWhiteSpace (buildNewStatus now u c d) = true.
Proof.
  intros H. unfold buildNewStatus.
  set (today := hd [] (split 84 (toISOString now))).
  assert (L : hasNonWhiteSpace
                (if d then today ++ str ": " ++ u else u) = true).
  { destruct d.
    - rewrite !hasNonWhiteSpace_app.
      replace (hasNonWhiteSpace (str ": ")) with true by reflexivity.
      apply orb_true_r.
    - destruct H as [H|H]; [exact H | discriminate]. }
  destruct c as [current|]; [|exact L].
  destruct (truthy current && truthy (trim current)); [|exact L].
  rewrite hasNonWhiteSpace_app, L. reflexivity.
Qed.

(** X15. Updates stack: a value composed from an update text that is not
    blank, or under the date prefix, is kept whole by the next update,
    which puts its own first line and a line feed before it. *)
Theorem the_next_update_keeps_the_last (now now' : Date) (u u' : jsstring)
    (c : option jsstring) (d d' : bool) :
  hasNonWhiteSpace u = true \/ d = true ->
  buildNewStatus now' u' (Some (buildNewStatus now u c d)) d'
  = buildNewStatus now' u' None d' ++ LF ++ buildNewStatus now u c d.
Proof.
  intros H.
  pose proof (hasNonWhiteSpace_buildNewStatus now u c d H) as K.
  unfold buildNewStatus at 1.
  rewrite truthy_trim, hasNonWhiteSpace_truthy, K. reflexivity.
Qed.

(** X16. A current value that is not empty but blank is shown to the
    operator as it is, not as "(empty)", while the proposed value shown
    under it has dropped it. *)
Theorem blank_value_is_shown_but_dropped (now : Date) (issue : JiraIssue)
    (u current : jsstring) (d : bool) (w : World) :
  truthy current = true ->
  forallb isWhiteSpace current = true ->
  displayTicketUpdate issue (Some current)
    (buildNewStatus now u (Some current) d) w
  = (Ok tt,
     logged [CallDisplayTicketUpdate (key issue);
             ConsoleLog (LF ++ rule);
             ConsoleLog (key issue ++ str " - " ++ summary issue);
             ConsoleLog (str "Status: " ++ statusName issue);
             ConsoleLog [];
             ConsoleLog (str "Current Status Field:");
             ConsoleLog current;
             ConsoleLog [];
             ConsoleLog (str "Proposed New Value:");
             ConsoleLog (buildNewStatus now u None d)] w).
Proof.
  intros Ht Hb. rewrite displayTicketUpdate_eq. unfold displayLines.
  rewrite Ht.
  replace (buildNewStatus now u (Some current) d)
    with (buildNewStatus now u None d); [reflexivity|].
  unfold buildNewStatus.
  rewrite truthy_trim, (hasNonWhiteSpace_blank current Hb), andb_false_r.
  reflexivity.
Qed.

(** ** The login *)

(** X17. [login] returns exactly when cloudflared is found and the login
    ends with status 0; in every other case, a missing program, a status
    that is not 0 or is null, or anything thrown on the way, it throws an
    Error object, never another value. *)
Theorem login_returns_or_throws_an_error (lenv : LoginEnv) (w : World) :
  (whichCloudflared lenv = Fulfilled tt
   /\ accessLogin lenv = Fulfilled (Some 0%Z)
   /\ login lenv w = (Ok tt, w))
  \/ (~ (whichCloudflared lenv = Fulfilled tt
         /\ accessLogin lenv = Fulfilled (Some 0%Z))
      /\ exists message, login lenv w = (Throw (ErrorObj message), w)).
Proof.
  unfold login, tryCatch, bind, settle, throw, ret.
  destruct (whichCloudflared lenv) as [[]|e].
  2:{ right. split; [intros [X _]; discriminate | eauto]. }
  destruct (accessLogin lenv) as [status|e].
  2:{ right. split; [intros [_ X]; discriminate|].
      destruct e; eauto. }
  destruct (bool_decide (status = Some 0%Z)) eqn:E; cbn [negb].
  - apply bool_decide_eq_true in E. subst status. left. auto.
  - apply bool_decide_eq_false in E. right. split; [|eauto].
    intros [_ [= X]]. apply E. exact X.
Qed.

Lemma login_not_installed (lenv : LoginEnv) (w : World) (e : Thrown) :
  whichCloudflared lenv = Rejected e ->
  login lenv w = (Throw (ErrorObj notInstalled), w).
Proof.
  intros H. unfold login, tryCatch, bind, settle, throw. rewrite H.
  reflexivity.
Qed.

Lemma login_bad_status (lenv : LoginEnv) (w : World) (status : option Z) :
  whichCloudflared lenv = Fulfilled tt ->
  accessLogin lenv = Fulfilled status ->
  status <> Some 0%Z ->
  login lenv w = (Throw (ErrorObj (str "Authentication failed")), w).
Proof.
  intros H1 H2 H3. unfold login, tryCatch, bind, settle, throw, ret.
  rewrite H1, H2. rewrite (bool_decide_eq_false_2 _ H3). reflexivity.
Qed.

Lemma login_ok (lenv : LoginEnv) (w : World) :
  whichCloudflared lenv = Fulfilled tt ->
  accessLogin lenv = Fulfilled (Some 0%Z) ->
  login lenv w = (Ok tt, w).
Proof.
  intros H1 H2. unfold login, tryCatch, bind, settle, throw, ret.
  rewrite H1, H2. reflexivity.
Qed.

(** X18. The auth command: when cloudflared is not found it prints the
    install hint and exits with status 1, whatever the search for it
    threw; when the login ends with a status that is not 0, or null, it
    prints "Authentication failed" and exits with status 1; when the login
    ends with status 0 it prints the success line and returns. *)
Theorem handleAuth_outcomes (lenv : LoginEnv) (w : World) :
  let banner :=
    ConsoleLog (str "Authenticating with Jira via Cloudflare Access..."
                ++ LF) in
  (forall e, whichCloudflared lenv = Rejected e ->
     handleAuth lenv w
     = (Exit 1, logged [banner; ConsoleError notInstalled] w))
  /\ (forall status,
        whichCloudflared lenv = Fulfilled tt ->
        accessLogin lenv = Fulfilled status -> status <> Some 0%Z ->
        handleAuth lenv w
        = (Exit 1,
           logged [banner; ConsoleError (str "Authentication failed")] w))
  /\ (whichCloudflared lenv = Fulfilled tt ->
      accessLogin lenv = Fulfilled (Some 0%Z) ->
      handleAuth lenv w
      = (Ok tt,
         logged [banner;
                 ConsoleLog (LF ++ str "Authentication successful! Token valid for 24 hours.")]
           w)).
Proof.
  intros banner. unfold handleAuth, log.
  split; [|split].
  - intros e H. unfold bind at 1. unfold emit at 1. unfold tryCatch.
    rewrite (bind_Throw _ _ _ _ _ (login_not_installed lenv _ e H)).
    unfold bind, emit, exit. rewrite logged_logged. reflexivity.
  - intros status H1 H2 H3. unfold bind at 1. unfold emit at 1.
    unfold tryCatch.
    rewrite (bind_Throw _ _ _ _ _ (login_bad_status lenv _ status H1 H2 H3)).
    unfold bind, emit, exit. rewrite logged_logged. reflexivity.
  - intros H1 H2. unfold bind at 1. unfold emit at 1. unfold tryCatch.
    rewrite (bind_Ok _ _ _ _ _ (login_ok lenv _ H1 H2)).
    unfold emit. rewrite logged_logged. reflexivity.
Qed.

(** ** The lookup that succeeds, and the search that is refused *)

Section Lookup.

Variable env : Env.
Variable toLowerCase encodeURIComponent : jsstring -> jsstring.

Lemma find_first (before after : list JiraField) (field : JiraField) :
  Forall (fun f => isCurrentStatusField f = false) before ->
  isCurrentStatusField field = true ->
  List.find (fun f =>
               bool_decide (name f = str "Current Status") && custom f)
    (before ++ field :: after) = Some field.
Proof.
  intros Hb Hf. induction Hb as [|f before Hn _ IH]; simpl.
  - unfold isCurrentStatusField in Hf. rewrite Hf. reflexivity.
  - unfold isCurrentStatusField in Hn. rewrite Hn. exact IH.
Qed.

Lemma getCurrentStatusFieldId_lookup (w : World) (token : jsstring)
    (response : HttpResponse) (before after : list JiraField)
    (field : JiraField) :
  currentStatusFieldId w = None ->
  accessToken env (tokenCalls w) = Some token ->
  remote env (fetchCalls w) GET_field = Fulfilled response ->
  ok response = true ->
  json response = Fulfilled (PFields (before ++ field :: after)) ->
  Forall (fun f => isCurrentStatusField f = false) before ->
  isCurrentStatusField field = true ->
  getCurrentStatusFieldId env w
  = (Ok (id field), cached (id field) (requested (trim token) GET_field w)).
Proof.
  intros Hc Ht Hr Hok Hj Hb Hf.
  unfold getCurrentStatusFieldId, bind at 1, getCache. rewrite Hc.
  unfold lookupCurrentStatusField.
  rewrite (bind_Ok _ _ _ _ _
             (jiraFetch_ok env GET_field w token response _ Ht Hr Hok Hj)).
  unfold bind at 1. cbn [asFields]. unfold ret at 1.
  rewrite (find_first before after field Hb Hf). reflexivity.
Qed.

(** X19. A first resolution takes the first field of the answer that is
    custom and named "Current Status", passing over the fields before it
    that are not both, and caches its identifier; when that identifier is
    not empty, the next call returns it with no request and no event. *)
Theorem first_matching_field_is_cached_and_reused (w : World)
    (token : jsstring) (response : HttpResponse)
    (before after : list JiraField) (field : JiraField) :
  currentStatusFieldId w = None ->
  accessToken env (tokenCalls w) = Some token ->
  remote env (fetchCalls w) GET_field = Fulfilled response ->
  ok response = true ->
  json response = Fulfilled (PFields (before ++ field :: after)) ->
  Forall (fun f => isCurrentStatusField f = false) before ->
  isCurrentStatusField field = true ->
  let w1 := cached (id field) (requested (trim token) GET_field w) in
  getCurrentStatusFieldId env w = (Ok (id field), w1)
  /\ (id field <> [] ->
      getCurrentStatusFieldId env w1 = (Ok (id field), w1)).
Proof.
  intros Hc Ht Hr Hok Hj Hb Hf w1. split.
  - apply getCurrentStatusFieldId_lookup with (response := response)
      (before := before) (after := after); assumption.
  - intros Hne. apply getCurrentStatusFieldId_resolved. split; [reflexivity|].
    destruct (id field); [congruence | reflexivity].
Qed.

(** X20. A search the server refuses, at the start of a process: the
    field is looked up and cached, the search is sent once, and the
    command reports the status and the body of the answer and exits with
    status 1, with nothing fetched, shown, asked or updated. *)
Theorem refused_search_is_reported_with_status (u : jsstring)
    (options : UpdateOptions) (w : World) (token0 token1 token2 : jsstring)
    (fieldsAnswer searchAnswer : HttpResponse)
    (before after : list JiraField) (field : JiraField) :
  currentStatusFieldId w = None ->
  accessToken env (tokenCalls w) = Some token0 ->
  accessToken env (S (tokenCalls w)) = Some token1 ->
  accessToken env (S (S (tokenCalls w))) = Some token2 ->
  remote env (fetchCalls w) GET_field = Fulfilled fieldsAnswer ->
  ok fieldsAnswer = true ->
  json fieldsAnswer = Fulfilled (PFields (before ++ field :: after)) ->
  Forall (fun f => isCurrentStatusField f = false) before ->
  isCurrentStatusField field = true ->
  remote env (S (fetchCalls w))
    (searchRequest encodeURIComponent (jql options) (id field))
  = Fulfilled searchAnswer ->
  ok searchAnswer = false ->
  handleUpdate env toLowerCase encodeURIComponent u options w
  = (Exit 1,
     logged [SpinnerFail (str "Failed to search for tickets");
             ConsoleError (apiError searchAnswer)]
       (requested (trim token2)
          (searchRequest encodeURIComponent (jql options) (id field))
          (cached (id field)
             (requested (trim token1) GET_field
                (logged [SpinnerStart (str "Searching for tickets...");
                         CallSearchIssues (jql options)] (tokenRead w)))))).
Proof.
  intros Hc Ht0 Ht1 Ht2 Hr Hok Hj Hb Hf Hs Hno.
  assert (Ha : isAuthenticated env w = (Ok true, tokenRead w)).
  { rewrite isAuthenticated_token, Ht0. reflexivity. }
  apply (handleUpdate_search_fails env toLowerCase encodeURIComponent u
           options w (tokenRead w) _ (ErrorObj (apiError searchAnswer)) Ha).
  unfold searchIssues.
  set (ws := logged [SpinnerStart _] (tokenRead w)).
  rewrite (bind_Ok _ _ ws (logged [CallSearchIssues (jql options)] ws) tt)
    by reflexivity.
  rewrite (bind_Ok _ _ _ _ _
             (getCurrentStatusFieldId_lookup
                (logged [CallSearchIssues (jql options)] ws)
                token1 fieldsAnswer before after field Hc Ht1 Hr Hok Hj
                Hb Hf)).
  cbv zeta. fold (searchRequest encodeURIComponent (jql options) (id field)).
  rewrite (bind_Throw _ _ _ _ _
             (jiraFetch_refused env
                (searchRequest encodeURIComponent (jql options) (id field))
                (cached (id field)
                   (requested (trim token1) GET_field
                      (logged [CallSearchIssues (jql options)] ws)))
                token2 searchAnswer Ht2 Hs Hno)).
  subst ws. rewrite logged_logged. reflexivity.
Qed.

End Lookup.

(** ** Sample runs of the properties of the code *)

Lemma jiraFetch_without_token_witness :
  exists w',
    jiraFetch noTokenEnv GET_field initialWorld
    = (Throw (ErrorObj noTokenMessage), w')
    /\ fetchCalls w' = 0%nat.
Proof.
  destruct (jiraFetch_without_token_sends_nothing noTokenEnv GET_field
              initialWorld eq_refl) as (w' & E & F & _).
  exists w'. split; assumption.
Defined.

Lemma jiraFetch_returns_witness :
  exists token response,
    accessToken (schemaEnv sampleSchema) 0 = Some token
    /\ remote (schemaEnv sampleSchema) 0 GET_field = Fulfilled response
    /\ ok response = true.
Proof.
  edestruct (jiraFetch_returns_only_ok_bodies (schemaEnv sampleSchema)
               GET_field initialWorld)
    as (token & response & Ht & Hr & Hok & _).
  - vm_compute. reflexivity.
  - exists token, response. repeat split; assumption.
Defined.

Lemma failed_resolution_witness :
  currentStatusFieldId
    (getCurrentStatusFieldId noTokenEnv initialWorld).2 = None.
Proof.
  eapply (failed_resolution_keeps_the_cache noTokenEnv initialWorld).
  vm_compute. reflexivity.
Defined.

Lemma searchIssues_returns_witness :
  (searchIssues
     (sampleEnv sampleFieldId true true
        [ticket "RM-2" "b"; ticket "RM-1" "a"] [])
     (fun s => s) (str "project = RM") readyWorld).1
  = Ok [ticket "RM-2" "b"; ticket "RM-1" "a"].
Proof.
  rewrite (searchIssues_returns_the_answer
             (sampleEnv sampleFieldId true true
                [ticket "RM-2" "b"; ticket "RM-1" "a"] [])
             (fun s => s) sampleFieldId (str "project = RM") (str "token")
             readyWorld
             (mkResponse true 200 []
                (Fulfilled (PSearch
                   (mkSearch [ticket "RM-2" "b"; ticket "RM-1" "a"]
                      2 100 0))))
             (mkSearch [ticket "RM-2" "b"; ticket "RM-1" "a"] 2 100 0)
             (conj eq_refl eq_refl) eq_refl eq_refl eq_refl eq_refl).
  reflexivity.
Defined.

Lemma refused_write_witness :
  (updateWithSpinner (sampleEnv sampleFieldId true false [] [])
     (ticket "RM-1" "old") (str "On track") (mkLoop false false 3 4)
     readyWorld).1
  = Ok (mkLoop false false 3 4).
Proof.
  rewrite (refused_write_is_reported_with_status
             (sampleEnv sampleFieldId true false [] [])
             sampleFieldId (str "token") (str "On track")
             (ticket "RM-1" "old") (mkLoop false false 3 4) readyWorld
             (mkResponse false 500 (str "boom") (Fulfilled PNone))
             (conj eq_refl eq_refl) eq_refl eq_refl eq_refl).
  reflexivity.
Defined.

Lemma unauthenticated_witness :
  exitStatus
    (handleUpdate noTokenEnv asciiLowerCase (fun s => s) (str "On track")
       (sampleOptions false) initialWorld).1 = 1%Z
  /\ fetchCalls
       (handleUpdate noTokenEnv asciiLowerCase (fun s => s) (str "On track")
          (sampleOptions false) initialWorld).2 = 0%nat.
Proof.
  rewrite (unauthenticated_run_sends_nothing noTokenEnv asciiLowerCase
             (fun s => s) (str "On track") (sampleOptions false)
             initialWorld eq_refl).
  split; reflexivity.
Defined.

Lemma missing_field_witness :
  exitStatus
    (handleUpdate
       (schemaEnv [mkField (str "customfield_1") (str "Current Status") false])
       asciiLowerCase (fun s => s) (str "On track") (sampleOptions false)
       initialWorld).1 = 1%Z.
Proof.
  edestruct (missing_field_is_fatal_before_the_search
               (schemaEnv [mkField (str "customfield_1")
                             (str "Current Status") false])
               asciiLowerCase (fun s => s) (str "On track")
               (sampleOptions false) initialWorld)
    as (E & _).
  - reflexivity.
  - reflexivity.
  - reflexivity.
  - reflexivity.
  - reflexivity.
  - reflexivity.
  - repeat constructor.
  - rewrite E. reflexivity.
Defined.

Lemma written_is_shown_witness :
  exists st' w' evs,
    interactiveBody (sampleEnv sampleFieldId true true [] ["y"%string])
      asciiLowerCase (str "On track") true (ticket "RM-1" "old")
      (mkLoop false false 0 0) readyWorld = (Ok st', w')
    /\ trace w'
       = CallGetCurrentStatus (str "RM-1")
         :: displayLines (ticket "RM-1" "old") (Some (str "old"))
              (str "2026-01-27: On track" ++ LF ++ str "old") ++ evs
    /\ Forall (writesOnly (str "RM-1") sampleFieldId
                 (str "2026-01-27: On track" ++ LF ++ str "old")) evs.
Proof.
  pose proof (what_is_written_is_what_was_shown
                (sampleEnv sampleFieldId true true [] ["y"%string])
                asciiLowerCase (str "On track") true sampleFieldId
                (ticket "RM-1" "old") (mkLoop false false 0 0) readyWorld
                (conj eq_refl eq_refl) eq_refl) as H.
  cbv zeta in H.
  destruct H as (r & w' & evs & E & [[st' ->]|(_ & _ & N)] & T & F).
  - exists st', w', evs. split; [exact E|]. split; [exact T | exact F].
  - discriminate N.
Defined.

Lemma loop_variables_witness :
  exists st',
    advances 3 (mkLoop false false 0 0) st'
    /\ (forOf (interactiveBody
                 (sampleEnv sampleFieldId true false [] ["n"%string; "a"%string])
                 asciiLowerCase (str "On track") true)
          [ticket "RM-1" "old"; ticket "RM-2" ""; ticket "RM-3" "  "]
          (mkLoop false false 0 0) readyWorld).1 = Ok st'.
Proof.
  eexists. split.
  - eapply (loop_variables_advance
              (sampleEnv sampleFieldId true false [] ["n"%string; "a"%string])
              asciiLowerCase (str "On track") true
              [ticket "RM-1" "old"; ticket "RM-2" ""; ticket "RM-3" "  "]
              (mkLoop false false 0 0) _ readyWorld).
    vm_compute. reflexivity.
  - vm_compute. reflexivity.
Defined.

Lemma accounting_witness :
  exists st' w' evs,
    forOf (interactiveBody
             (sampleEnv sampleFieldId true false [] ["n"%string; "a"%string])
             asciiLowerCase (str "On track") true)
      [ticket "RM-1" "old"; ticket "RM-2" ""; ticket "RM-3" "  "]
      (mkLoop false false 0 0) readyWorld = (Ok st', w')
    /\ trace w' = evs
    /\ (updatedCount st' + skippedCount st' + weight fails evs = 3)%nat.
Proof.
  destruct (every_issue_is_updated_skipped_or_failed
              (sampleEnv sampleFieldId true false [] ["n"%string; "a"%string])
              asciiLowerCase (str "On track") true sampleFieldId
              [ticket "RM-1" "old"; ticket "RM-2" ""; ticket "RM-3" "  "]
              (mkLoop false false 0 0) readyWorld)
    as [(st' & w' & evs & E & T & _ & K)|(w' & E & _)].
  - split; reflexivity.
  - exists st', w', evs. repeat split; assumption.
  - vm_compute in E. discriminate E.
Defined.

Lemma apply_all_witness :
  exists evs,
    trace (forOf (interactiveBody
                    (sampleEnv sampleFieldId true false [] [])
                    asciiLowerCase (str "On track") true)
             [ticket "RM-1" "old"; ticket "RM-2" ""]
             (mkLoop true false 0 0) readyWorld).2 = evs
    /\ weight (perIssue Prompted) evs = 0%nat.
Proof.
  apply (apply_all_never_asks_again
           (sampleEnv sampleFieldId true false [] [])
           asciiLowerCase (str "On track") true
           [ticket "RM-1" "old"; ticket "RM-2" ""]
           (mkLoop true false 0 0) readyWorld).
  reflexivity.
Defined.

Lemma dry_run_command_witness :
  exists evs,
    trace (handleUpdate
             (sampleEnv sampleFieldId true true
                [ticket "RM-1" "old"; ticket "RM-2" ""] [])
             asciiLowerCase (fun s => s) (str "On track")
             (sampleOptions true) initialWorld).2 = evs
    /\ weight writes evs = 0%nat
    /\ weight (perIssue Prompted) evs = 0%nat.
Proof.
  apply (dry_run_command_never_writes_or_asks
           (sampleEnv sampleFieldId true true
              [ticket "RM-1" "old"; ticket "RM-2" ""] [])
           asciiLowerCase (fun s => s) (str "On track")
           (sampleOptions true) initialWorld).
  reflexivity.
Defined.

Lemma next_update_witness :
  buildNewStatus sampleDate (str "Done")
    (Some (buildNewStatus sampleDate [] None true)) false
  = str "Done" ++ LF ++ str "2026-01-27: ".
Proof.
  rewrite (the_next_update_keeps_the_last sampleDate sampleDate []
             (str "Done") None true false).
  - reflexivity.
  - right. reflexivity.
Defined.

Lemma blank_value_witness :
  exists w',
    displayTicketUpdate (ticket "RM-3" "  ") (Some (str "  "))
      (buildNewStatus sampleDate (str "On track") (Some (str "  ")) false)
      initialWorld = (Ok tt, w')
    /\ last (trace w') = Some (ConsoleLog (str "On track")).
Proof.
  eexists. split.
  - apply (blank_value_is_shown_but_dropped sampleDate (ticket "RM-3" "  ")
             (str "On track") (str "  ") false initialWorld);
      reflexivity.
  - reflexivity.
Defined.

Lemma login_witness :
  (exists message,
      login loginKilled initialWorld
      = (Throw (ErrorObj message), initialWorld))
  /\ login loginDone initialWorld = (Ok tt, initialWorld).
Proof.
  split.
  - destruct (login_returns_or_throws_an_error loginKilled initialWorld)
      as [(_ & X & _)|(_ & X)]; [discriminate X | exact X].
  - destruct (login_returns_or_throws_an_error loginDone initialWorld)
      as [(_ & _ & X)|(X & _)]; [exact X|].
    destruct X. split; reflexivity.
Defined.

Lemma handleAuth_witness :
  exitStatus (handleAuth loginMissing initialWorld).1 = 1%Z
  /\ exitStatus (handleAuth loginKilled initialWorld).1 = 1%Z
  /\ exitStatus (handleAuth loginDone initialWorld).1 = 0%Z.
Proof.
  split; [|split].
  - rewrite (proj1 (handleAuth_outcomes loginMissing initialWorld)
               NonError eq_refl).
    reflexivity.
  - rewrite (proj1 (proj2 (handleAuth_outcomes loginKilled initialWorld))
               None eq_refl eq_refl ltac:(discriminate)).
    reflexivity.
  - rewrite (proj2 (proj2 (handleAuth_outcomes loginDone initialWorld))
               eq_refl eq_refl).
    reflexivity.
Defined.

Lemma first_matching_field_witness :
  (getCurrentStatusFieldId (schemaEnv sampleSchema) initialWorld).1
  = Ok sampleFieldId
  /\ fetchCalls
       (getCurrentStatusFieldId (schemaEnv sampleSchema)
          (getCurrentStatusFieldId (schemaEnv sampleSchema)
             initialWorld).2).2 = 1%nat.
Proof.
  edestruct (first_matching_field_is_cached_and_reused
               (schemaEnv sampleSchema) initialWorld (str " token ")
               (mkResponse true 200 [] (Fulfilled (PFields sampleSchema)))
               [mkField (str "summary") (str "Summary") false;
                mkField (str "customfield_1") (str "Current Status") false]
               [mkField (str "customfield_2") (str "Current Status") true]
               (mkField sampleFieldId (str "Current Status") true))
    as [E1 E2].
  - reflexivity.
  - reflexivity.
  - reflexivity.
  - reflexivity.
  - reflexivity.
  - repeat constructor.
  - reflexivity.
  - rewrite E1. cbn [fst snd]. rewrite E2 by discriminate.
    split; reflexivity.
Defined.

Lemma refused_search_witness :
  exitStatus
    (handleUpdate (schemaEnv sampleSchema) asciiLowerCase (fun s => s)
       (str "On track") (sampleOptions false) initialWorld).1 = 1%Z.
Proof.
  erewrite (refused_search_is_reported_with_status
              (schemaEnv sampleSchema) asciiLowerCase (fun s => s)
              (str "On track") (sampleOptions false) initialWorld
              (str " token ") (str " token ") (str " token ")
              (mkResponse true 200 [] (Fulfilled (PFields sampleSchema)))
              (mkResponse false 503 (str "unavailable") (Fulfilled PNone))
              [mkField (str "summary") (str "Summary") false;
               mkField (str "customfield_1") (str "Current Status") false]
              [mkField (str "customfield_2") (str "Current Status") true]
              (mkField sampleFieldId (str "Current Status") true)).
  - reflexivity.
  - reflexivity.
  - reflexivity.
  - reflexivity.
  - reflexivity.
  - reflexivity.
  - reflexivity.
  - reflexivity.
  - repeat constructor.
  - reflexivity.
  - reflexivity.
  - reflexivity.
Defined.

(** The input ends before the first of three questions. *)
Lemma unanswered_question_witness :
  exists w',
    processTicketsInteractive (sampleEnv sampleFieldId true true [] [])
      asciiLowerCase
      [ticket "RM-1" "old"; ticket "RM-2" ""; ticket "RM-3" "  "]
      (str "On track") true readyWorld = (Pending, w')
    /\ questions w' = 1%nat /\ fetchCalls w' = 0%nat
    /\ last (trace w') = Some (Question applyQuestion).
Proof.
  edestruct (unanswered_question_leaves_the_run_pending
               (sampleEnv sampleFieldId true true [] [])
               asciiLowerCase (str "On track") true
               (ticket "RM-1" "old") [ticket "RM-2" ""; ticket "RM-3" "  "]
               (mkLoop false false 0 0) readyWorld)
    as (_ & _ & Hrun).
  - reflexivity.
  - reflexivity.
  - vm_compute. reflexivity.
  - reflexivity.
  - destruct (Hrun eq_refl) as [E _].
    eexists. split; [exact E|]. repeat split.
Defined.
